(** * Real-time transcriber blocks: transcript reconciliation and latency

    A shallow embedding of the two React components of the repository:

    - the WebSocket transcriber (the component that talks to the
      speech-to-text proxy over a raw [WebSocket]), module [WsTranscriber];
    - [blocks/realtime-transcriber-01/page.tsx] (the component built on the
      [useScribe] hook), module [ScribePage].

    Event handlers are functions from component state to component state;
    React's functional [setState] updates are applied in program order,
    and a handler that reads the clock takes the value of
    [performance.now ()] as an argument.  Browser objects (sockets, media
    streams, audio nodes) are handles, and the calls the component makes
    on them are recorded in the state.

    JavaScript values are modelled in module [JS]: strings are [string],
    optional properties are [option], and a [number] is an IEEE-754 binary64
    value, represented by [spec_float] with the operations of the standard
    library's [SpecFloat] at precision 53 and maximal exponent 1024.
    Module [Spec] holds the notions the properties are stated with, among
    them the exact (rational) arithmetic the floating-point results are
    compared with. *)

From Stdlib Require Import ZArith List String Ascii Bool Lia SpecFloat.
From Stdlib Require Import QArith Qround Qminmax Qpower Qabs.
Import ListNotations.

Set Implicit Arguments.

(* ================================================================== *)
(** ** JavaScript values and built-ins used by the components          *)
(* ================================================================== *)

Module JS.

Local Open Scope string_scope.

(** *** Strings *)

(** A string is truthy iff it is not empty. *)
Definition truthy (s : string) : bool :=
  match s with EmptyString => false | String _ _ => true end.

(** [a || b] on strings. *)
Definition or_else (a b : string) : string :=
  if truthy a then a else b.

(** [a || b] where [a] is an optional property ([undefined] is falsy). *)
Definition opt_or_else (a : option string) (b : string) : string :=
  match a with
  | Some s => or_else s b
  | None => b
  end.

(** [Array.prototype.join]. *)
Fixpoint join (sep : string) (l : list string) : string :=
  match l with
  | [] => ""
  | [x] => x
  | x :: rest => x ++ sep ++ join sep rest
  end.

(** [Array.prototype.includes] on an array of strings. *)
Definition includes (l : list string) (s : string) : bool :=
  existsb (String.eqb s) l.

(** *** Arrays *)

(** [l.slice(start)]: a negative [start] counts from the end, and the
    start index is clamped to the bounds of the array. *)
Definition slice_from {A : Type} (start : Z) (l : list A) : list A :=
  let len := Z.of_nat (List.length l) in
  let k := if (start <? 0)%Z then Z.max (len + start) 0 else Z.min start len in
  skipn (Z.to_nat k) l.

(** *** Numbers (binary64) *)

Definition number : Type := spec_float.

Definition prec : Z := 53.
Definition emax : Z := 1024.

Definition add : number -> number -> number := SFadd prec emax.
Definition sub : number -> number -> number := SFsub prec emax.
Definition mul : number -> number -> number := SFmul prec emax.
Definition div : number -> number -> number := SFdiv prec emax.

(** The number denoted by an integer literal or by an array length. *)
Definition of_Z (z : Z) : number := binary_normalize prec emax z 0 false.

Definition zero : number := S754_zero false.

(** [Math.round]: the integral number closest to [x], ties towards
    [+Infinity]; that is [floor (x + 1/2)] computed exactly.  A number
    with a non-negative exponent is integral already; NaN, the
    infinities and the zeros are returned unchanged; a result that
    is zero keeps the sign of [x]. *)
Definition Math_round (x : number) : number :=
  match x with
  | S754_finite s m e =>
      if (0 <=? e)%Z then x
      else
        let n := ((2 * cond_Zopp s (Zpos m) + 2 ^ (- e)) / 2 ^ (- e + 1))%Z in
        binary_normalize prec emax n 0 s
  | _ => x
  end.

(** The mantissa of 1 and of -1: [2^52], with exponent [-52]. *)
Definition one_mantissa : positive := 4503599627370496.

(** [Math.min (a, b)] and [Math.max (a, b)]: NaN when an argument is NaN;
    [-0] counts as smaller than [+0]. *)
Definition Math_min (a b : number) : number :=
  match SFcompare a b with
  | None => S754_nan
  | Some Lt => a
  | Some Gt => b
  | Some Eq => match a with S754_zero true => a | _ => b end
  end.

Definition Math_max (a b : number) : number :=
  match SFcompare a b with
  | None => S754_nan
  | Some Lt => b
  | Some Gt => a
  | Some Eq => match a with S754_zero false => a | _ => b end
  end.

(** The integer part of a finite number, rounding towards zero. *)
Definition truncate (x : number) : Z :=
  match x with
  | S754_finite s m e => cond_Zopp s (Z.shiftl (Zpos m) e)
  | _ => 0
  end.

(** [ToInt16], the conversion applied when a number is stored into an
    [Int16Array]: NaN, the zeros and the infinities become 0; any other
    number is truncated and reduced modulo [2^16] into
    [-32768 .. 32767]. *)
Definition ToInt16 (x : number) : Z :=
  let int16bit := (truncate x mod 65536)%Z in
  if (32768 <=? int16bit)%Z then (int16bit - 65536)%Z else int16bit.

(** An element of a [Float32Array] is a binary32 value. *)
Definition isFloat32 (f : spec_float) : bool := valid_binary 24 128 f.

(** Reading an element of a [Float32Array] yields the number with the
    same value. *)
Definition Float32Array_get (f : spec_float) : number :=
  match f with
  | S754_finite s m e => binary_round prec emax s m e
  | _ => f
  end.

End JS.

(* ================================================================== *)
(** ** The part of the DOM the keyboard handlers read                   *)
(* ================================================================== *)

Module DOM.

(** [e.target]: either an [HTMLElement], of which the handlers read
    [tagName], or anything else (the window, the document, a non-HTML
    element, [null]), for which [instanceof HTMLElement] is false. *)
Inductive EventTarget : Type :=
| HTMLElement (tagName : string)
| OtherTarget.

Record KeyboardEvent : Type := mkKeyboardEvent {
  key : string;
  altKey : bool;
  metaKey : bool;
  ctrlKey : bool;
  target : EventTarget
}.

(** [e.target instanceof HTMLElement &&
     !["INPUT", "TEXTAREA"].includes (e.target.tagName)]. *)
Definition outsideTextField (t : EventTarget) : bool :=
  match t with
  | HTMLElement tag => negb (JS.includes ["INPUT"; "TEXTAREA"]%string tag)
  | OtherTarget => false
  end.

End DOM.

(* ================================================================== *)
(** ** [page.tsx]: the component built on [useScribe]                  *)
(* ================================================================== *)

Module ScribePage.

Import JS.
Local Open Scope string_scope.

(** [interface RecordingState]. *)
Record RecordingState : Type := mkRecording {
  error : string;
  latenciesMs : list number
}.

(** The state the transcript callbacks read and write: the [recording]
    state and the two refs [segmentStartMsRef] and [lastTranscriptRef]. *)
Record State : Type := mkState {
  recording : RecordingState;
  segmentStartMsRef : option number;
  lastTranscriptRef : string
}.

(** [useState] / [useRef] initial values. *)
Definition initial : State :=
  {| recording := {| error := ""; latenciesMs := [] |};
     segmentStartMsRef := None;
     lastTranscriptRef := "" |}.

(** The argument of the transcript callbacks: [{ text?: string }]. *)
Record TranscriptData : Type := mkData { text : option string }.

(** [setRecording (prev => ({ ...prev,
      latenciesMs: [...prev.latenciesMs.slice(-29), latency] }))]. *)
Definition pushLatency (latency : number) (prev : RecordingState)
  : RecordingState :=
  {| error := error prev;
     latenciesMs := (slice_from (-29) (latenciesMs prev) ++ [latency])%list |}.

(** [onPartialTranscript]; [now] is the value [performance.now ()] returns
    when the callback runs. *)
Definition onPartialTranscript (data : TranscriptData) (now : number)
  (st : State) : State :=
  let currentText := opt_or_else (text data) "" in
  if String.eqb currentText (lastTranscriptRef st) then st
  else
    match segmentStartMsRef st with
    | Some start =>
        if (0 <? String.length currentText)%nat then
          {| recording := pushLatency (sub now start) (recording st);
             segmentStartMsRef := None;
             lastTranscriptRef := currentText |}
        else
          {| recording := recording st;
             segmentStartMsRef := Some start;
             lastTranscriptRef := currentText |}
    | None =>
        {| recording := recording st;
           segmentStartMsRef := None;
           lastTranscriptRef := currentText |}
    end.

(** The guard of [onFinalTranscript]:
    [data.text && data.text.length > 0]. *)
Definition hasText (data : TranscriptData) : bool :=
  match text data with
  | Some s => truthy s && (0 <? String.length s)%nat
  | None => false
  end.

(** [onFinalTranscript]. *)
Definition onFinalTranscript (data : TranscriptData) (now : number)
  (st : State) : State :=
  match segmentStartMsRef st with
  | Some start =>
      if hasText data then
        {| recording := pushLatency (sub now start) (recording st);
           segmentStartMsRef := None;
           lastTranscriptRef := "" |}
      else
        {| recording := recording st;
           segmentStartMsRef := None;
           lastTranscriptRef := "" |}
  | None =>
      {| recording := recording st;
         segmentStartMsRef := None;
         lastTranscriptRef := "" |}
  end.

(** The body of the [setInterval] callback that simulates audio chunks. *)
Definition tick (now : number) (st : State) : State :=
  match segmentStartMsRef st with
  | None =>
      {| recording := recording st;
         segmentStartMsRef := Some now;
         lastTranscriptRef := lastTranscriptRef st |}
  | Some _ => st
  end.

(** [averageLatency]. *)
Definition averageLatency (r : RecordingState) : number :=
  if (List.length (latenciesMs r) =? 0)%nat then of_Z 0
  else
    Math_round
      (div (fold_left (fun sum v => add sum v) (latenciesMs r) (of_Z 0))
           (of_Z (Z.of_nat (List.length (latenciesMs r))))).

(** A committed segment as the hook exposes it; only [text] is read. *)
Record Segment : Type := mkSegment { seg_text : string }.

(** What the component reads from [useScribe]. *)
Record Scribe : Type := mkScribe {
  partialTranscript : string;
  finalTranscripts : list Segment
}.

(** [fullTranscript]. *)
Definition fullTranscript (scribe : Scribe) : string :=
  join " " (map seg_text (finalTranscripts scribe)).

(** [displayText]. *)
Definition displayText (r : RecordingState) (scribe : Scribe) : string :=
  or_else (error r) (or_else (partialTranscript scribe) (fullTranscript scribe)).

(** The events the latency measurement reacts to, each with the value
    [performance.now ()] has when it is handled: a tick of the
    audio-chunk interval, a partial transcript, a final transcript. *)
Inductive Event : Type :=
| Tick (now : number)
| Partial (data : TranscriptData) (now : number)
| Final (data : TranscriptData) (now : number).

Definition timeOf (ev : Event) : number :=
  match ev with
  | Tick now => now
  | Partial _ now => now
  | Final _ now => now
  end.

Definition handle (ev : Event) (st : State) : State :=
  match ev with
  | Tick now => tick now st
  | Partial data now => onPartialTranscript data now st
  | Final data now => onFinalTranscript data now st
  end.

(** The events handled in order. *)
Definition run (evs : list Event) (st : State) : State :=
  fold_left (fun st ev => handle ev st) evs st.

(** The segment start an event measures its latency from: set when the
    guard of the latency recording in its handler holds in [st]. *)
Definition measuresFrom (ev : Event) (st : State) : option number :=
  match ev with
  | Tick _ => None
  | Partial data _ =>
      let currentText := opt_or_else (text data) "" in
      if String.eqb currentText (lastTranscriptRef st) then None
      else if (0 <? String.length currentText)%nat then segmentStartMsRef st
      else None
  | Final data _ =>
      if hasText data then segmentStartMsRef st else None
  end.

(** What a keyboard handler does: the calls it makes, in order. *)
Inductive Call : Type :=
| preventDefault
| handleToggleRecording.

(** [handleKeyDown]: Cmd+K or Ctrl+K toggles recording. *)
Definition handleKeyDown (e : DOM.KeyboardEvent) : list Call :=
  if String.eqb (DOM.key e) "k"
     && (DOM.metaKey e || DOM.ctrlKey e)
     && DOM.outsideTextField (DOM.target e)
  then [preventDefault; handleToggleRecording]
  else [].

End ScribePage.

(* ================================================================== *)
(** ** The WebSocket transcriber                                       *)
(* ================================================================== *)

Module WsTranscriber.

Import JS.
Local Open Scope string_scope.

(** [interface RecordingState]. *)
Record RecordingState : Type := mkRecording {
  isRecording : bool;
  isProcessing : bool;
  isConnecting : bool;
  transcript : string;
  partialTranscript : string;
  error : string
}.

(** [Partial<RecordingState>]: the properties an update carries. *)
Record Updates : Type := mkUpdates {
  u_isRecording : option bool;
  u_isProcessing : option bool;
  u_isConnecting : option bool;
  u_transcript : option string;
  u_partialTranscript : option string;
  u_error : option string
}.

(** One property of [{ ...prev, ...updates }]. *)
Definition spread {A : Type} (prev : A) (upd : option A) : A :=
  match upd with Some v => v | None => prev end.

(** [(prev) => ({ ...prev, ...updates })]. *)
Definition merge (prev : RecordingState) (updates : Updates) : RecordingState :=
  {| isRecording := spread (isRecording prev) (u_isRecording updates);
     isProcessing := spread (isProcessing prev) (u_isProcessing updates);
     isConnecting := spread (isConnecting prev) (u_isConnecting updates);
     transcript := spread (transcript prev) (u_transcript updates);
     partialTranscript :=
       spread (partialTranscript prev) (u_partialTranscript updates);
     error := spread (error prev) (u_error updates) |}.

(** Browser objects are handles. *)
Definition WebSocket : Type := nat.
Definition MediaStream : Type := nat.
Definition AudioNode : Type := nat.

(** The component instance: its [recording] state, its refs, and the
    calls made so far on the browser objects it holds ([close] on
    sockets, [stop] on the tracks of streams, nodes created). *)
Record World : Type := mkWorld {
  recording : RecordingState;
  websocketRef : option WebSocket;
  streamRef : option MediaStream;
  audioContextRef : option AudioNode;
  processorRef : option AudioNode;
  closedSockets : list WebSocket;
  stoppedStreams : list MediaStream;
  nextNode : AudioNode
}.

Definition setRecording (r : RecordingState) (w : World) : World :=
  {| recording := r;
     websocketRef := websocketRef w;
     streamRef := streamRef w;
     audioContextRef := audioContextRef w;
     processorRef := processorRef w;
     closedSockets := closedSockets w;
     stoppedStreams := stoppedStreams w;
     nextNode := nextNode w |}.

(** [updateRecording]. *)
Definition updateRecording (updates : Updates) (w : World) : World :=
  setRecording (merge (recording w) updates) w.

(** [cleanupStream]. *)
Definition cleanupStream (w : World) : World :=
  match streamRef w with
  | Some s =>
      {| recording := recording w;
         websocketRef := websocketRef w;
         streamRef := None;
         audioContextRef := audioContextRef w;
         processorRef := processorRef w;
         closedSockets := closedSockets w;
         stoppedStreams := s :: stoppedStreams w;
         nextNode := nextNode w |}
  | None => w
  end.

(** [cleanupWebSocket]. *)
Definition cleanupWebSocket (w : World) : World :=
  match websocketRef w with
  | Some s =>
      {| recording := recording w;
         websocketRef := None;
         streamRef := streamRef w;
         audioContextRef := audioContextRef w;
         processorRef := processorRef w;
         closedSockets := s :: closedSockets w;
         stoppedStreams := stoppedStreams w;
         nextNode := nextNode w |}
  | None => w
  end.

(** [type WebSocketMessage]. *)
Inductive WebSocketMessage : Type :=
| session_started
| partial_transcript (transcript : string)
| final_transcript (transcript : string)
| error_message (error : string).

(** The outcome of [JSON.parse (event.data)]: an exception, a message of
    one of the four types, or a value with another [message_type]. *)
Inductive Parsed : Type :=
| ParseError
| Message (m : WebSocketMessage)
| OtherMessage.

(** The audio set-up of the ["session_started"] case: a new
    [AudioContext] and a new script processor. *)
Definition startAudio (w : World) : World :=
  {| recording := recording w;
     websocketRef := websocketRef w;
     streamRef := streamRef w;
     audioContextRef := Some (nextNode w);
     processorRef := Some (S (nextNode w));
     closedSockets := closedSockets w;
     stoppedStreams := stoppedStreams w;
     nextNode := S (S (nextNode w)) |}.

(** [websocket.onmessage]. *)
Definition onmessage (data : Parsed) (w : World) : World :=
  match data with
  | ParseError => w
  | OtherMessage => w
  | Message session_started =>
      startAudio
        (updateRecording
           {| u_isRecording := Some true; u_isProcessing := None;
              u_isConnecting := Some false; u_transcript := None;
              u_partialTranscript := None; u_error := None |} w)
  | Message (partial_transcript t) =>
      updateRecording
        {| u_isRecording := None; u_isProcessing := None;
           u_isConnecting := None; u_transcript := None;
           u_partialTranscript := Some t; u_error := None |} w
  | Message (final_transcript t) =>
      cleanupWebSocket
        (updateRecording
           {| u_isRecording := None; u_isProcessing := Some false;
              u_isConnecting := None; u_transcript := Some t;
              u_partialTranscript := Some ""; u_error := None |} w)
  | Message (error_message e) =>
      cleanupWebSocket
        (updateRecording
           {| u_isRecording := Some false; u_isProcessing := Some false;
              u_isConnecting := Some false; u_transcript := None;
              u_partialTranscript := None; u_error := Some e |} w)
  end.

(** [websocket.onerror]. *)
Definition onerror (w : World) : World :=
  cleanupWebSocket
    (cleanupStream
       (updateRecording
          {| u_isRecording := Some false; u_isProcessing := Some false;
             u_isConnecting := Some false; u_transcript := None;
             u_partialTranscript := None;
             u_error := Some "Connection error" |} w)).

(** The ready state of a socket the component has connected: it stays
    open until [close ()] is called on it. *)
Definition isOpen (w : World) (ws : WebSocket) : bool :=
  negb (existsb (Nat.eqb ws) (closedSockets w)).

(** Delivery of a message on the socket [ws].  The browser fires the
    [message] event of a socket, and so runs [websocket.onmessage], only
    while the socket is open; a message that arrives after [close ()] has
    been called is dropped. *)
Definition dispatchMessage (ws : WebSocket) (data : Parsed) (w : World)
  : World :=
  if isOpen w ws then onmessage data w else w.

(** The messages arriving on one socket, in order. *)
Definition receive (ws : WebSocket) (msgs : list Parsed) (w : World) : World :=
  fold_left (fun w data => dispatchMessage ws data w) msgs w.

(** [displayText]. *)
Definition displayText (r : RecordingState) : string :=
  or_else (error r) (or_else (partialTranscript r) (transcript r)).

(** What a keyboard handler does: the calls it makes, in order. *)
Inductive Call : Type :=
| preventDefault
| startRecording
| stopRecording.

(** [handleKeyDown]: holding Alt starts recording. *)
Definition handleKeyDown (r : RecordingState) (e : DOM.KeyboardEvent)
  : list Call :=
  if DOM.altKey e
     && negb (isRecording r)
     && negb (isConnecting r)
     && negb (isProcessing r)
     && DOM.outsideTextField (DOM.target e)
  then [preventDefault; startRecording]
  else [].

(** [handleKeyUp]. *)
Definition handleKeyUp (r : RecordingState) (e : DOM.KeyboardEvent)
  : list Call :=
  if negb (DOM.altKey e) && isRecording r then [stopRecording] else [].

(** The body of the conversion loop of [processor.onaudioprocess]:
    [pcmData[i] = Math.max (-1, Math.min (1, inputData[i])) * 0x7fff],
    the store into the [Int16Array] included. *)
Definition toPCM16 (sample : number) : Z :=
  ToInt16 (mul (Math_max (of_Z (-1)) (Math_min (of_Z 1) sample)) (of_Z 32767)).

(** The loop over the input buffer. *)
Definition convertBuffer (inputData : list spec_float) : list Z :=
  map (fun f => toPCM16 (Float32Array_get f)) inputData.

End WsTranscriber.

(* ================================================================== *)
(** ** The WebSocket transcriber: recording control, sounds, rendering *)
(* ================================================================== *)

Module WsControl.

Import JS.
Import WsTranscriber.
Local Open Scope string_scope.

(** [interface InputAudioChunk]; [message_type] is always
    ["input_audio_chunk"]. *)
Record InputAudioChunk : Type := mkChunk {
  audio_base_64 : string;
  commit : bool
}.

(** The component together with what the browser knows about the objects
    it uses: the sockets whose connection has been established, the
    sockets whose connection has ended (closed by the server, or lost),
    the messages sent on each socket (newest first), the audio nodes
    disconnected and the audio contexts closed. *)
Record Browser : Type := mkBrowser {
  world : World;
  openedSockets : list WebSocket;
  endedSockets : list WebSocket;
  sent : list (WebSocket * InputAudioChunk);
  disconnectedNodes : list AudioNode;
  closedContexts : list AudioNode
}.

Definition setWorld (w : World) (b : Browser) : Browser :=
  {| world := w;
     openedSockets := openedSockets b;
     endedSockets := endedSockets b;
     sent := sent b;
     disconnectedNodes := disconnectedNodes b;
     closedContexts := closedContexts b |}.

(** [ws.readyState === WebSocket.OPEN]: the connection has been
    established, [close ()] has not been called, and the connection has
    not ended. *)
Definition readyStateOpen (b : Browser) (ws : WebSocket) : bool :=
  existsb (Nat.eqb ws) (openedSockets b)
  && isOpen (world b) ws
  && negb (existsb (Nat.eqb ws) (endedSockets b)).

(** [ws.send (JSON.stringify (message))]. *)
Definition send (ws : WebSocket) (message : InputAudioChunk) (b : Browser)
  : Browser :=
  {| world := world b;
     openedSockets := openedSockets b;
     endedSockets := endedSockets b;
     sent := (ws, message) :: sent b;
     disconnectedNodes := disconnectedNodes b;
     closedContexts := closedContexts b |}.

(** The browser establishes the connection of [ws]; [websocket.onopen]
    only logs. *)
Definition onopen (ws : WebSocket) (b : Browser) : Browser :=
  {| world := world b;
     openedSockets := ws :: openedSockets b;
     endedSockets := endedSockets b;
     sent := sent b;
     disconnectedNodes := disconnectedNodes b;
     closedContexts := closedContexts b |}.

(** [if (processorRef.current) { processorRef.current.disconnect ();
      processorRef.current = null }]. *)
Definition releaseProcessor (b : Browser) : Browser :=
  match processorRef (world b) with
  | Some p =>
      {| world :=
           {| recording := recording (world b);
              websocketRef := websocketRef (world b);
              streamRef := streamRef (world b);
              audioContextRef := audioContextRef (world b);
              processorRef := None;
              closedSockets := closedSockets (world b);
              stoppedStreams := stoppedStreams (world b);
              nextNode := nextNode (world b) |};
         openedSockets := openedSockets b;
         endedSockets := endedSockets b;
         sent := sent b;
         disconnectedNodes := p :: disconnectedNodes b;
         closedContexts := closedContexts b |}
  | None => b
  end.

(** [if (audioContextRef.current) { audioContextRef.current.close ();
      audioContextRef.current = null }]. *)
Definition releaseAudioContext (b : Browser) : Browser :=
  match audioContextRef (world b) with
  | Some a =>
      {| world :=
           {| recording := recording (world b);
              websocketRef := websocketRef (world b);
              streamRef := streamRef (world b);
              audioContextRef := None;
              processorRef := processorRef (world b);
              closedSockets := closedSockets (world b);
              stoppedStreams := stoppedStreams (world b);
              nextNode := nextNode (world b) |};
         openedSockets := openedSockets b;
         endedSockets := endedSockets b;
         sent := sent b;
         disconnectedNodes := disconnectedNodes b;
         closedContexts := a :: closedContexts b |}
  | None => b
  end.

(** The message that asks the server to finalize the transcription. *)
Definition commitMessage : InputAudioChunk :=
  {| audio_base_64 := ""; commit := true |}.

(** [if (websocketRef.current?.readyState === WebSocket.OPEN)
      websocketRef.current.send (JSON.stringify (commitMessage))]. *)
Definition sendCommit (b : Browser) : Browser :=
  match websocketRef (world b) with
  | Some ws => if readyStateOpen b ws then send ws commitMessage b else b
  | None => b
  end.

(** [stopRecording]. *)
Definition stopRecording (b : Browser) : Browser :=
  let b := sendCommit (releaseAudioContext (releaseProcessor b)) in
  setWorld
    (updateRecording
       {| u_isRecording := Some false; u_isProcessing := Some true;
          u_isConnecting := None; u_transcript := None;
          u_partialTranscript := None; u_error := None |}
       (cleanupStream (world b)))
    b.

(** The first part of [startRecording], up to the wait for
    [getUserMedia]. *)
Definition startRecording_begin (b : Browser) : Browser :=
  setWorld
    (updateRecording
       {| u_isRecording := None; u_isProcessing := None;
          u_isConnecting := Some true; u_transcript := Some "";
          u_partialTranscript := Some ""; u_error := Some "" |}
       (world b))
    b.

(** What [startRecording] waits for: [getUserMedia] resolves with a
    stream or rejects, and [new WebSocket (url)] returns a socket or
    throws.  A failure carries its [message] when the value thrown is an
    [Error]. *)
Inductive Outcome : Type :=
| MediaRejected (message : option string)
| SocketThrows (stream : MediaStream) (message : option string)
| Connecting (stream : MediaStream) (ws : WebSocket).

(** The [catch] block of [startRecording]. *)
Definition startRecording_catch (message : option string) (w : World) : World :=
  cleanupWebSocket
    (cleanupStream
       (updateRecording
          {| u_isRecording := Some false; u_isProcessing := None;
             u_isConnecting := Some false; u_transcript := None;
             u_partialTranscript := None;
             u_error :=
               Some (match message with
                     | Some m => m
                     | None => "Failed to start recording"
                     end) |}
          w)).

Definition setStreamRef (stream : MediaStream) (w : World) : World :=
  {| recording := recording w;
     websocketRef := websocketRef w;
     streamRef := Some stream;
     audioContextRef := audioContextRef w;
     processorRef := processorRef w;
     closedSockets := closedSockets w;
     stoppedStreams := stoppedStreams w;
     nextNode := nextNode w |}.

Definition setWebsocketRef (ws : WebSocket) (w : World) : World :=
  {| recording := recording w;
     websocketRef := Some ws;
     streamRef := streamRef w;
     audioContextRef := audioContextRef w;
     processorRef := processorRef w;
     closedSockets := closedSockets w;
     stoppedStreams := stoppedStreams w;
     nextNode := nextNode w |}.

(** The rest of [startRecording], from the moment [getUserMedia]
    settles: the stream and the socket are stored in their refs and the
    socket gets its handlers, or the [catch] block runs. *)
Definition startRecording_resume (o : Outcome) (b : Browser) : Browser :=
  match o with
  | MediaRejected message =>
      setWorld (startRecording_catch message (world b)) b
  | SocketThrows stream message =>
      setWorld (startRecording_catch message (setStreamRef stream (world b))) b
  | Connecting stream ws =>
      setWorld (setWebsocketRef ws (setStreamRef stream (world b))) b
  end.

(** What [startRecording] as a whole does once its wait is over. *)
Definition startRecording (o : Outcome) (b : Browser) : Browser :=
  startRecording_resume o (startRecording_begin b).

(** The value caught by the [catch] block, when the outcome is a
    failure: its [message] if it is an [Error]. *)
Definition thrown (o : Outcome) : option (option string) :=
  match o with
  | MediaRejected message => Some message
  | SocketThrows _ message => Some message
  | Connecting _ _ => None
  end.

(** [err instanceof Error ? err.message : "Failed to start recording"]. *)
Definition failureText (message : option string) : string :=
  match message with
  | Some m => m
  | None => "Failed to start recording"
  end.

(** [websocket.onclose]; [code] is [event.code]. *)
Definition onclose (code : nat) (w : World) : World :=
  if Nat.eqb code 1008 then
    updateRecording
      {| u_isRecording := Some false; u_isProcessing := Some false;
         u_isConnecting := Some false; u_transcript := None;
         u_partialTranscript := None;
         u_error := Some "Quota exceeded. Please try again later." |} w
  else w.

(** The connection of [ws] ends: the socket is closed from then on and
    the browser fires its [close] event with the code given. *)
Definition connectionEnds (ws : WebSocket) (code : nat) (b : Browser)
  : Browser :=
  {| world := onclose code (world b);
     openedSockets := openedSockets b;
     endedSockets := ws :: endedSockets b;
     sent := sent b;
     disconnectedNodes := disconnectedNodes b;
     closedContexts := closedContexts b |}.

(** [processor.onaudioprocess] of the session on socket [ws]: one chunk of
    audio, already encoded, is sent when the socket is open. *)
Definition onaudioprocess (ws : WebSocket) (base64 : string) (b : Browser)
  : Browser :=
  if readyStateOpen b ws
  then send ws {| audio_base_64 := base64; commit := false |} b
  else b.

(** A message delivered on [ws]. *)
Definition deliver (ws : WebSocket) (data : Parsed) (b : Browser) : Browser :=
  setWorld (dispatchMessage ws data (world b)) b.

(** *** Sound effects *)

Inductive Sound : Type := startSound | endSound | errorSound.

(** The effect that runs when [recording.isRecording] changes: the sounds
    it plays and the new value of [prevRecordingRef]. *)
Definition recordingEffect (isRecording prevRecordingRef : bool)
  : list Sound * bool :=
  ((if isRecording && negb prevRecordingRef then [startSound] else [])
   ++ (if negb isRecording && prevRecordingRef then [endSound] else []),
   isRecording)%list.

(** The sounds played over successive values of [recording.isRecording]. *)
Fixpoint recordingSounds (renders : list bool) (prevRecordingRef : bool)
  : list Sound * bool :=
  match renders with
  | [] => ([], prevRecordingRef)
  | isRecording :: rest =>
      let '(s, prev) := recordingEffect isRecording prevRecordingRef in
      let '(s', prev') := recordingSounds rest prev in
      ((s ++ s')%list, prev')
  end.

(** *** Rendering *)

(** [hasContent]. *)
Definition hasContent (r : RecordingState) : bool := truthy (displayText r).

(** The props [TranscriberTranscript] is rendered with. *)
Record TranscriptProps : Type := mkProps {
  p_transcript : string;
  p_error : string;
  p_isPartial : bool
}.

(** The transcript area: [TranscriberTranscript] when there is content,
    the instructions otherwise. *)
Definition transcriptArea (r : RecordingState) : option TranscriptProps :=
  if hasContent r
  then Some {| p_transcript := displayText r;
               p_error := error r;
               p_isPartial := truthy (partialTranscript r) |}
  else None.

(** The copy button of [TranscriberTranscript]: absent, or present with
    the text its click writes to the clipboard. *)
Definition copyButton (p : TranscriptProps) : option string :=
  if truthy (p_transcript p) && negb (truthy (p_error p)) && negb (p_isPartial p)
  then Some (p_transcript p)
  else None.

End WsControl.

(* ================================================================== *)
(** ** [page.tsx]: errors, timers, connection toggling, rendering      *)
(* ================================================================== *)

Module ScribeControl.

Import JS.
Import ScribePage.
Local Open Scope string_scope.

(** Timer handles are positive integers, so a stored handle is truthy. *)
Definition TimerId : Type := positive.

(** What a pending [setTimeout] callback does when it fires. *)
Inductive TimerAction : Type :=
| ShowError (errorMessage : string)
| ReleaseOperating
| PlayStartSound.

(** The calls the component makes on the [useScribe] hook, on the token
    action and on its sounds. *)
Inductive Effect : Type :=
| scribe_disconnect
| scribe_clearTranscripts
| scribe_connect (token : string) (languageCode : option string)
| getScribeToken
| playStart
| playEnd
| playError.

(** The component: the state of the transcript callbacks, the guard refs,
    the pending timers, and the calls made so far (newest first). *)
Record Page : Type := mkPage {
  state : State;
  selectedLanguage : option string;
  isOperatingRef : bool;
  shouldBeConnectedRef : bool;
  errorTimeoutRef : option TimerId;
  timers : list (TimerId * TimerAction);
  nextTimer : TimerId;
  effects : list Effect
}.

Definition initialPage : Page :=
  {| state := initial;
     selectedLanguage := None;
     isOperatingRef := false;
     shouldBeConnectedRef := false;
     errorTimeoutRef := None;
     timers := [];
     nextTimer := 1%positive;
     effects := [] |}.

Definition setState (s : State) (p : Page) : Page :=
  {| state := s;
     selectedLanguage := selectedLanguage p;
     isOperatingRef := isOperatingRef p;
     shouldBeConnectedRef := shouldBeConnectedRef p;
     errorTimeoutRef := errorTimeoutRef p;
     timers := timers p;
     nextTimer := nextTimer p;
     effects := effects p |}.

Definition setIsOperating (v : bool) (p : Page) : Page :=
  {| state := state p;
     selectedLanguage := selectedLanguage p;
     isOperatingRef := v;
     shouldBeConnectedRef := shouldBeConnectedRef p;
     errorTimeoutRef := errorTimeoutRef p;
     timers := timers p;
     nextTimer := nextTimer p;
     effects := effects p |}.

Definition setShouldBeConnected (v : bool) (p : Page) : Page :=
  {| state := state p;
     selectedLanguage := selectedLanguage p;
     isOperatingRef := isOperatingRef p;
     shouldBeConnectedRef := v;
     errorTimeoutRef := errorTimeoutRef p;
     timers := timers p;
     nextTimer := nextTimer p;
     effects := effects p |}.

Definition setErrorTimeoutRef (v : option TimerId) (p : Page) : Page :=
  {| state := state p;
     selectedLanguage := selectedLanguage p;
     isOperatingRef := isOperatingRef p;
     shouldBeConnectedRef := shouldBeConnectedRef p;
     errorTimeoutRef := v;
     timers := timers p;
     nextTimer := nextTimer p;
     effects := effects p |}.

Definition perform (e : Effect) (p : Page) : Page :=
  {| state := state p;
     selectedLanguage := selectedLanguage p;
     isOperatingRef := isOperatingRef p;
     shouldBeConnectedRef := shouldBeConnectedRef p;
     errorTimeoutRef := errorTimeoutRef p;
     timers := timers p;
     nextTimer := nextTimer p;
     effects := e :: effects p |}.

(** [setTimeout (callback, delay)]: a new pending timer; its handle is
    the one [nextTimer] announced. *)
Definition setTimeout (a : TimerAction) (p : Page) : Page :=
  {| state := state p;
     selectedLanguage := selectedLanguage p;
     isOperatingRef := isOperatingRef p;
     shouldBeConnectedRef := shouldBeConnectedRef p;
     errorTimeoutRef := errorTimeoutRef p;
     timers := (nextTimer p, a) :: timers p;
     nextTimer := Pos.succ (nextTimer p);
     effects := effects p |}.

(** [clearTimeout (id)]. *)
Definition clearTimeout (id : TimerId) (p : Page) : Page :=
  {| state := state p;
     selectedLanguage := selectedLanguage p;
     isOperatingRef := isOperatingRef p;
     shouldBeConnectedRef := shouldBeConnectedRef p;
     errorTimeoutRef := errorTimeoutRef p;
     timers := filter (fun t => negb (Pos.eqb (fst t) id)) (timers p);
     nextTimer := nextTimer p;
     effects := effects p |}.

(** [setRecording ((prev) => ({ ...prev, error }))]. *)
Definition setError (msg : string) (s : State) : State :=
  {| recording :=
       {| error := msg; latenciesMs := latenciesMs (recording s) |};
     segmentStartMsRef := segmentStartMsRef s;
     lastTranscriptRef := lastTranscriptRef s |}.

(** [segmentStartMsRef.current = null] and
    [setRecording ((prev) => ({ ...prev, latenciesMs: [], error: "" }))]. *)
Definition resetSession (s : State) : State :=
  {| recording := {| error := ""; latenciesMs := [] |};
     segmentStartMsRef := None;
     lastTranscriptRef := lastTranscriptRef s |}.

(** [onError]; the argument is the message of the error when it is an
    [Error], and [None] when it is an [Event]. *)
Definition onError (error : option string) (p : Page) : Page :=
  let errorMessage :=
    match error with Some m => m | None => "Transcription error" end in
  let p :=
    match errorTimeoutRef p with
    | Some id => clearTimeout id p
    | None => p
    end in
  let id := nextTimer p in
  setErrorTimeoutRef (Some id) (setTimeout (ShowError errorMessage) p).

(** A pending timer fires: it leaves the pending timers and its callback
    runs.  [isConnected] is the value of [scribe.isConnected] the callback
    of the start sound reads. *)
Definition fire (id : TimerId) (isConnected : bool) (p : Page) : Page :=
  match find (fun t => Pos.eqb (fst t) id) (timers p) with
  | None => p
  | Some (_, a) =>
      let p := clearTimeout id p in
      match a with
      | ShowError msg => perform playError (setState (setError msg (state p)) p)
      | ReleaseOperating => setIsOperating false p
      | PlayStartSound =>
          if shouldBeConnectedRef p && isConnected
          then perform playStart p
          else p
      end
  end.

(** [if (errorTimeoutRef.current) { clearTimeout (errorTimeoutRef.current);
      errorTimeoutRef.current = null }]. *)
Definition clearErrorTimeout (p : Page) : Page :=
  match errorTimeoutRef p with
  | Some id => setErrorTimeoutRef None (clearTimeout id p)
  | None => p
  end.

(** What [handleToggleRecording] reads from the hook. *)
Record ScribeView : Type := mkView {
  isConnected : bool;
  status : string
}.

(** The disconnection done by [handleToggleRecording]:
    [scribe.disconnect ()], [scribe.clearTranscripts ()], the reset of
    the latency state, and the end sound. *)
Definition disconnectNow (p : Page) : Page :=
  perform playEnd
    (setState (resetSession (state p))
       (perform scribe_clearTranscripts (perform scribe_disconnect p))).

(** How a call of [handleToggleRecording] goes on: it has returned, or it
    waits for the token, or it waits for the connection. *)
Inductive Progress : Type :=
| Returned (p : Page)
| AwaitToken (p : Page)
| AwaitConnect (p : Page).

Definition pageOf (x : Progress) : Page :=
  match x with
  | Returned p => p
  | AwaitToken p => p
  | AwaitConnect p => p
  end.

(** The [catch] and [finally] blocks. *)
Definition toggle_catch (message : option string) (p : Page) : Page :=
  let msg :=
    match message with Some m => m | None => "Failed to start recording" end in
  setIsOperating false
    (setState (setError msg (state p)) (setShouldBeConnected false p)).

Definition toggle_finally (p : Page) : Page := setIsOperating false p.

(** [handleToggleRecording] up to its first [await]. *)
Definition toggle (view : ScribeView) (p : Page) : Progress :=
  if isConnected view || String.eqb (status view) "connecting" then
    Returned
      (setTimeout ReleaseOperating
         (disconnectNow
            (clearErrorTimeout
               (setIsOperating true (setShouldBeConnected false p)))))
  else if isOperatingRef p then Returned p
  else
    AwaitToken
      (perform getScribeToken
         (setState (resetSession (state p))
            (clearErrorTimeout
               (setIsOperating true (setShouldBeConnected true p))))).

(** The value [getScribeToken] resolves with. *)
Record TokenResult : Type := mkToken {
  token : option string;
  tokenError : option string
}.

(** How the wait for the token ends: the promise rejects (with the
    message of the value thrown, when that is an [Error]) or resolves. *)
Inductive TokenOutcome : Type :=
| TokenRejects (message : option string)
| TokenResolves (result : TokenResult).

Definition truthyOpt (s : option string) : bool :=
  match s with Some x => truthy x | None => false end.

(** [selectedLanguage || undefined]. *)
Definition languageCode (selectedLanguage : option string) : option string :=
  match selectedLanguage with
  | Some l => if truthy l then Some l else None
  | None => None
  end.

(** [handleToggleRecording] from the arrival of the token to the call of
    [scribe.connect]. *)
Definition toggle_afterToken (outcome : TokenOutcome) (p : Page) : Progress :=
  match outcome with
  | TokenRejects message => Returned (toggle_catch message p)
  | TokenResolves result =>
      if negb (shouldBeConnectedRef p) then Returned (toggle_finally p)
      else if truthyOpt (tokenError result) || negb (truthyOpt (token result))
      then
        Returned
          (toggle_catch
             (Some (opt_or_else (tokenError result) "Failed to get token")) p)
      else
        AwaitConnect
          (perform
             (scribe_connect (opt_or_else (token result) "")
                (languageCode (selectedLanguage p)))
             p)
  end.

(** [handleToggleRecording] from the moment [scribe.connect] settles:
    [rejected] is [None] when it resolves, and otherwise the message of
    the value it rejects with ([None] when that is not an [Error]). *)
Definition toggle_afterConnect (rejected : option (option string)) (p : Page)
  : Page :=
  match rejected with
  | Some message => toggle_catch message p
  | None =>
      if negb (shouldBeConnectedRef p)
      then toggle_finally (disconnectNow p)
      else toggle_finally (setTimeout PlayStartSound p)
  end.

(** Everything that can happen to the component. *)
Inductive Event : Type :=
| Transcript (ev : ScribePage.Event)
| Error (error : option string)
| Fire (id : TimerId) (isConnected : bool)
| Toggle (view : ScribeView)
| TokenArrives (outcome : TokenOutcome)
| ConnectSettles (rejected : option (option string)).

Definition step (ev : Event) (p : Page) : Page :=
  match ev with
  | Transcript e => setState (handle e (state p)) p
  | Error error => onError error p
  | Fire id isConnected => fire id isConnected p
  | Toggle view => pageOf (toggle view p)
  | TokenArrives outcome => pageOf (toggle_afterToken outcome p)
  | ConnectSettles rejected => toggle_afterConnect rejected p
  end.

Definition steps (evs : list Event) (p : Page) : Page :=
  fold_left (fun p ev => step ev p) evs p.

(** *** Rendering *)

(** [stableDisplayText]: the value returned and the new value of
    [prevDisplayTextRef]. *)
Definition stableDisplayText (displayText prevDisplayTextRef : string)
  : string * string :=
  if negb (String.eqb displayText prevDisplayTextRef)
  then (displayText, displayText)
  else (prevDisplayTextRef, prevDisplayTextRef).

(** The props [TranscriberTranscript] is rendered with. *)
Record TranscriptProps : Type := mkProps {
  p_transcript : string;
  p_error : string;
  p_isPartial : bool;
  p_isConnected : bool
}.

(** The transcript area: [TranscriberTranscript] when [hasContent], the
    status text and the start button otherwise. *)
Definition transcriptArea (r : RecordingState) (scribe : Scribe)
  (view : ScribeView) (prevDisplayTextRef : string) : option TranscriptProps :=
  let stable := fst (stableDisplayText (displayText r scribe) prevDisplayTextRef) in
  if truthy stable
  then Some {| p_transcript := stable;
               p_error := error r;
               p_isPartial := truthy (partialTranscript scribe);
               p_isConnected := isConnected view |}
  else None.

(** The copy button of [TranscriberTranscript]: absent, or present with
    the text its click writes to the clipboard. *)
Definition copyButton (p : TranscriptProps) : option string :=
  if truthy (p_transcript p) && negb (truthy (p_error p)) && negb (p_isPartial p)
  then Some (p_transcript p)
  else None.

End ScribeControl.

(* ================================================================== *)
(** ** The reading of the specification                                *)
(* ================================================================== *)

Module Spec.

Local Open Scope string_scope.
Local Open Scope Q_scope.

(** The last [n] entries of a list (all of it when it has fewer). *)
Definition last_entries {A : Type} (n : nat) (l : list A) : list A :=
  skipn (List.length l - n) l.

(** The precedence of the presented text: the error message when there is
    one, otherwise the partial transcript when there is one, otherwise
    the final transcript. *)
Definition presented (error partial final : string) : string :=
  if String.eqb error "" then
    if String.eqb partial "" then final else partial
  else error.

(** What an error path must establish: the error text is [msg], the
    three flags are down, the socket reference is cleared and the socket
    it held has been closed. *)
Definition sessionReset (msg : string) (w w' : WsTranscriber.World) : Prop :=
  WsTranscriber.error (WsTranscriber.recording w') = msg
  /\ WsTranscriber.isRecording (WsTranscriber.recording w') = false
  /\ WsTranscriber.isConnecting (WsTranscriber.recording w') = false
  /\ WsTranscriber.isProcessing (WsTranscriber.recording w') = false
  /\ WsTranscriber.websocketRef w' = None
  /\ forall ws : WsTranscriber.WebSocket,
      WsTranscriber.websocketRef w = Some ws ->
      In ws (WsTranscriber.closedSockets w')
      /\ WsTranscriber.isOpen w' ws = false.

(** While the session of the socket [ws] lasts, [websocketRef] holds
    [ws]; the session ends when [ws] is closed. *)
Definition inSession (ws : WsTranscriber.WebSocket) (w : WsTranscriber.World)
  : Prop :=
  (WsTranscriber.websocketRef w = Some ws /\ WsTranscriber.isOpen w ws = true)
  \/ WsTranscriber.isOpen w ws = false.

(** *** Latency measurement along a run *)

(** A run of [page.tsx] annotated: each event with the state it was
    handled in. *)
Fixpoint history (st : ScribePage.State) (evs : list ScribePage.Event)
  : list (ScribePage.Event * ScribePage.State) :=
  match evs with
  | [] => []
  | ev :: rest => (ev, st) :: history (ScribePage.handle ev st) rest
  end.

(** The event recorded a latency. *)
Definition isMeasurement (x : ScribePage.Event * ScribePage.State) : bool :=
  match ScribePage.measuresFrom (fst x) (snd x) with
  | Some _ => true
  | None => false
  end.

(** The event reset the segment start: it recorded a latency, or it is a
    final transcript. *)
Definition isReset (x : ScribePage.Event * ScribePage.State) : bool :=
  isMeasurement x
  || match fst x with ScribePage.Final _ _ => true | _ => false end.

(** The part of a list after the last element that satisfies [p] (the
    whole list when there is none). *)
Fixpoint after_last {A : Type} (p : A -> bool) (l : list A) : list A :=
  match l with
  | [] => []
  | x :: rest =>
      if existsb p rest then after_last p rest
      else if p x then rest
      else x :: rest
  end.

(** The time of the first tick of a list of events. *)
Fixpoint first_tick (l : list (ScribePage.Event * ScribePage.State))
  : option JS.number :=
  match l with
  | [] => None
  | (ScribePage.Tick now, _) :: _ => Some now
  | _ :: rest => first_tick rest
  end.

(** The first tick after the previous measurement. *)
Definition tick_after_measurement (st : ScribePage.State)
  (evs : list ScribePage.Event) : option JS.number :=
  first_tick (after_last isMeasurement (history st evs)).

(** The first tick after the previous reset of the segment start. *)
Definition tick_after_reset (st : ScribePage.State)
  (evs : list ScribePage.Event) : option JS.number :=
  first_tick (after_last isReset (history st evs)).

(** *** Exact arithmetic *)

(** The rational number a finite value denotes, [(-1)^s * m * 2^e]; the
    zeros denote 0. *)
Definition valueOf (x : spec_float) : Q :=
  match x with
  | S754_finite s m e => inject_Z (cond_Zopp s (Zpos m)) * 2 ^ e
  | _ => 0
  end.

(** The integer part of a rational, rounding towards zero. *)
Definition Qtrunc (x : Q) : Z :=
  if Qle_bool 0 x then Qfloor x else Qceiling x.

(** [clamp (x, lo, hi)]. *)
Definition Qclamp (lo hi x : Q) : Q := Qmax lo (Qmin hi x).

(** [clamp (x, -1, 1)] for a sample [x]: an infinite sample is clamped to
    [-1] or [1]; NaN has no clamped value. *)
Definition clamped (f : spec_float) : option Q :=
  match f with
  | S754_nan => None
  | S754_infinity s => Some (if s then - (1) else 1)
  | _ => Some (Qclamp (- (1)) 1 (valueOf f))
  end.

(** The truncation of [clamp (x, -1, 1) * 0x7fff], in exact arithmetic;
    NaN is stored as 0. *)
Definition pcm16_exact (f : spec_float) : Z :=
  match clamped f with
  | Some c => Qtrunc (c * 32767)
  | None => 0%Z
  end.

(** A number other than NaN and the infinities. *)
Definition isFinite (x : spec_float) : Prop :=
  match x with
  | S754_nan | S754_infinity _ => False
  | _ => True
  end.

(** The arithmetic mean of the values of a list of numbers. *)
Definition exact_mean (l : list JS.number) : Q :=
  fold_right (fun x acc => valueOf x + acc) 0 l
  / inject_Z (Z.of_nat (List.length l)).

(** [v] is an integer nearest to [q]. *)
Definition nearest_integer (q v : Q) : Prop :=
  (exists z : Z, v == inject_Z z) /\ Qabs (q - v) <= 1 # 2.

(** The integer nearest to [q], the larger one when two are equally
    near. *)
Definition round_half_up (q : Q) : Z := Qfloor (q + (1 # 2)).

End Spec.


(* ================================================================== *)
(** ** Notions for the properties of runs                              *)
(* ================================================================== *)

From Stdlib Require Import Sorted.

Module Trace.

(** The latencies recorded along a run of [page.tsx], oldest first. *)
Fixpoint recordedLatencies (st : ScribePage.State)
  (evs : list ScribePage.Event) : list JS.number :=
  match evs with
  | [] => []
  | ev :: rest =>
      match ScribePage.measuresFrom ev st with
      | Some start => [JS.sub (ScribePage.timeOf ev) start]
      | None => []
      end ++ recordedLatencies (ScribePage.handle ev st) rest
  end.

(** The number of ticks of the audio-chunk interval in a run. *)
Fixpoint countTicks (evs : list ScribePage.Event) : nat :=
  match evs with
  | [] => 0
  | ScribePage.Tick _ :: rest => S (countTicks rest)
  | _ :: rest => countTicks rest
  end.

(** 1 while a segment start is waiting to be measured from, else 0. *)
Definition waiting (st : ScribePage.State) : nat :=
  match ScribePage.segmentStartMsRef st with
  | Some _ => 1
  | None => 0
  end.

(** Start sound, end sound, start sound, ...: [n] sounds in all. *)
Fixpoint startEnd (n : nat) : list WsControl.Sound :=
  match n with
  | O => []
  | S k => WsControl.startSound :: endStart k
  end
with endStart (n : nat) : list WsControl.Sound :=
  match n with
  | O => []
  | S k => WsControl.endSound :: startEnd k
  end.

(** The pending timers that will show an error message. *)
Definition pendingErrors (p : ScribeControl.Page)
  : list (ScribeControl.TimerId * ScribeControl.TimerAction) :=
  filter (fun t => match snd t with
                   | ScribeControl.ShowError _ => true
                   | _ => false
                   end)
         (ScribeControl.timers p).

(** The timers of the page are well formed: their handles are distinct
    and older than [nextTimer], and a pending error message belongs to
    the timer [errorTimeoutRef] holds. *)
Definition timersOk (p : ScribeControl.Page) : Prop :=
  NoDup (map fst (ScribeControl.timers p))
  /\ (forall t, In t (ScribeControl.timers p) ->
        (fst t < ScribeControl.nextTimer p)%positive)
  /\ (forall id msg,
        In (id, ScribeControl.ShowError msg) (ScribeControl.timers p) ->
        ScribeControl.errorTimeoutRef p = Some id).

(** A socket just created: [close ()] has not been called on it and its
    connection has not ended. *)
Definition newSocket (b : WsControl.Browser) (ws : WsTranscriber.WebSocket)
  : bool :=
  WsTranscriber.isOpen (WsControl.world b) ws
  && negb (existsb (Nat.eqb ws) (WsControl.endedSockets b)).

(** The audio callbacks of the session on socket [ws], one for each
    encoded chunk, in order. *)
Definition audio (ws : WsTranscriber.WebSocket) (chunks : list string)
  (b : WsControl.Browser) : WsControl.Browser :=
  fold_left (fun b base64 => WsControl.onaudioprocess ws base64 b) chunks b.

(** One push-to-talk session of the WebSocket transcriber from start to
    end: [startRecording] obtains the stream and the socket, the
    connection is established, the server starts the session, audio is
    captured, [stopRecording] runs, and the server answers with the
    final transcript. *)
Definition session (stream : WsTranscriber.MediaStream)
  (ws : WsTranscriber.WebSocket) (chunks : list string) (final : string)
  (b : WsControl.Browser) : WsControl.Browser :=
  WsControl.deliver ws
    (WsTranscriber.Message (WsTranscriber.final_transcript final))
    (WsControl.stopRecording
       (audio ws chunks
          (WsControl.deliver ws
             (WsTranscriber.Message WsTranscriber.session_started)
             (WsControl.onopen ws
                (WsControl.startRecording
                   (WsControl.Connecting stream ws) b))))).


(** The message shown for an error reported to [onError]. *)
Definition shownFor (error : option string) : string :=
  match error with
  | Some m => m
  | None => "Transcription error"%string
  end.

(** A toggle made while the hook reports neither a connection nor a
    connection attempt: a request to connect. *)
Definition asksToConnect (ev : ScribeControl.Event) : bool :=
  match ev with
  | ScribeControl.Toggle view =>
      negb (ScribeControl.isConnected view
            || String.eqb (ScribeControl.status view) "connecting")
  | _ => false
  end.

(** The calls that open a connection or announce one. *)
Definition connectsOrStarts (e : ScribeControl.Effect) : bool :=
  match e with
  | ScribeControl.scribe_connect _ _ => true
  | ScribeControl.playStart => true
  | _ => false
  end.

(** A call of [scribe.connect] is well formed when its token is not
    empty and its language code, if given, is not empty either. *)
Definition wellFormedCall (e : ScribeControl.Effect) : bool :=
  match e with
  | ScribeControl.scribe_connect token languageCode =>
      JS.truthy token
      && match languageCode with
         | Some l => JS.truthy l
         | None => true
         end
  | _ => true
  end.

(** The sample 1.0 as a binary32 value: full scale. *)
Definition fullScale : spec_float := S754_finite false 8388608 (-23).

(** A number that is not negative: a zero, a positive finite number or
    [+Infinity]. *)
Definition nonNegative (x : JS.number) : Prop :=
  match x with
  | S754_zero _ => True
  | S754_infinity s => s = false
  | S754_nan => False
  | S754_finite s _ _ => s = false
  end.

(** A value of the clock: a finite binary64 number. *)
Definition clockValue (x : JS.number) : Prop :=
  valid_binary 53 1024 x = true /\ Spec.isFinite x.

(** The clock never goes back along a run. *)
Definition monotoneClock (evs : list ScribePage.Event) : Prop :=
  Forall clockValue (map ScribePage.timeOf evs)
  /\ StronglySorted (fun a b => SFleb a b = true)
       (map ScribePage.timeOf evs).

End Trace.

(* ================================================================== *)
(** ** Sample inputs                                                   *)
(* ================================================================== *)

Module Samples.

Local Open Scope string_scope.

Definition ms (z : Z) : JS.number := JS.of_Z z.

Definition said (s : string) : ScribePage.TranscriptData :=
  {| ScribePage.text := Some s |}.

Definition silent : ScribePage.TranscriptData :=
  {| ScribePage.text := None |}.

(** A state of [page.tsx] in the middle of a segment. *)
Definition midSegment : ScribePage.State :=
  {| ScribePage.recording :=
       {| ScribePage.error := ""; ScribePage.latenciesMs := [ms 120] |};
     ScribePage.segmentStartMsRef := Some (ms 1000);
     ScribePage.lastTranscriptRef := "hello" |}.

(** A state of [page.tsx] whose latency window is full. *)
Definition fullWindow : ScribePage.State :=
  {| ScribePage.recording :=
       {| ScribePage.error := ""; ScribePage.latenciesMs := repeat (ms 7) 30 |};
     ScribePage.segmentStartMsRef := Some (ms 1000);
     ScribePage.lastTranscriptRef := "hel" |}.

(** A run in which a final transcript without text arrives between two
    measurements. *)
Definition emptyFinalRun : list ScribePage.Event :=
  [ ScribePage.Tick (ms 0);
    ScribePage.Partial (said "a") (ms 10);
    ScribePage.Tick (ms 100);
    ScribePage.Final silent (ms 150);
    ScribePage.Tick (ms 200) ].

Definition nextPartial : ScribePage.Event :=
  ScribePage.Partial (said "b") (ms 250).

(** A world of the WebSocket transcriber waiting for the final
    transcript on socket 1, after an earlier session on socket 0. *)
Definition processing : WsTranscriber.World :=
  {| WsTranscriber.recording :=
       {| WsTranscriber.isRecording := false;
          WsTranscriber.isProcessing := true;
          WsTranscriber.isConnecting := false;
          WsTranscriber.transcript := "";
          WsTranscriber.partialTranscript := "hello wor";
          WsTranscriber.error := "" |};
     WsTranscriber.websocketRef := Some 1%nat;
     WsTranscriber.streamRef := None;
     WsTranscriber.audioContextRef := None;
     WsTranscriber.processorRef := None;
     WsTranscriber.closedSockets := [0%nat];
     WsTranscriber.stoppedStreams := [0%nat];
     WsTranscriber.nextNode := 2%nat |}.

(** Cmd+K pressed while a text area has the focus. *)
Definition cmdK_in_textarea : DOM.KeyboardEvent :=
  {| DOM.key := "k"; DOM.altKey := true; DOM.metaKey := true;
     DOM.ctrlKey := false; DOM.target := DOM.HTMLElement "TEXTAREA" |}.

(** Latency samples whose running sum is not exact in binary64: adding 1
    to [2^54] gives [2^54] again. *)
Definition absorbed : ScribePage.RecordingState :=
  {| ScribePage.error := "";
     ScribePage.latenciesMs := [ms 18014398509481984; ms 1; ms 1; ms 1] |}.

(** The numbers written [0.1] and [2.9] in JavaScript: the binary64 values
    nearest to one tenth and to twenty-nine tenths. *)
Definition tenth : JS.number := S754_finite false 7205759403792794 (-56).
Definition twentyNineTenths : JS.number :=
  S754_finite false 6530219459687219 (-51).

Definition shortLatencies : ScribePage.RecordingState :=
  {| ScribePage.error := "";
     ScribePage.latenciesMs := [tenth; twentyNineTenths] |}.

(** Three ordinary latency samples. *)
Definition threeSamples : ScribePage.RecordingState :=
  {| ScribePage.error := "";
     ScribePage.latenciesMs := [ms 120; ms 95; ms 131] |}.

(** The binary32 values 0.5 and 0.75. *)
Definition half32 : spec_float := S754_finite false 8388608 (-24).
Definition threeQuarters32 : spec_float := S754_finite false 12582912 (-24).

End Samples.

(* ================================================================== *)
(** ** Sample scenarios                                                *)
(* ================================================================== *)

Module Scenarios.

Local Open Scope string_scope.

(** A run with three measurements. *)
Definition threeMeasurements : list ScribePage.Event :=
  [ ScribePage.Tick (Samples.ms 0);
    ScribePage.Partial (Samples.said "a") (Samples.ms 10);
    ScribePage.Tick (Samples.ms 100);
    ScribePage.Tick (Samples.ms 200);
    ScribePage.Partial (Samples.said "ab") (Samples.ms 250);
    ScribePage.Partial (Samples.said "ab") (Samples.ms 260);
    ScribePage.Tick (Samples.ms 300);
    ScribePage.Final (Samples.said "ab.") (Samples.ms 420) ].

(** The WebSocket transcriber while it records: stream 3, socket 7 (open),
    audio context 0 and processor 1. *)
Definition recordingWorld : WsTranscriber.World :=
  {| WsTranscriber.recording :=
       {| WsTranscriber.isRecording := true;
          WsTranscriber.isProcessing := false;
          WsTranscriber.isConnecting := false;
          WsTranscriber.transcript := "";
          WsTranscriber.partialTranscript := "hello wor";
          WsTranscriber.error := "" |};
     WsTranscriber.websocketRef := Some 7%nat;
     WsTranscriber.streamRef := Some 3%nat;
     WsTranscriber.audioContextRef := Some 0%nat;
     WsTranscriber.processorRef := Some 1%nat;
     WsTranscriber.closedSockets := [];
     WsTranscriber.stoppedStreams := [];
     WsTranscriber.nextNode := 2%nat |}.

Definition recordingBrowser : WsControl.Browser :=
  {| WsControl.world := recordingWorld;
     WsControl.openedSockets := [7%nat];
     WsControl.endedSockets := [];
     WsControl.sent := [];
     WsControl.disconnectedNodes := [];
     WsControl.closedContexts := [] |}.

(** The component before anything has happened. *)
Definition idleWorld : WsTranscriber.World :=
  {| WsTranscriber.recording :=
       {| WsTranscriber.isRecording := false;
          WsTranscriber.isProcessing := false;
          WsTranscriber.isConnecting := false;
          WsTranscriber.transcript := "";
          WsTranscriber.partialTranscript := "";
          WsTranscriber.error := "" |};
     WsTranscriber.websocketRef := None;
     WsTranscriber.streamRef := None;
     WsTranscriber.audioContextRef := None;
     WsTranscriber.processorRef := None;
     WsTranscriber.closedSockets := [];
     WsTranscriber.stoppedStreams := [];
     WsTranscriber.nextNode := 0%nat |}.

Definition idleBrowser : WsControl.Browser :=
  {| WsControl.world := idleWorld;
     WsControl.openedSockets := [];
     WsControl.endedSockets := [];
     WsControl.sent := [];
     WsControl.disconnectedNodes := [];
     WsControl.closedContexts := [] |}.

(** Alt pressed, and Alt released, on the body of the page. *)
Definition altDown : DOM.KeyboardEvent :=
  {| DOM.key := "Alt"; DOM.altKey := true; DOM.metaKey := false;
     DOM.ctrlKey := false; DOM.target := DOM.HTMLElement "BODY" |}.

Definition altUp : DOM.KeyboardEvent :=
  {| DOM.key := "Alt"; DOM.altKey := false; DOM.metaKey := false;
     DOM.ctrlKey := false; DOM.target := DOM.HTMLElement "BODY" |}.

(** What the hook reports while connected, and while disconnected. *)
Definition connectedView : ScribeControl.ScribeView :=
  {| ScribeControl.isConnected := true; ScribeControl.status := "connected" |}.

Definition disconnectedView : ScribeControl.ScribeView :=
  {| ScribeControl.isConnected := false;
     ScribeControl.status := "disconnected" |}.

Definition connectingView : ScribeControl.ScribeView :=
  {| ScribeControl.isConnected := false;
     ScribeControl.status := "connecting" |}.

(** An error has just been reported. *)
Definition errorReported : list ScribeControl.Event :=
  [ScribeControl.Error (Some "Connection lost")].

(** A token that lets the component connect. *)
Definition goodToken : ScribeControl.TokenOutcome :=
  ScribeControl.TokenResolves
    {| ScribeControl.token := Some "tok_123";
       ScribeControl.tokenError := None |}.

(** The user asks to connect, the token arrives, and the user asks to
    disconnect while the connection is being established. *)
Definition cancelledWhileConnecting : list ScribeControl.Event :=
  [ ScribeControl.Toggle disconnectedView;
    ScribeControl.TokenArrives goodToken;
    ScribeControl.Toggle connectingView ].

(** What may still arrive after that: the connection resolves, and the
    timers fire. *)
Definition lateArrivals : list ScribeControl.Event :=
  [ ScribeControl.ConnectSettles None;
    ScribeControl.Fire 1%positive true;
    ScribeControl.Fire 2%positive true ].

End Scenarios.

(* ================================================================== *)
(** ** Properties of the JavaScript built-ins                          *)
(* ================================================================== *)

Lemma slice_from_last (A : Type) (n : nat) (l : list A) :
  (0 < n)%nat ->
  JS.slice_from (- Z.of_nat n) l = Spec.last_entries n l.
Proof.
  intros Hn. unfold JS.slice_from, Spec.last_entries.
  replace (- Z.of_nat n <? 0)%Z with true by (symmetry; apply Z.ltb_lt; lia).
  f_equal. lia.
Qed.

Lemma last_entries_length (A : Type) (n : nat) (l : list A) :
  (List.length (Spec.last_entries n l) <= n)%nat.
Proof. unfold Spec.last_entries. rewrite length_skipn. lia. Qed.

Lemma string_app_assoc (a b c : string) :
  ((a ++ b) ++ c = a ++ (b ++ c))%string.
Proof. induction a as [|ch a IH]; simpl; [reflexivity | now rewrite IH]. Qed.

Lemma string_app_nil_r (a : string) : (a ++ "" = a)%string.
Proof. induction a as [|ch a IH]; simpl; [reflexivity | now rewrite IH]. Qed.

Lemma join_snoc (sep : string) (l : list string) (x : string) :
  JS.join sep (l ++ [x]) =
  match l with
  | [] => x
  | _ :: _ => (JS.join sep l ++ sep ++ x)%string
  end.
Proof.
  induction l as [|a l IH]; [reflexivity|].
  destruct l as [|b l].
  - reflexivity.
  - change (JS.join sep ((a :: b :: l) ++ [x]))
      with (a ++ sep ++ JS.join sep ((b :: l) ++ [x]))%string.
    rewrite IH.
    change (JS.join sep (a :: b :: l))
      with (a ++ sep ++ JS.join sep (b :: l))%string.
    rewrite !string_app_assoc. reflexivity.
Qed.

(* ================================================================== *)
(** ** Powers of two, shifts and bit lengths                           *)
(* ================================================================== *)

Local Open Scope Z_scope.

Lemma pow2_split (a b : Z) : 0 <= a -> 0 <= b -> 2 ^ (a + b) = 2 ^ a * 2 ^ b.
Proof. intros. apply Z.pow_add_r; assumption. Qed.

Lemma pow2_pos (a : Z) : 0 <= a -> 0 < 2 ^ a.
Proof. intros. apply Z.pow_pos_nonneg; lia. Qed.

(** [Pos.shiftl a n] is [a * 2^n]; it has [n] more bits than [a]. *)

Lemma Zpos_shiftl (a : positive) (n : N) :
  Zpos (Pos.shiftl a n) = Zpos a * 2 ^ Z.of_N n.
Proof.
  destruct n as [|d]; simpl Pos.shiftl.
  - simpl. lia.
  - induction d as [|d IH] using Pos.peano_ind.
    + simpl. lia.
    + rewrite Pos.iter_succ.
      change (Zpos (Pos.iter xO a d)~0) with (2 * Zpos (Pos.iter xO a d)).
      rewrite IH.
      replace (Z.of_N (N.pos (Pos.succ d))) with (Z.succ (Z.of_N (N.pos d)))
        by (simpl; lia).
      rewrite Z.pow_succ_r by (simpl; lia). lia.
Qed.

Lemma digits2_pos_shiftl (q : positive) (n : N) :
  Zpos (digits2_pos (Pos.shiftl q n)) = (Zpos (digits2_pos q) + Z.of_N n)%Z.
Proof.
  destruct n as [|d]; simpl; [lia|].
  induction d as [|d IH] using Pos.peano_ind.
  - simpl. lia.
  - rewrite Pos.iter_succ. simpl. lia.
Qed.

(** A positive number of [d] bits lies in [2^(d-1) .. 2^d - 1]. *)

Lemma digits2_bounds (p : positive) :
  2 ^ (Zpos (digits2_pos p) - 1) <= Zpos p < 2 ^ Zpos (digits2_pos p).
Proof.
  induction p as [p IH | p IH |]; simpl digits2_pos.
  - rewrite Pos2Z.inj_succ, Z.pow_succ_r by lia.
    replace (Z.succ (Zpos (digits2_pos p)) - 1) with (Z.succ (Zpos (digits2_pos p) - 1)) by lia.
    rewrite Z.pow_succ_r by lia. lia.
  - rewrite Pos2Z.inj_succ, Z.pow_succ_r by lia.
    replace (Z.succ (Zpos (digits2_pos p)) - 1) with (Z.succ (Zpos (digits2_pos p) - 1)) by lia.
    rewrite Z.pow_succ_r by lia. lia.
  - simpl. lia.
Qed.

Lemma digits2_le (a b : positive) :
  Zpos a <= Zpos b -> Zpos (digits2_pos a) <= Zpos (digits2_pos b).
Proof.
  intros H.
  destruct (Z_le_gt_dec (Zpos (digits2_pos a)) (Zpos (digits2_pos b))) as [|G];
    [assumption|exfalso].
  pose proof (digits2_bounds a) as [Ha _].
  pose proof (digits2_bounds b) as [_ Hb].
  assert (2 ^ Zpos (digits2_pos b) <= 2 ^ (Zpos (digits2_pos a) - 1))
    by (apply Z.pow_le_mono_r; lia).
  lia.
Qed.

Lemma digits2_lt_pow (a : positive) (k : Z) :
  0 <= k -> Zpos a < 2 ^ k -> Zpos (digits2_pos a) <= k.
Proof.
  intros Hk H.
  destruct (Z_le_gt_dec (Zpos (digits2_pos a)) k) as [|G]; [assumption|exfalso].
  pose proof (digits2_bounds a) as [Ha _].
  assert (2 ^ k <= 2 ^ (Zpos (digits2_pos a) - 1))
    by (apply Z.pow_le_mono_r; lia).
  lia.
Qed.

(** [Z.shiftl a e] is [a * 2^e] rounded down, for either sign of [e]. *)

Lemma shiftl_nonneg_exp (a e : Z) : 0 <= e -> Z.shiftl a e = a * 2 ^ e.
Proof. intros. apply Z.shiftl_mul_pow2. assumption. Qed.

Lemma shiftl_neg_exp (a e : Z) : e <= 0 -> Z.shiftl a e = a / 2 ^ (- e).
Proof.
  intros. rewrite <- Z.shiftr_opp_r. apply Z.shiftr_div_pow2. lia.
Qed.

Lemma shiftl_mono (a b e : Z) : a <= b -> Z.shiftl a e <= Z.shiftl b e.
Proof.
  intros H. destruct (Z_le_gt_dec 0 e).
  - rewrite !shiftl_nonneg_exp by lia. pose proof (@pow2_pos e ltac:(lia)). nia.
  - rewrite !shiftl_neg_exp by lia. apply Z.div_le_mono; [apply pow2_pos; lia|lia].
Qed.

Lemma shiftl_shiftl_pos (a k e : Z) :
  0 <= k -> Z.shiftl (a * 2 ^ k) (e - k) = Z.shiftl a e.
Proof.
  intros Hk. rewrite <- (Z.shiftl_mul_pow2 a k) by lia.
  rewrite Z.shiftl_shiftl by lia. f_equal. lia.
Qed.

Lemma wrap16_small (z : Z) :
  -32768 <= z < 32768 ->
  (if 32768 <=? z mod 65536 then z mod 65536 - 65536 else z mod 65536) = z.
Proof.
  intros Hz. destruct (Z.leb_spec 32768 (z mod 65536)) as [H|H];
    Z.div_mod_to_equations; lia.
Qed.

(* ================================================================== *)
(** ** Exact cases of IEEE-754 rounding                                *)
(* ================================================================== *)

(** [SpecFloat] shifts a mantissa right with its own iterator. *)

Lemma iter_pos_iter (A : Type) (f : A -> A) (n : positive) :
  forall x : A, SpecFloat.iter_pos f n x = Pos.iter f x n.
Proof.
  induction n as [n IH | n IH |]; intros x; simpl.
  - rewrite !IH. rewrite <- !Pos.iter_swap. reflexivity.
  - rewrite !IH. reflexivity.
  - reflexivity.
Qed.

(** Shifting out [d] zero bits loses nothing. *)

Lemma shr_1_shiftl (q d : positive) :
  Pos.iter shr_1 (Build_shr_record (Zpos (Pos.iter xO q d)) false false) d
  = Build_shr_record (Zpos q) false false.
Proof.
  induction d as [|d IH] using Pos.peano_ind.
  - reflexivity.
  - rewrite Pos.iter_succ_r, Pos.iter_succ. simpl. exact IH.
Qed.

Section RoundExact.

Variables prec emax : Z.

Lemma shr_fexp_canonical (q : positive) (e : Z) :
  canonical_mantissa prec emax q e = true ->
  shr_fexp prec emax (Zpos q) e loc_Exact
  = (Build_shr_record (Zpos q) false false, e).
Proof.
  unfold canonical_mantissa, shr_fexp. intros H.
  apply Z.eqb_eq in H. simpl Zdigits2. rewrite H, Z.sub_diag. reflexivity.
Qed.

(** Rounding is exact on a mantissa that is a canonical mantissa followed
    by zero bits. *)

Lemma binary_round_aux_shiftl (s : bool) (q : positive) (e : Z) (n : N) :
  bounded prec emax q e = true ->
  binary_round_aux prec emax s (Zpos (Pos.shiftl q n)) (e - Z.of_N n) loc_Exact
  = S754_finite s q e.
Proof.
  intros Hb. unfold bounded in Hb. apply andb_prop in Hb. destruct Hb as [Hc Hle].
  unfold binary_round_aux.
  assert (H1 : shr_fexp prec emax (Zpos (Pos.shiftl q n)) (e - Z.of_N n) loc_Exact
               = (Build_shr_record (Zpos q) false false, e)).
  { destruct n as [|d].
    - simpl. rewrite Z.sub_0_r. apply shr_fexp_canonical, Hc.
    - unfold shr_fexp.
      change (Zdigits2 (Zpos (Pos.shiftl q (Npos d))))
        with (Zpos (digits2_pos (Pos.shiftl q (Npos d)))).
      rewrite (digits2_pos_shiftl q (Npos d)).
      replace (Zpos (digits2_pos q) + Z.of_N (Npos d) + (e - Z.of_N (Npos d)))%Z
        with (Zpos (digits2_pos q) + e)%Z by lia.
      unfold canonical_mantissa in Hc. apply Z.eqb_eq in Hc. rewrite Hc.
      replace (e - (e - Z.of_N (Npos d)))%Z with (Zpos d) by (simpl; lia).
      unfold shr. rewrite iter_pos_iter. simpl Pos.shiftl. simpl shr_record_of_loc.
      rewrite shr_1_shiftl. f_equal. simpl. lia. }
  rewrite H1. simpl shr_m. simpl loc_of_shr_record. simpl round_nearest_even.
  rewrite (shr_fexp_canonical _ _ Hc). simpl shr_m. rewrite Hle. reflexivity.
Qed.

(** [binary_round] only normalises a mantissa that is short enough. *)

Lemma binary_round_exact (s : bool) (m : positive) (e : Z) :
  let ez := fexp prec emax (Zpos (digits2_pos m) + e) in
  ez <= e ->
  ez <= emax - prec ->
  binary_round prec emax s m e
  = S754_finite s (Pos.shiftl m (Z.to_N (e - ez))) ez.
Proof.
  intros ez Hle Hmax. unfold binary_round, shl_align. fold ez.
  assert (Hb : bounded prec emax (Pos.shiftl m (Z.to_N (e - ez))) ez = true).
  { unfold bounded, canonical_mantissa.
    rewrite digits2_pos_shiftl, Z2N.id by lia.
    replace (Zpos (digits2_pos m) + (e - ez) + ez) with (Zpos (digits2_pos m) + e) by lia.
    fold ez. rewrite Z.eqb_refl. simpl. apply Z.leb_le. exact Hmax. }
  destruct (ez - e) as [|d|d] eqn:Hd; try lia.
  - replace (e - ez) with 0 in * by lia. simpl Z.to_N in *. simpl Pos.shiftl in *.
    replace e with ez in * by lia.
    pose proof (@binary_round_aux_shiftl s m ez 0%N Hb) as H.
    simpl in H. rewrite Z.sub_0_r in H. exact H.
  - replace (e - ez) with (Zpos d) in * by lia. simpl Z.to_N in *.
    simpl Pos.shiftl in *.
    pose proof (@binary_round_aux_shiftl s _ ez 0%N Hb) as H.
    simpl in H. rewrite Z.sub_0_r in H. exact H.
Qed.

(** A product whose mantissa is a canonical mantissa followed by zero
    bits is exact. *)

Lemma SFmul_exact (sx sy : bool) (mx my q : positive) (ex ey e : Z) (n : N) :
  (mx * my)%positive = Pos.shiftl q n ->
  ex + ey = e - Z.of_N n ->
  bounded prec emax q e = true ->
  SFmul prec emax (S754_finite sx mx ex) (S754_finite sy my ey)
  = S754_finite (xorb sx sy) q e.
Proof.
  intros Hm He Hb. unfold SFmul. rewrite Hm, He.
  apply binary_round_aux_shiftl. exact Hb.
Qed.

End RoundExact.

(* ================================================================== *)
(** ** Float32 samples                                                 *)
(* ================================================================== *)

(** The mantissa and the exponent of a binary32 value. *)

Lemma float32_bounds (m : positive) (e : Z) :
  bounded 24 128 m e = true ->
  Zpos (digits2_pos m) <= 24 /\ -149 <= e <= 104.
Proof.
  unfold bounded, canonical_mantissa, fexp, emin. intros H.
  apply andb_prop in H. destruct H as [Hc Hle].
  apply Z.eqb_eq in Hc. apply Z.leb_le in Hle. lia.
Qed.

(** Reading a [Float32Array] element normalises its mantissa to 53 bits. *)

Lemma Float32Array_get_finite (s : bool) (m : positive) (e : Z) :
  bounded 24 128 m e = true ->
  JS.Float32Array_get (S754_finite s m e)
  = S754_finite s (Pos.shiftl m (Z.to_N (53 - Zpos (digits2_pos m))))
      (e + Zpos (digits2_pos m) - 53).
Proof.
  intros Hb. destruct (float32_bounds _ _ Hb) as [Hd He].
  unfold JS.Float32Array_get, JS.prec, JS.emax.
  assert (Hz : fexp 53 1024 (Zpos (digits2_pos m) + e) = e + Zpos (digits2_pos m) - 53).
  { unfold fexp, emin. lia. }
  rewrite binary_round_exact; rewrite Hz; try lia.
  do 2 f_equal. lia.
Qed.

Lemma ToInt16_small (x : JS.number) :
  -32768 <= JS.truncate x < 32768 -> JS.ToInt16 x = JS.truncate x.
Proof. intros H. unfold JS.ToInt16. cbv zeta. apply wrap16_small, H. Qed.

(** [Math.max (-1, Math.min (1, x))] on a normalised number: [x] itself
    when its magnitude is below 1, and 1 with the sign of [x] otherwise. *)

Lemma clamp_finite (s : bool) (M : positive) (E : Z) :
  Zpos (digits2_pos M) = 53 ->
  JS.Math_max (JS.of_Z (-1)) (JS.Math_min (JS.of_Z 1) (S754_finite s M E))
  = if E <? -52 then S754_finite s M E else S754_finite s JS.one_mantissa (-52).
Proof.
  intros Hd.
  change (JS.of_Z 1) with (S754_finite false JS.one_mantissa (-52)).
  change (JS.of_Z (-1)) with (S754_finite true JS.one_mantissa (-52)).
  pose proof (digits2_bounds M) as [HM _]. rewrite Hd in HM.
  change (2 ^ (53 - 1)) with (Zpos JS.one_mantissa) in HM.
  assert (Hcmp : Pos.compare_cont Eq JS.one_mantissa M = Lt
                 \/ (Pos.compare_cont Eq JS.one_mantissa M = Eq /\ M = JS.one_mantissa)).
  { change (Pos.compare_cont Eq JS.one_mantissa M)
      with (Z.compare (Zpos JS.one_mantissa) (Zpos M)).
    destruct (Z.compare_spec (Zpos JS.one_mantissa) (Zpos M)) as [H|H|H].
    - right. split; [reflexivity | symmetry; apply Pos2Z.inj, H].
    - left. reflexivity.
    - exfalso. apply (Z.lt_irrefl (Zpos M)). eapply Z.lt_le_trans; eassumption. }
  unfold JS.Math_max, JS.Math_min, SFcompare.
  destruct (Z.ltb_spec E (-52)) as [HE|HE].
  - (* |x| < 1 *)
    destruct s.
    + destruct (Z.compare_spec (-52) E) as [H|H|H]; try lia. reflexivity.
    + destruct (Z.compare_spec (-52) E) as [H|H|H]; try lia. reflexivity.
  - destruct s.
    + destruct (Z.compare_spec (-52) E) as [H|H|H]; try lia.
      * subst E. destruct Hcmp as [Hc | [Hc ->]].
        -- rewrite Hc. reflexivity.
        -- reflexivity.
      * reflexivity.
    + destruct (Z.compare_spec (-52) E) as [H|H|H]; try lia.
      * subst E. destruct Hcmp as [Hc | [Hc ->]].
        -- rewrite Hc. reflexivity.
        -- reflexivity.
      * reflexivity.
Qed.

(** The mantissa [m] scaled by [0x7fff] has at most 15 bits more. *)

Lemma digits2_scaled (m : positive) :
  Zpos (digits2_pos m) <= Zpos (digits2_pos (m * 32767))
  <= Zpos (digits2_pos m) + 15.
Proof.
  pose proof (digits2_bounds m) as [_ Hm].
  split.
  - apply digits2_le. rewrite Pos2Z.inj_mul.
    change (Zpos 32767) with 32767. lia.
  - apply digits2_lt_pow; [lia|].
    rewrite Pos2Z.inj_mul, pow2_split by lia.
    change (Zpos 32767) with 32767. change (2 ^ 15) with 32768. lia.
Qed.

(** The product by [0x7fff] is exact: a binary32 mantissa has 24 bits,
    [0x7fff] has 15, and the product fits the 53 bits of a number. *)

Lemma mul_scale (s : bool) (m : positive) (e : Z) :
  bounded 24 128 m e = true ->
  let dm := Zpos (digits2_pos m) in
  let dP := Zpos (digits2_pos (m * 32767)) in
  JS.mul (S754_finite s (Pos.shiftl m (Z.to_N (53 - dm))) (e + dm - 53))
         (JS.of_Z 32767)
  = S754_finite s (Pos.shiftl (m * 32767) (Z.to_N (53 - dP))) (e + dP - 53).
Proof.
  intros Hb dm dP.
  destruct (float32_bounds _ _ Hb) as [Hd He]. fold dm in Hd.
  pose proof (digits2_scaled m) as HdP. fold dm dP in HdP.
  assert (0 < dm) by (unfold dm; lia).
  change (JS.of_Z 32767) with (S754_finite false (Pos.shiftl 32767 38) (-38)).
  unfold JS.mul, JS.prec, JS.emax.
  rewrite (SFmul_exact 53 1024 s false _ _ (Pos.shiftl (m * 32767) (Z.to_N (53 - dP)))
             _ _ (e + dP - 53) (Z.to_N (38 - dm + dP))).
  - rewrite xorb_false_r. reflexivity.
  - apply Pos2Z.inj. rewrite Pos2Z.inj_mul, !Zpos_shiftl, Pos2Z.inj_mul.
    rewrite !Z2N.id by lia. change (Z.of_N 38) with 38.
    change (Zpos 32767) with 32767.
    replace (38 - dm + dP) with ((53 - dm) + 38 - (53 - dP)) by lia.
    assert (E1 : 2 ^ (53 - dm) * 2 ^ 38 = 2 ^ (53 - dP) * 2 ^ (53 - dm + 38 - (53 - dP))).
    { rewrite <- !pow2_split by lia. f_equal. lia. }
    set (A := 2 ^ (53 - dm)) in *. set (B := 2 ^ 38) in *.
    set (C := 2 ^ (53 - dP)) in *. set (D := 2 ^ (53 - dm + 38 - (53 - dP))) in *.
    transitivity (Zpos m * 32767 * (A * B)); [ring|]. rewrite E1. ring.
  - rewrite Z2N.id by lia. lia.
  - unfold bounded, canonical_mantissa.
    rewrite digits2_pos_shiftl, Z2N.id by lia. fold dP.
    unfold fexp, emin.
    apply andb_true_intro. split; [apply Z.eqb_eq | apply Z.leb_le]; lia.
Qed.

(** The scaled magnitude of a sample below 1 is below 32767 and that of a
    sample of at least 1 is at least 32767. *)

Lemma scaled_nonneg (m : positive) (e : Z) : 0 <= Z.shiftl (Zpos m * 32767) e.
Proof. apply Z.shiftl_nonneg. lia. Qed.

Lemma scaled_small (m : positive) (e : Z) :
  e + Zpos (digits2_pos m) <= 0 ->
  0 <= Z.shiftl (Zpos m * 32767) e < 32767.
Proof.
  intros H. pose proof (digits2_bounds m) as [_ Hm].
  assert (0 < Zpos (digits2_pos m)) by lia.
  rewrite shiftl_neg_exp by lia.
  assert (Hp : 2 ^ Zpos (digits2_pos m) <= 2 ^ (- e))
    by (apply Z.pow_le_mono_r; lia).
  pose proof (@pow2_pos (- e) ltac:(lia)).
  split.
  - apply Z.div_pos; lia.
  - apply Z.div_lt_upper_bound; [lia|]. nia.
Qed.

Lemma scaled_large (m : positive) (e : Z) :
  1 <= e + Zpos (digits2_pos m) ->
  32767 <= Z.shiftl (Zpos m * 32767) e.
Proof.
  intros H. pose proof (digits2_bounds m) as [Hm _].
  destruct (Z_le_gt_dec 0 e).
  - rewrite shiftl_nonneg_exp by lia. pose proof (@pow2_pos e ltac:(lia)). nia.
  - rewrite shiftl_neg_exp by lia.
    assert (Hp : 2 ^ (- e) <= 2 ^ (Zpos (digits2_pos m) - 1))
      by (apply Z.pow_le_mono_r; lia).
    pose proof (@pow2_pos (- e) ltac:(lia)).
    apply Z.div_le_lower_bound; [lia|]. nia.
Qed.

(** The value stored for a finite sample. *)

Lemma toPCM16_finite (s : bool) (m : positive) (e : Z) :
  bounded 24 128 m e = true ->
  WsTranscriber.toPCM16 (JS.Float32Array_get (S754_finite s m e))
  = cond_Zopp s (Z.min 32767 (Z.shiftl (Zpos m * 32767) e)).
Proof.
  intros Hb. destruct (float32_bounds _ _ Hb) as [Hd He].
  pose proof (digits2_scaled m) as HdP.
  rewrite (Float32Array_get_finite s _ _ Hb).
  unfold WsTranscriber.toPCM16.
  rewrite clamp_finite by (rewrite digits2_pos_shiftl, Z2N.id; lia).
  destruct (Z.ltb_spec (e + Zpos (digits2_pos m) - 53) (-52)) as [HE|HE].
  - rewrite (mul_scale s _ _ Hb).
    pose proof (@scaled_small m e ltac:(lia)) as Hs.
    assert (Ht : JS.truncate
                   (S754_finite s
                      (Pos.shiftl (m * 32767)
                         (Z.to_N (53 - Zpos (digits2_pos (m * 32767)))))
                      (e + Zpos (digits2_pos (m * 32767)) - 53))
                 = cond_Zopp s (Z.shiftl (Zpos m * 32767) e)).
    { unfold JS.truncate. f_equal.
      rewrite Zpos_shiftl, Z2N.id, Pos2Z.inj_mul by lia.
      change (Zpos 32767) with 32767.
      replace (e + Zpos (digits2_pos (m * 32767)) - 53)
        with (e - (53 - Zpos (digits2_pos (m * 32767)))) by lia.
      apply shiftl_shiftl_pos. lia. }
    rewrite ToInt16_small; rewrite Ht.
    + rewrite Z.min_r by lia. reflexivity.
    + destruct s; unfold cond_Zopp; lia.
  - pose proof (@scaled_large m e ltac:(lia)) as Hs.
    rewrite Z.min_l by lia.
    destruct s; reflexivity.
Qed.

(* ================================================================== *)
(** ** Floating point against exact arithmetic                         *)
(* ================================================================== *)

Lemma Qpow2_nonneg (e : Z) : 0 <= e -> (2 ^ e == inject_Z (2 ^ e))%Q.
Proof. intros H. symmetry. apply (Zpower_Qpower 2 e H). Qed.

Lemma Qpow2_neg (e : Z) : e <= 0 -> (2 ^ e == / inject_Z (2 ^ (- e)))%Q.
Proof.
  intros H. replace e with (- - e) at 1 by lia.
  rewrite Qpower_opp. rewrite (Qpow2_nonneg (e := - e)) by lia. reflexivity.
Qed.

Lemma valueOf_shiftl (s : bool) (m : positive) (e j : Z) :
  0 <= j ->
  (Spec.valueOf (S754_finite s (Pos.shiftl m (Z.to_N j)) (e - j))
   == Spec.valueOf (S754_finite s m e))%Q.
Proof.
  intros Hj. unfold Spec.valueOf.
  assert (Hm : inject_Z (cond_Zopp s (Zpos (Pos.shiftl m (Z.to_N j))))
               = inject_Z (cond_Zopp s (Zpos m) * 2 ^ j)).
  { f_equal. rewrite Zpos_shiftl, Z2N.id by lia.
    destruct s; unfold cond_Zopp; lia. }
  rewrite Hm, inject_Z_mult.
  unfold Z.sub. rewrite Qpower_plus by discriminate.
  rewrite Qpower_opp, (@Qpow2_nonneg j Hj).
  field. intros H0. pose proof (@pow2_pos j Hj).
  unfold Qeq in H0. simpl in H0. lia.
Qed.

(** Reading a [Float32Array] element does not change its value. *)

Lemma Float32Array_get_value (f : spec_float) :
  JS.isFloat32 f = true ->
  (Spec.valueOf (JS.Float32Array_get f) == Spec.valueOf f)%Q.
Proof.
  intros Hf. destruct f as [s | s | | s m e]; try reflexivity.
  destruct (float32_bounds _ _ Hf) as [Hd He].
  rewrite (Float32Array_get_finite s _ _ Hf).
  replace (e + Zpos (digits2_pos m) - 53)
    with (e - (53 - Zpos (digits2_pos m))) by lia.
  apply valueOf_shiftl. lia.
Qed.

(** The product of a sample by [0x7fff] has no rounding error. *)

Lemma mul_scale_value (s : bool) (m : positive) (e : Z) :
  bounded 24 128 m e = true ->
  (Spec.valueOf (JS.mul (JS.Float32Array_get (S754_finite s m e)) (JS.of_Z 32767))
   == Spec.valueOf (S754_finite s m e) * 32767)%Q.
Proof.
  intros Hb. destruct (float32_bounds _ _ Hb) as [Hd He].
  pose proof (digits2_scaled m) as HdP.
  rewrite (Float32Array_get_finite s _ _ Hb), (mul_scale s _ _ Hb).
  replace (e + Zpos (digits2_pos (m * 32767)) - 53)
    with (e - (53 - Zpos (digits2_pos (m * 32767)))) by lia.
  rewrite valueOf_shiftl by lia.
  unfold Spec.valueOf.
  assert (Hm : inject_Z (cond_Zopp s (Zpos (m * 32767)))
               = inject_Z (cond_Zopp s (Zpos m) * 32767)).
  { f_equal. rewrite Pos2Z.inj_mul. change (Zpos 32767) with 32767.
    destruct s; unfold cond_Zopp; lia. }
  rewrite Hm, inject_Z_mult. change (inject_Z 32767) with 32767%Q. ring.
Qed.

(** The magnitude scaled by 32767, rounded down. *)

Lemma Qfloor_scaled (a e : Z) :
  Qfloor (inject_Z a * 2 ^ e * 32767) = Z.shiftl (a * 32767) e.
Proof.
  destruct (Z_le_gt_dec 0 e) as [He|He].
  - rewrite shiftl_nonneg_exp by lia.
    rewrite <- (Qfloor_Z (a * 32767 * 2 ^ e)).
    apply Qfloor_comp. rewrite (Qpow2_nonneg He).
    rewrite !inject_Z_mult. change (inject_Z 32767) with 32767%Q. ring.
  - rewrite shiftl_neg_exp by lia.
    rewrite Zdiv_Qdiv. apply Qfloor_comp.
    rewrite (@Qpow2_neg e) by lia.
    rewrite inject_Z_mult. change (inject_Z 32767) with 32767%Q.
    unfold Qdiv. ring.
Qed.

Lemma Qtrunc_comp (x y : Q) : (x == y)%Q -> Spec.Qtrunc x = Spec.Qtrunc y.
Proof.
  intros H. unfold Spec.Qtrunc.
  assert (Hb : Qle_bool 0 x = Qle_bool 0 y).
  { apply eq_true_iff_eq. rewrite !Qle_bool_iff, H. reflexivity. }
  rewrite Hb. destruct (Qle_bool 0 y).
  - apply Qfloor_comp, H.
  - apply Qceiling_comp, H.
Qed.

Lemma Qtrunc_nonneg (x : Q) : (0 <= x)%Q -> Spec.Qtrunc x = Qfloor x.
Proof.
  intros H. unfold Spec.Qtrunc. apply Qle_bool_iff in H. rewrite H. reflexivity.
Qed.

Lemma Qtrunc_opp (x : Q) : (0 <= x)%Q -> Spec.Qtrunc (- x) = - Qfloor x.
Proof.
  intros H. unfold Spec.Qtrunc.
  destruct (Qle_bool 0 (- x)) eqn:E.
  - apply Qle_bool_iff in E.
    assert (Hx : (x == 0)%Q) by (apply Qle_antisym; [|exact H];
      rewrite <- (Qopp_involutive x); apply (Qopp_le_compat 0 (- x)), E).
    rewrite (Qfloor_comp _ _ Hx).
    assert (Hx' : (- x == 0)%Q) by (rewrite Hx; reflexivity).
    rewrite (Qfloor_comp _ _ Hx'). reflexivity.
  - unfold Qceiling. rewrite (Qfloor_comp (- - x) x (Qopp_involutive x)).
    reflexivity.
Qed.

Lemma Qfloor_min_scaled (v : Q) :
  (0 < v)%Q ->
  Qfloor (Qmin 1 v * 32767) = Z.min 32767 (Qfloor (v * 32767)).
Proof.
  intros Hv. destruct (Qlt_le_dec v 1) as [H|H].
  - assert (Hm : (Qmin 1 v == v)%Q) by (apply Q.min_r, Qlt_le_weak, H).
    rewrite (Qfloor_comp _ _ (Qmult_comp _ _ Hm _ _ (Qeq_refl 32767))).
    rewrite Z.min_r; [reflexivity|].
    change 32767 with (Qfloor 32767) at 2. apply Qfloor_resp_le.
    rewrite <- (Qmult_1_l 32767) at 2.
    apply Qmult_le_compat_r; [apply Qlt_le_weak, H | discriminate].
  - assert (Hm : (Qmin 1 v == 1)%Q) by (apply Q.min_l, H).
    rewrite (Qfloor_comp _ _ (Qmult_comp _ _ Hm _ _ (Qeq_refl 32767))).
    rewrite Z.min_l; [reflexivity|].
    change 32767 with (Qfloor (1 * 32767)) at 1. apply Qfloor_resp_le.
    apply Qmult_le_compat_r; [exact H | discriminate].
Qed.

Lemma Qclamp_comp (lo hi x y : Q) :
  (x == y)%Q -> (Spec.Qclamp lo hi x == Spec.Qclamp lo hi y)%Q.
Proof. intros H. unfold Spec.Qclamp. rewrite H. reflexivity. Qed.

Lemma Qclamp_pos (v : Q) : (0 < v)%Q -> (Spec.Qclamp (-1) 1 v == Qmin 1 v)%Q.
Proof.
  intros Hv. unfold Spec.Qclamp. apply Q.max_r.
  apply Q.min_glb; [discriminate|].
  apply Qle_trans with 0%Q; [discriminate | apply Qlt_le_weak, Hv].
Qed.

Lemma Qclamp_neg (v : Q) : (0 < v)%Q -> (Spec.Qclamp (-1) 1 (- v) == - Qmin 1 v)%Q.
Proof.
  intros Hv. unfold Spec.Qclamp.
  assert (Hneg : (- v <= 0)%Q).
  { apply (Qopp_le_compat 0 v), Qlt_le_weak, Hv. }
  assert (H1 : (Qmin 1 (- v) == - v)%Q).
  { apply Q.min_r. apply Qle_trans with 0%Q; [exact Hneg | discriminate]. }
  rewrite H1.
  destruct (Qlt_le_dec v 1) as [H|H].
  - rewrite (Q.min_r 1 v) by (apply Qlt_le_weak, H).
    apply Q.max_r. apply (Qopp_le_compat v 1), Qlt_le_weak, H.
  - rewrite (Q.min_l 1 v) by exact H.
    apply Q.max_l. apply (Qopp_le_compat 1 v), H.
Qed.

(** The truncation of [clamp (x, -1, 1) * 0x7fff] for a finite [x]. *)

Lemma pcm16_exact_finite (s : bool) (m : positive) (e : Z) :
  Spec.pcm16_exact (S754_finite s m e)
  = cond_Zopp s (Z.min 32767 (Z.shiftl (Zpos m * 32767) e)).
Proof.
  unfold Spec.pcm16_exact, Spec.clamped, Spec.valueOf.
  set (v := (inject_Z (Zpos m) * 2 ^ e)%Q).
  assert (Hv : (0 < v)%Q).
  { unfold v. apply Qmult_lt_0_compat; [reflexivity|].
    apply Qpower_0_lt. reflexivity. }
  assert (Hc : (0 <= Qmin 1 v * 32767)%Q).
  { apply Qmult_le_0_compat; [|discriminate].
    apply Q.min_glb; [discriminate | apply Qlt_le_weak, Hv]. }
  rewrite <- (Qfloor_scaled (Zpos m) e). fold v.
  rewrite <- (Qfloor_min_scaled Hv).
  destruct s; unfold cond_Zopp.
  - rewrite <- (Qtrunc_opp Hc). apply Qtrunc_comp.
    change (inject_Z (- Zpos m)) with (- inject_Z (Zpos m))%Q.
    assert (E : (- inject_Z (Zpos m) * 2 ^ e == - v)%Q) by (unfold v; ring).
    rewrite (Qclamp_comp (-1) 1 E), (Qclamp_neg Hv). ring.
  - rewrite <- (Qtrunc_nonneg Hc). apply Qtrunc_comp.
    fold v. rewrite (Qclamp_pos Hv). reflexivity.
Qed.

(** The conversion computes the exact value for every sample. *)

Lemma toPCM16_exact (f : spec_float) :
  JS.isFloat32 f = true ->
  WsTranscriber.toPCM16 (JS.Float32Array_get f) = Spec.pcm16_exact f.
Proof.
  intros Hf. destruct f as [s | s | | s m e].
  - destruct s; vm_compute; reflexivity.
  - destruct s; vm_compute; reflexivity.
  - vm_compute; reflexivity.
  - rewrite pcm16_exact_finite. apply toPCM16_finite. exact Hf.
Qed.

Lemma pcm16_exact_range (f : spec_float) : -32767 <= Spec.pcm16_exact f <= 32767.
Proof.
  destruct f as [s | s | | s m e].
  - destruct s; vm_compute; split; discriminate.
  - destruct s; vm_compute; split; discriminate.
  - vm_compute; split; discriminate.
  - rewrite pcm16_exact_finite. pose proof (scaled_nonneg m e).
    destruct s; unfold cond_Zopp; lia.
Qed.

(** The order of the magnitudes of two binary32 values, as [SFcompare]
    decides it, is the order of their scaled magnitudes. *)

Lemma scaled_mono (m1 m2 : positive) (e1 e2 : Z) :
  bounded 24 128 m1 e1 = true ->
  bounded 24 128 m2 e2 = true ->
  match Z.compare e1 e2 with
  | Lt => Lt
  | Gt => Gt
  | Eq => Pos.compare_cont Eq m1 m2
  end <> Gt ->
  Z.shiftl (Zpos m1 * 32767) e1 <= Z.shiftl (Zpos m2 * 32767) e2.
Proof.
  intros H1 H2 Hc.
  destruct (Z.compare_spec e1 e2) as [He|He|He].
  - subst e2. apply shiftl_mono.
    change (Pos.compare_cont Eq m1 m2) with (Z.compare (Zpos m1) (Zpos m2)) in Hc.
    change (Zpos m1 <= Zpos m2) in Hc. lia.
  - clear Hc.
    pose proof (digits2_bounds m1) as [_ Hm1].
    pose proof (digits2_bounds m2) as [Hm2 _].
    destruct (float32_bounds _ _ H1) as [Hd1 Hb1].
    assert (Hd2 : Zpos (digits2_pos m2) = 24).
    { unfold bounded, canonical_mantissa, fexp, emin in H2.
      apply andb_prop in H2. destruct H2 as [H2 _]. apply Z.eqb_eq in H2. lia. }
    rewrite Hd2 in Hm2. change (2 ^ (24 - 1)) with 8388608 in Hm2.
    assert (Hm1' : Zpos m1 < 16777216).
    { eapply Z.lt_le_trans; [exact Hm1|].
      change 16777216 with (2 ^ 24). apply Z.pow_le_mono_r; lia. }
    rewrite <- (@shiftl_shiftl_pos (Zpos m2 * 32767) (e2 - e1) e2) by lia.
    replace (e2 - (e2 - e1)) with e1 by lia.
    apply shiftl_mono.
    assert (Hp : 2 ^ 1 <= 2 ^ (e2 - e1)) by (apply Z.pow_le_mono_r; lia).
    change (2 ^ 1) with 2 in Hp. nia.
  - exfalso. apply Hc. reflexivity.
Qed.

Lemma pcm16_exact_mono (f g : spec_float) :
  JS.isFloat32 f = true ->
  JS.isFloat32 g = true ->
  SFleb f g = true ->
  Spec.pcm16_exact f <= Spec.pcm16_exact g.
Proof.
  intros Hf Hg Hle.
  pose proof (pcm16_exact_range f) as Rf.
  pose proof (pcm16_exact_range g) as Rg.
  unfold SFleb in Hle.
  destruct f as [sf | sf | | sf mf ef], g as [sg | sg | | sg mg eg];
    try discriminate Hle.
  - (* zero, zero *) destruct sf, sg; vm_compute; discriminate.
  - (* zero, infinity *) destruct sg; [discriminate Hle|].
    change (Spec.pcm16_exact (S754_infinity false)) with 32767. lia.
  - (* zero, finite *) destruct sg; [discriminate Hle|].
    rewrite (pcm16_exact_finite false mg eg).
    replace (Spec.pcm16_exact (S754_zero sf)) with 0 by (destruct sf; reflexivity).
    pose proof (scaled_nonneg mg eg). unfold cond_Zopp. lia.
  - (* infinity, zero *) destruct sf; [|discriminate Hle].
    change (Spec.pcm16_exact (S754_infinity true)) with (-32767). lia.
  - (* infinity, infinity *) destruct sf, sg; try discriminate Hle; vm_compute; discriminate.
  - (* infinity, finite *) destruct sf; [|discriminate Hle].
    change (Spec.pcm16_exact (S754_infinity true)) with (-32767). lia.
  - (* finite, zero *) destruct sf; [|discriminate Hle].
    rewrite (pcm16_exact_finite true mf ef).
    replace (Spec.pcm16_exact (S754_zero sg)) with 0 by (destruct sg; reflexivity).
    pose proof (scaled_nonneg mf ef). unfold cond_Zopp. lia.
  - (* finite, infinity *) destruct sg; [destruct sf; discriminate Hle|].
    change (Spec.pcm16_exact (S754_infinity false)) with 32767. lia.
  - (* finite, finite *)
    rewrite !pcm16_exact_finite.
    pose proof (scaled_nonneg mf ef). pose proof (scaled_nonneg mg eg).
    simpl in Hle.
    destruct sf, sg; unfold cond_Zopp; try discriminate Hle; try lia.
    + assert (Z.shiftl (Zpos mg * 32767) eg <= Z.shiftl (Zpos mf * 32767) ef).
      { apply scaled_mono; [exact Hg | exact Hf |].
        change (Pos.compare_cont Eq mf mg) with (Zpos mf ?= Zpos mg) in Hle.
        change (Pos.compare_cont Eq mg mf) with (Zpos mg ?= Zpos mf).
        rewrite (Z.compare_antisym ef eg).
        rewrite (Z.compare_antisym (Zpos mf) (Zpos mg)).
        revert Hle.
        destruct (ef ?= eg), (Zpos mf ?= Zpos mg); cbn [CompOpp];
          intros Hle; discriminate. }
      lia.
    + assert (Z.shiftl (Zpos mf * 32767) ef <= Z.shiftl (Zpos mg * 32767) eg).
      { apply scaled_mono; [exact Hf | exact Hg |].
        revert Hle.
        destruct (ef ?= eg), (Pos.compare_cont Eq mf mg);
          intros Hle; discriminate. }
      lia.
Qed.

(* ================================================================== *)
(** ** Rounded results are valid numbers                               *)
(* ================================================================== *)

(** Bit length of a non-negative integer. *)
Lemma Zdigits2_bounds (a : Z) :
  0 < a -> 2 ^ (Zdigits2 a - 1) <= a < 2 ^ Zdigits2 a.
Proof.
  intros Ha. destruct a as [|p|p]; try lia. apply digits2_bounds.
Qed.

Lemma Zdigits2_nonneg (a : Z) : 0 <= Zdigits2 a.
Proof. destruct a; simpl; lia. Qed.

Lemma Zdigits2_pos (a : Z) : 0 < a -> 0 < Zdigits2 a.
Proof. destruct a; simpl; lia. Qed.

Lemma Zdigits2_unique (a d : Z) :
  2 ^ (d - 1) <= a < 2 ^ d -> 0 < a -> 0 < d -> Zdigits2 a = d.
Proof.
  intros [Hl Hu] Ha Hd.
  pose proof (Zdigits2_bounds Ha) as [Hl' Hu'].
  pose proof (Zdigits2_pos Ha) as Hp.
  destruct (Z.lt_trichotomy (Zdigits2 a) d) as [H|[H|H]]; [exfalso| exact H |exfalso].
  - assert (2 ^ Zdigits2 a <= 2 ^ (d - 1)) by (apply Z.pow_le_mono_r; lia). lia.
  - assert (2 ^ d <= 2 ^ (Zdigits2 a - 1)) by (apply Z.pow_le_mono_r; lia). lia.
Qed.

(** Dropping [n] low bits. *)
Lemma Zdigits2_div_pow2 (a n : Z) :
  0 <= a -> 0 <= n ->
  Zdigits2 (a / 2 ^ n) = Z.max (Zdigits2 a - n) 0.
Proof.
  intros Ha Hn.
  pose proof (@pow2_pos n Hn) as Hp.
  destruct (Z.eq_dec a 0) as [->|Hnz].
  - rewrite Z.div_0_l by lia. simpl. lia.
  - assert (Ha' : 0 < a) by lia.
    pose proof (Zdigits2_bounds Ha') as [Hl Hu].
    pose proof (Zdigits2_pos Ha') as Hd.
    destruct (Z_le_gt_dec (Zdigits2 a) n) as [Hle|Hgt].
    + assert (2 ^ Zdigits2 a <= 2 ^ n) by (apply Z.pow_le_mono_r; lia).
      rewrite Z.div_small by lia. simpl. lia.
    + rewrite Z.max_l by lia.
      assert (Hs : 2 ^ (Zdigits2 a - 1) = 2 ^ (Zdigits2 a - n - 1) * 2 ^ n).
      { rewrite <- pow2_split by lia. f_equal. lia. }
      assert (Hs' : 2 ^ Zdigits2 a = 2 ^ (Zdigits2 a - n) * 2 ^ n).
      { rewrite <- pow2_split by lia. f_equal. lia. }
      apply Zdigits2_unique; try lia.
      * split.
        -- apply Z.div_le_lower_bound; lia.
        -- apply Z.div_lt_upper_bound; lia.
      * apply Z.div_str_pos. split; [lia|].
        assert (2 ^ n <= 2 ^ (Zdigits2 a - 1)) by (apply Z.pow_le_mono_r; lia).
        lia.
Qed.

Lemma Zdigits2_le (a b : Z) : 0 <= a <= b -> Zdigits2 a <= Zdigits2 b.
Proof.
  intros [Ha Hab]. destruct (Z.eq_dec a 0) as [->|Hnz].
  - apply Zdigits2_nonneg.
  - assert (Ha' : 0 < a) by lia. assert (Hb' : 0 < b) by lia.
    pose proof (Zdigits2_bounds Ha') as [Hl _].
    pose proof (Zdigits2_bounds Hb') as [_ Hu].
    destruct (Z_le_gt_dec (Zdigits2 a) (Zdigits2 b)) as [|G]; [assumption|exfalso].
    assert (2 ^ Zdigits2 b <= 2 ^ (Zdigits2 a - 1))
      by (apply Z.pow_le_mono_r; pose proof (Zdigits2_nonneg b); lia).
    lia.
Qed.

(** One step of the right shift halves the mantissa. *)
Lemma shr_1_m (r : shr_record) :
  0 <= shr_m r -> shr_m (shr_1 r) = shr_m r / 2.
Proof.
  destruct r as [m b c]. simpl. intros Hm.
  destruct m as [|p|p]; try lia.
  - reflexivity.
  - destruct p as [p|p|]; simpl shr_m.
    + rewrite Pos2Z.inj_xI. Z.div_mod_to_equations. lia.
    + rewrite Pos2Z.inj_xO. Z.div_mod_to_equations. lia.
    + reflexivity.
Qed.

Lemma iter_shr_1_m (p : positive) :
  forall r : shr_record,
    0 <= shr_m r ->
    shr_m (Pos.iter shr_1 r p) = shr_m r / 2 ^ Zpos p.
Proof.
  induction p as [|p IH] using Pos.peano_ind; intros r Hr.
  - simpl Pos.iter. rewrite shr_1_m by exact Hr. reflexivity.
  - rewrite Pos.iter_succ, shr_1_m.
    + rewrite IH by exact Hr.
      rewrite Pos2Z.inj_succ, Z.pow_succ_r by lia.
      rewrite Z.div_div by (try apply pow2_pos; lia).
      f_equal. lia.
    + rewrite IH by exact Hr. apply Z.div_pos; [exact Hr | apply pow2_pos; lia].
Qed.

(** [shr] drops [max n 0] bits. *)
Lemma shr_spec (r : shr_record) (e n : Z) :
  0 <= shr_m r ->
  shr_m (fst (shr r e n)) = shr_m r / 2 ^ Z.max n 0
  /\ snd (shr r e n) = e + Z.max n 0.
Proof.
  intros Hr. destruct n as [|p|p]; unfold shr; cbn [fst snd].
  - simpl. rewrite Z.div_1_r. lia.
  - rewrite iter_pos_iter, iter_shr_1_m by exact Hr.
    rewrite Z.max_l by lia. split; reflexivity.
  - simpl. rewrite Z.div_1_r. lia.
Qed.

Lemma shr_m_of_loc (m : Z) (l : location) : shr_m (shr_record_of_loc m l) = m.
Proof. destruct l as [|[| |]]; reflexivity. Qed.

Lemma round_nearest_even_bounds (m : Z) (l : location) :
  m <= round_nearest_even m l <= m + 1.
Proof.
  destruct l as [|[| |]]; simpl; try lia. destruct (Z.even m); lia.
Qed.

Lemma fexp_mono (x y : Z) : x <= y -> fexp 53 1024 x <= fexp 53 1024 y.
Proof. unfold fexp, emin. lia. Qed.

(** Rounding a mantissa that is long enough yields a valid number. *)
Lemma binary_round_aux_valid (s : bool) (mx ex : Z) (lx : location) :
  0 <= mx ->
  ex <= fexp 53 1024 (Zdigits2 mx + ex) ->
  valid_binary 53 1024 (binary_round_aux 53 1024 s mx ex lx) = true.
Proof.
  intros Hmx Hex. unfold binary_round_aux.
  set (e1 := fexp 53 1024 (Zdigits2 mx + ex)) in *.
  destruct (shr_fexp 53 1024 mx ex lx) as [r1 e1'] eqn:E1.
  assert (H1 : shr_m r1 = mx / 2 ^ (e1 - ex) /\ e1' = e1).
  { unfold shr_fexp in E1. fold e1 in E1.
    destruct (@shr_spec (shr_record_of_loc mx lx) ex (e1 - ex)) as [Ha Hb].
    - rewrite shr_m_of_loc. exact Hmx.
    - rewrite E1 in Ha, Hb. simpl in Ha, Hb.
      rewrite shr_m_of_loc, Z.max_l in Ha by lia. rewrite Z.max_l in Hb by lia.
      split; [exact Ha | lia]. }
  destruct H1 as [Hm1 ->].
  set (m1 := round_nearest_even (shr_m r1) (loc_of_shr_record r1)).
  assert (Hm' : 0 <= shr_m r1).
  { rewrite Hm1. apply Z.div_pos; [exact Hmx | apply pow2_pos; lia]. }
  pose proof (round_nearest_even_bounds (shr_m r1) (loc_of_shr_record r1)) as Hr.
  fold m1 in Hr.
  assert (Hd1 : e1 <= fexp 53 1024 (Zdigits2 m1 + e1)).
  { assert (Hd' : Zdigits2 mx - (e1 - ex) <= Zdigits2 (shr_m r1)).
    { rewrite Hm1, Zdigits2_div_pow2 by lia. lia. }
    assert (Zdigits2 (shr_m r1) <= Zdigits2 m1) by (apply Zdigits2_le; lia).
    unfold e1 at 1. apply fexp_mono. lia. }
  destruct (shr_fexp 53 1024 m1 e1 loc_Exact) as [r2 e2] eqn:E2.
  assert (H2 : shr_m r2 = m1 / 2 ^ (fexp 53 1024 (Zdigits2 m1 + e1) - e1)
               /\ e2 = fexp 53 1024 (Zdigits2 m1 + e1)).
  { unfold shr_fexp in E2.
    destruct (@shr_spec (shr_record_of_loc m1 loc_Exact) e1
                (fexp 53 1024 (Zdigits2 m1 + e1) - e1)) as [Ha Hb].
    - simpl. lia.
    - rewrite E2 in Ha, Hb. simpl in Ha, Hb.
      rewrite Z.max_l in Ha by lia. rewrite Z.max_l in Hb by lia.
      split; [exact Ha | lia]. }
  destruct H2 as [Hm2 He2].
  destruct (shr_m r2) as [|m|m] eqn:Em; [reflexivity | | reflexivity].
  destruct (Z.leb_spec e2 (1024 - 53)) as [Hle|Hgt]; [|reflexivity].
  simpl. unfold bounded, canonical_mantissa.
  apply andb_true_intro. split; [|apply Z.leb_le; exact Hle].
  apply Z.eqb_eq.
  assert (Hdm : Zpos (digits2_pos m)
                = Zdigits2 m1 - (fexp 53 1024 (Zdigits2 m1 + e1) - e1)).
  { change (Zpos (digits2_pos m)) with (Zdigits2 (Zpos m)).
    rewrite Hm2, Zdigits2_div_pow2 by lia.
    assert (0 < Zdigits2 (Zpos m)) by (simpl; lia).
    rewrite Hm2, Zdigits2_div_pow2 in H by lia. lia. }
  rewrite Hdm, He2. f_equal. lia.
Qed.

(** The quotient computed by the division has enough bits to be rounded
    to a valid number. *)
Lemma SFdiv_core_binary_digits (m1 m2 : positive) (e1 e2 : Z) :
  let '(q, e', _) := SFdiv_core_binary 53 1024 (Zpos m1) e1 (Zpos m2) e2 in
  0 <= q /\ e' <= fexp 53 1024 (Zdigits2 q + e').
Proof.
  unfold SFdiv_core_binary.
  set (d1 := Zdigits2 (Zpos m1)). set (d2 := Zdigits2 (Zpos m2)).
  set (X := d1 + e1 - (d2 + e2)).
  set (e' := Z.min (fexp 53 1024 X) (e1 - e2)).
  set (sh := e1 - e2 - e').
  assert (Hsh : 0 <= sh) by (unfold sh, e'; lia).
  set (m' := match sh with
             | 0 => Zpos m1
             | Zpos _ => Z.shiftl (Zpos m1) sh
             | Zneg _ => 0
             end).
  assert (Hm' : m' = Zpos m1 * 2 ^ sh).
  { unfold m'. destruct sh as [|p|p] eqn:Es; try lia.
    apply Z.shiftl_mul_pow2. lia. }
  clearbody m'.
  pose proof (Z_div_mod m' (Zpos m2) ltac:(lia)) as Hdm.
  destruct (Z.div_eucl m' (Zpos m2)) as [q r].
  destruct Hdm as [Hq Hr].
  pose proof (@pow2_pos sh Hsh) as Hp.
  assert (Hq0 : 0 <= q) by nia.
  split; [exact Hq0|].
  pose proof (@Zdigits2_bounds (Zpos m1) ltac:(lia)) as [Hl1 Hu1]. fold d1 in Hl1, Hu1.
  pose proof (@Zdigits2_bounds (Zpos m2) ltac:(lia)) as [Hl2 Hu2]. fold d2 in Hl2, Hu2.
  assert (Hd1 : 0 < d1) by (unfold d1; simpl; lia).
  assert (Hd2 : 0 < d2) by (unfold d2; simpl; lia).
  assert (Hlow : 2 ^ (d1 - 1 + sh) <= m').
  { rewrite Hm', pow2_split by lia. nia. }
  destruct (Z.eq_dec q 0) as [->|Hqnz].
  - (* the quotient is zero: the exponent is the least one *)
    simpl Zdigits2.
    assert (Hlt : m' < 2 ^ d2) by lia.
    assert (d1 - 1 + sh < d2).
    { destruct (Z_lt_ge_dec (d1 - 1 + sh) d2) as [|G]; [assumption|exfalso].
      assert (2 ^ d2 <= 2 ^ (d1 - 1 + sh)) by (apply Z.pow_le_mono_r; lia). lia. }
    unfold fexp, emin in *. unfold sh in *. lia.
  - assert (Hqpos : 0 < q) by lia.
    pose proof (Zdigits2_bounds Hqpos) as [Hlq Huq].
    pose proof (Zdigits2_pos Hqpos) as Hdq.
    assert (Hup : m' < 2 ^ (Zdigits2 q + d2)).
    { rewrite pow2_split by lia. nia. }
    assert (d1 - 1 + sh < Zdigits2 q + d2).
    { destruct (Z_lt_ge_dec (d1 - 1 + sh) (Zdigits2 q + d2)) as [|G];
        [assumption|exfalso].
      assert (2 ^ (Zdigits2 q + d2) <= 2 ^ (d1 - 1 + sh))
        by (apply Z.pow_le_mono_r; lia).
      lia. }
    apply Z.le_trans with (fexp 53 1024 X); [unfold e'; lia|].
    apply fexp_mono. unfold X, sh in *. lia.
Qed.

(** Every quotient is a valid number. *)
Lemma div_valid (x y : JS.number) :
  valid_binary JS.prec JS.emax (JS.div x y) = true.
Proof.
  unfold JS.div, JS.prec, JS.emax.
  destruct x as [sx | sx | | sx mx ex], y as [sy | sy | | sy my ey];
    try reflexivity.
  unfold SFdiv.
  pose proof (SFdiv_core_binary_digits mx my ex ey) as H.
  destruct (SFdiv_core_binary 53 1024 (Zpos mx) ex (Zpos my) ey) as [[q e'] l].
  destruct H as [Hq He]. apply binary_round_aux_valid; assumption.
Qed.


(* ================================================================== *)
(** ** Integers as numbers, and [Math.round]                           *)
(* ================================================================== *)

(** An integer of at most 53 bits is a number. *)
Lemma binary_normalize_exact (z : Z) (s0 : bool) :
  Z.abs z < 2 ^ 53 ->
  (Spec.valueOf (binary_normalize 53 1024 z 0 s0) == inject_Z z)%Q.
Proof.
  intros Hz.
  assert (Hpos : forall (s : bool) (p : positive),
             Zpos p < 2 ^ 53 ->
             (Spec.valueOf (binary_round 53 1024 s p 0)
              == inject_Z (cond_Zopp s (Zpos p)))%Q).
  { intros s p Hp.
    pose proof (@digits2_lt_pow p 53 ltac:(lia) Hp) as Hd.
    assert (0 < Zpos (digits2_pos p)) by lia.
    rewrite binary_round_exact; unfold fexp, emin; try lia.
    unfold Spec.valueOf.
    replace (Z.max (Zpos (digits2_pos p) + 0 - 53) (3 - 1024 - 53))
      with (- (53 - Zpos (digits2_pos p))) by lia.
    replace (0 - - (53 - Zpos (digits2_pos p)))
      with (53 - Zpos (digits2_pos p)) by lia.
    set (j := 53 - Zpos (digits2_pos p)).
    assert (Hj : 0 <= j) by (unfold j; lia).
    rewrite Qpower_opp, (@Qpow2_nonneg j Hj).
    assert (Hm : inject_Z (cond_Zopp s (Zpos (Pos.shiftl p (Z.to_N j))))
                 = inject_Z (cond_Zopp s (Zpos p) * 2 ^ j)).
    { f_equal. rewrite Zpos_shiftl, Z2N.id by lia.
      destruct s; unfold cond_Zopp; lia. }
    rewrite Hm, inject_Z_mult.
    field. intros H0.
    pose proof (@pow2_pos j Hj) as Hpj.
    unfold Qeq in H0. simpl in H0. lia. }
  destruct z as [|p|p]; simpl binary_normalize.
  - reflexivity.
  - apply (Hpos false p). exact Hz.
  - apply (Hpos true p). exact Hz.
Qed.

Lemma Qfloor_half (k : Z) : Qfloor (inject_Z k + (1 # 2)) = k.
Proof.
  unfold Qfloor, Qplus, inject_Z. simpl Qnum. simpl Qden.
  change (Zpos (1 * 2)) with 2.
  Z.div_mod_to_equations. lia.
Qed.

Lemma binary64_mantissa (m : positive) (e : Z) :
  bounded 53 1024 m e = true -> Zpos m < 2 ^ 53.
Proof.
  unfold bounded, canonical_mantissa, fexp, emin. intros H.
  apply andb_prop in H. destruct H as [Hc _]. apply Z.eqb_eq in Hc.
  pose proof (digits2_bounds m) as [_ Hm].
  eapply Z.lt_le_trans; [exact Hm|]. apply Z.pow_le_mono_r; lia.
Qed.

(** [Math.round] yields the integer nearest to its argument, the larger
    one when two are equally near. *)
Lemma Math_round_nearest (x : JS.number) :
  valid_binary 53 1024 x = true ->
  Spec.isFinite x ->
  (Spec.valueOf (JS.Math_round x)
   == inject_Z (Spec.round_half_up (Spec.valueOf x)))%Q.
Proof.
  intros Hv Hfin. destruct x as [s | s | | s m e]; try contradiction.
  - reflexivity.
  - simpl in Hv. pose proof (binary64_mantissa _ _ Hv) as Hm.
    unfold JS.Math_round, Spec.round_half_up.
    set (a := cond_Zopp s (Zpos m)).
    assert (Ha : - 2 ^ 53 < a < 2 ^ 53)
      by (unfold a; destruct s; unfold cond_Zopp; lia).
    destruct (Z.leb_spec 0 e) as [He|He].
    + unfold Spec.valueOf. fold a.
      assert (E : (inject_Z a * 2 ^ e == inject_Z (a * 2 ^ e))%Q).
      { rewrite (@Qpow2_nonneg e He), inject_Z_mult. reflexivity. }
      rewrite (Qfloor_comp _ _ (Qplus_comp _ _ E _ _ (Qeq_refl (1 # 2)))).
      rewrite Qfloor_half. exact E.
    + set (P := 2 ^ (- e)).
      assert (HP : 2 <= P).
      { unfold P. change 2 with (2 ^ 1) at 1. apply Z.pow_le_mono_r; lia. }
      assert (HP2 : 2 ^ (- e + 1) = 2 * P).
      { unfold P. rewrite Z.pow_add_r by lia. change (2 ^ 1) with 2. lia. }
      rewrite HP2.
      assert (Hn : Z.abs ((2 * a + P) / (2 * P)) < 2 ^ 53).
      { apply Z.abs_lt. split.
        - apply Z.lt_le_trans with (- 2 ^ 53 + 1); [lia|].
          apply Z.div_le_lower_bound; lia.
        - apply Z.div_lt_upper_bound; lia. }
      rewrite (binary_normalize_exact _ s Hn).
      rewrite Zdiv_Qdiv.
      assert (E : (Spec.valueOf (S754_finite s m e) + (1 # 2)
                   == inject_Z (2 * a + P) / inject_Z (2 * P))%Q).
      { unfold Spec.valueOf. fold a.
        rewrite (@Qpow2_neg e) by lia. fold P.
        rewrite inject_Z_plus, !inject_Z_mult.
        change (inject_Z 2) with 2%Q.
        field. intros H0. unfold Qeq in H0. simpl in H0. lia. }
      rewrite (Qfloor_comp _ _ E). reflexivity.
Qed.

(* ================================================================== *)
(** ** Runs of [page.tsx]                                              *)
(* ================================================================== *)

Lemma pushLatency_window (latency : JS.number) (r : ScribePage.RecordingState) :
  ScribePage.latenciesMs (ScribePage.pushLatency latency r)
  = Spec.last_entries 29 (ScribePage.latenciesMs r) ++ [latency]
  /\ (List.length (ScribePage.latenciesMs (ScribePage.pushLatency latency r))
      <= 30)%nat.
Proof.
  unfold ScribePage.pushLatency; simpl.
  change (-29)%Z with (- Z.of_nat 29)%Z.
  rewrite slice_from_last by lia.
  split; [reflexivity|].
  rewrite length_app; simpl.
  pose proof (last_entries_length 29 (ScribePage.latenciesMs r)). lia.
Qed.

Lemma run_snoc (evs : list ScribePage.Event) (ev : ScribePage.Event)
  (st : ScribePage.State) :
  ScribePage.run (evs ++ [ev]) st = ScribePage.handle ev (ScribePage.run evs st).
Proof. unfold ScribePage.run. rewrite fold_left_app. reflexivity. Qed.

(** What [measuresFrom] stands for: when it is set the handler appends
    the latency measured from it and clears the segment start; when it is
    not set the handler leaves the samples alone. *)
Lemma measuresFrom_records (ev : ScribePage.Event) (st : ScribePage.State)
  (start : JS.number) :
  ScribePage.measuresFrom ev st = Some start ->
  ScribePage.segmentStartMsRef st = Some start
  /\ ScribePage.recording (ScribePage.handle ev st)
     = ScribePage.pushLatency (JS.sub (ScribePage.timeOf ev) start)
         (ScribePage.recording st)
  /\ ScribePage.segmentStartMsRef (ScribePage.handle ev st) = None.
Proof.
  destruct ev as [now | d now | d now]; simpl.
  - discriminate.
  - unfold ScribePage.onPartialTranscript.
    destruct (String.eqb _ _); [discriminate|].
    destruct (0 <? _)%nat; [|discriminate].
    intros ->. repeat split.
  - unfold ScribePage.onFinalTranscript.
    destruct (ScribePage.hasText d); [|discriminate].
    intros ->. repeat split.
Qed.

Lemma measuresFrom_none (ev : ScribePage.Event) (st : ScribePage.State) :
  ScribePage.measuresFrom ev st = None ->
  ScribePage.latenciesMs (ScribePage.recording (ScribePage.handle ev st))
  = ScribePage.latenciesMs (ScribePage.recording st).
Proof.
  destruct ev as [now | d now | d now]; simpl.
  - intros _. unfold ScribePage.tick.
    destruct (ScribePage.segmentStartMsRef st); reflexivity.
  - unfold ScribePage.onPartialTranscript.
    destruct (String.eqb _ _); [reflexivity|].
    destruct (0 <? _)%nat.
    + intros ->. reflexivity.
    + intros _. destruct (ScribePage.segmentStartMsRef st); reflexivity.
  - unfold ScribePage.onFinalTranscript.
    destruct (ScribePage.hasText d).
    + intros ->. reflexivity.
    + intros _. destruct (ScribePage.segmentStartMsRef st); reflexivity.
Qed.

(** No handler lets the window grow beyond 30 samples. *)
Lemma handle_window (ev : ScribePage.Event) (st : ScribePage.State) :
  (List.length (ScribePage.latenciesMs (ScribePage.recording st)) <= 30)%nat ->
  (List.length
     (ScribePage.latenciesMs (ScribePage.recording (ScribePage.handle ev st)))
   <= 30)%nat.
Proof.
  intros H. destruct (ScribePage.measuresFrom ev st) as [start|] eqn:Hm.
  - destruct (measuresFrom_records _ _ Hm) as (_ & -> & _).
    apply pushLatency_window.
  - rewrite (measuresFrom_none _ _ Hm). exact H.
Qed.

Lemma run_window (evs : list ScribePage.Event) :
  forall st : ScribePage.State,
    (List.length (ScribePage.latenciesMs (ScribePage.recording st)) <= 30)%nat ->
    (List.length
       (ScribePage.latenciesMs (ScribePage.recording (ScribePage.run evs st)))
     <= 30)%nat.
Proof.
  induction evs as [|ev evs IH]; intros st H; [exact H|].
  apply (IH (ScribePage.handle ev st)), handle_window, H.
Qed.

(* ================================================================== *)
(** ** Partial and final transcripts                                   *)
(* ================================================================== *)

(** C2.  A partial transcript is a revisable hypothesis.  In the WebSocket
    transcriber every [partial_transcript] message replaces the stored
    partial transcript with the text of the message and every
    [final_transcript] message resets it to the empty string; in
    [page.tsx] the text remembered in [lastTranscriptRef] is replaced by
    the text of every partial event (the empty string when the text is
    missing) and reset to the empty string by every final event. *)
Theorem partial_transcript_revisable :
  (forall (t : string) (w : WsTranscriber.World),
      WsTranscriber.partialTranscript
        (WsTranscriber.recording
           (WsTranscriber.onmessage
              (WsTranscriber.Message (WsTranscriber.partial_transcript t)) w))
      = t)
  /\ (forall (t : string) (w : WsTranscriber.World),
      WsTranscriber.partialTranscript
        (WsTranscriber.recording
           (WsTranscriber.onmessage
              (WsTranscriber.Message (WsTranscriber.final_transcript t)) w))
      = ""%string)
  /\ (forall (data : ScribePage.TranscriptData) (now : JS.number)
             (st : ScribePage.State),
      ScribePage.lastTranscriptRef (ScribePage.onPartialTranscript data now st)
      = JS.opt_or_else (ScribePage.text data) "")
  /\ (forall (data : ScribePage.TranscriptData) (now : JS.number)
             (st : ScribePage.State),
      ScribePage.lastTranscriptRef (ScribePage.onFinalTranscript data now st)
      = ""%string).
Proof.
  split; [|split; [|split]].
  - intros t w. reflexivity.
  - intros t w. unfold WsTranscriber.onmessage, WsTranscriber.cleanupWebSocket.
    destruct (WsTranscriber.websocketRef _); reflexivity.
  - intros data now st. unfold ScribePage.onPartialTranscript.
    destruct (String.eqb_spec (JS.opt_or_else (ScribePage.text data) "")
                (ScribePage.lastTranscriptRef st)) as [E|_].
    + symmetry. exact E.
    + destruct (ScribePage.segmentStartMsRef st); [|reflexivity].
      destruct (0 <? _)%nat; reflexivity.
  - intros data now st. unfold ScribePage.onFinalTranscript.
    destruct (ScribePage.segmentStartMsRef st); [|reflexivity].
    destruct (ScribePage.hasText data); reflexivity.
Qed.

(** C8.  [onPartialTranscript] ignores duplicate events: when the text of
    the event (the empty string when it is missing) equals the text seen
    last, the state is unchanged, so no latency is appended and
    [lastTranscriptRef] and [segmentStartMsRef] keep their values; in
    particular an event repeated right after itself changes nothing. *)
Theorem onPartialTranscript_duplicate :
  forall (data : ScribePage.TranscriptData) (now : JS.number)
         (st : ScribePage.State),
    JS.opt_or_else (ScribePage.text data) "" = ScribePage.lastTranscriptRef st ->
    let st' := ScribePage.onPartialTranscript data now st in
    st' = st
    /\ ScribePage.latenciesMs (ScribePage.recording st')
       = ScribePage.latenciesMs (ScribePage.recording st)
    /\ ScribePage.lastTranscriptRef st' = ScribePage.lastTranscriptRef st
    /\ ScribePage.segmentStartMsRef st' = ScribePage.segmentStartMsRef st
    /\ forall now' : JS.number,
        ScribePage.onPartialTranscript data now' st' = st'.
Proof.
  intros data now st E.
  assert (H : ScribePage.onPartialTranscript data now st = st).
  { unfold ScribePage.onPartialTranscript. rewrite E, String.eqb_refl.
    reflexivity. }
  cbv zeta. rewrite H. repeat split; try reflexivity.
  intros now'. unfold ScribePage.onPartialTranscript.
  rewrite E, String.eqb_refl. reflexivity.
Qed.

Lemma onPartialTranscript_duplicate_witness :
  ScribePage.onPartialTranscript (Samples.said "hello") (Samples.ms 1250)
    Samples.midSegment
  = Samples.midSegment.
Proof.
  apply (onPartialTranscript_duplicate (Samples.said "hello")
           (Samples.ms 1250) Samples.midSegment).
  reflexivity.
Defined.

(* ================================================================== *)
(** ** The latency window                                              *)
(* ================================================================== *)

(** C3.  The latency samples form a bounded sliding window.  Whenever
    [onPartialTranscript] records a latency (the text is new and not empty
    and a segment start is set) and whenever [onFinalTranscript] records
    one (the text is present and not empty and a segment start is set),
    [latenciesMs] afterwards is the last 29 of the previous entries
    followed by the new latency, [now - start], and has at most 30
    entries; so it never has more than 30 entries in any run of the
    component. *)
Theorem latencies_sliding_window :
  (forall (st : ScribePage.State) (data : ScribePage.TranscriptData)
          (now start : JS.number),
      ScribePage.segmentStartMsRef st = Some start ->
      (JS.opt_or_else (ScribePage.text data) "" <> ScribePage.lastTranscriptRef st ->
       JS.opt_or_else (ScribePage.text data) "" <> ""%string ->
       let l' := ScribePage.latenciesMs
                   (ScribePage.recording
                      (ScribePage.onPartialTranscript data now st)) in
       l' = (Spec.last_entries 29 (ScribePage.latenciesMs (ScribePage.recording st))
             ++ [JS.sub now start])%list
       /\ (List.length l' <= 30)%nat)
      /\
      (ScribePage.hasText data = true ->
       let l' := ScribePage.latenciesMs
                   (ScribePage.recording
                      (ScribePage.onFinalTranscript data now st)) in
       l' = (Spec.last_entries 29 (ScribePage.latenciesMs (ScribePage.recording st))
             ++ [JS.sub now start])%list
       /\ (List.length l' <= 30)%nat))
  /\ (forall evs : list ScribePage.Event,
      (List.length
         (ScribePage.latenciesMs
            (ScribePage.recording (ScribePage.run evs ScribePage.initial)))
       <= 30)%nat).
Proof.
  split.
  - intros st data now start Hstart. split.
    + intros Hnew Hne. cbv zeta. unfold ScribePage.onPartialTranscript.
      destruct (String.eqb_spec (JS.opt_or_else (ScribePage.text data) "")
                  (ScribePage.lastTranscriptRef st)) as [E|_]; [contradiction|].
      rewrite Hstart.
      destruct (JS.opt_or_else (ScribePage.text data) "") as [|c s] eqn:Et;
        [contradiction|].
      cbn [String.length Nat.ltb Nat.leb ScribePage.recording].
      apply pushLatency_window.
    + intros Htext. cbv zeta. unfold ScribePage.onFinalTranscript.
      rewrite Hstart, Htext. cbn [ScribePage.recording].
      apply pushLatency_window.
  - intros evs. apply run_window. simpl. lia.
Qed.

Lemma latencies_sliding_window_witness :
  List.length
    (ScribePage.latenciesMs
       (ScribePage.recording
          (ScribePage.onPartialTranscript (Samples.said "hello")
             (Samples.ms 1250) Samples.fullWindow))) = 30%nat
  /\ (List.length
        (ScribePage.latenciesMs
           (ScribePage.recording
              (ScribePage.onFinalTranscript (Samples.said "hello")
                 (Samples.ms 1250) Samples.fullWindow))) <= 30)%nat.
Proof.
  destruct latencies_sliding_window as [Hw _].
  destruct (Hw Samples.fullWindow (Samples.said "hello") (Samples.ms 1250)
              (Samples.ms 1000) eq_refl)
    as [HP HF].
  split.
  - destruct HP as [HP _]; [discriminate | discriminate |].
    rewrite HP. reflexivity.
  - apply HF. reflexivity.
Defined.

(* ================================================================== *)
(** ** The presented text                                              *)
(* ================================================================== *)

Lemma or_else_presented (e p f : string) :
  JS.or_else e (JS.or_else p f) = Spec.presented e p f.
Proof. destruct e, p; reflexivity. Qed.

(** C5.  The presented text follows a fixed precedence.  In both
    components [displayText] is the error message when that is not empty,
    otherwise the partial transcript when that is not empty, otherwise the
    final transcript, which in [page.tsx] is the texts of the final
    segments joined by single spaces. *)
Theorem displayText_precedence :
  (forall r : WsTranscriber.RecordingState,
      WsTranscriber.displayText r
      = Spec.presented (WsTranscriber.error r)
          (WsTranscriber.partialTranscript r) (WsTranscriber.transcript r))
  /\ (forall (r : ScribePage.RecordingState) (scribe : ScribePage.Scribe),
      ScribePage.displayText r scribe
      = Spec.presented (ScribePage.error r)
          (ScribePage.partialTranscript scribe)
          (JS.join " "
             (map ScribePage.seg_text (ScribePage.finalTranscripts scribe)))).
Proof.
  split.
  - intros r. apply or_else_presented.
  - intros r scribe. apply or_else_presented.
Qed.

(* ================================================================== *)
(** ** Keyboard shortcuts                                              *)
(* ================================================================== *)

(** C7.  A key pressed in a text field never starts or toggles recording:
    for every [keydown] event whose target is an [INPUT] or a [TEXTAREA]
    element, [handleKeyDown] of [page.tsx] does not call
    [handleToggleRecording] and [handleKeyDown] of the WebSocket
    transcriber does not call [startRecording], whatever the keys and the
    recording state. *)
Theorem keydown_in_text_field :
  forall (e : DOM.KeyboardEvent) (tag : string),
    DOM.target e = DOM.HTMLElement tag ->
    tag = "INPUT"%string \/ tag = "TEXTAREA"%string ->
    ~ In ScribePage.handleToggleRecording (ScribePage.handleKeyDown e)
    /\ forall r : WsTranscriber.RecordingState,
        ~ In WsTranscriber.startRecording (WsTranscriber.handleKeyDown r e).
Proof.
  intros e tag Ht Htag.
  assert (Hout : DOM.outsideTextField (DOM.target e) = false).
  { rewrite Ht. destruct Htag as [-> | ->]; reflexivity. }
  split.
  - unfold ScribePage.handleKeyDown. rewrite Hout, andb_false_r.
    intros [].
  - intros r. unfold WsTranscriber.handleKeyDown. rewrite Hout, andb_false_r.
    intros [].
Qed.

Lemma keydown_in_text_field_witness :
  ~ In ScribePage.handleToggleRecording
      (ScribePage.handleKeyDown Samples.cmdK_in_textarea)
  /\ ~ In WsTranscriber.startRecording
        (WsTranscriber.handleKeyDown
           (WsTranscriber.recording Samples.processing)
           Samples.cmdK_in_textarea).
Proof.
  destruct (keydown_in_text_field Samples.cmdK_in_textarea
              (tag := "TEXTAREA") eq_refl (or_intror eq_refl)) as [H1 H2].
  split; [exact H1 | apply H2].
Defined.

(* ================================================================== *)
(** ** Error paths of the WebSocket transcriber                        *)
(* ================================================================== *)

Lemma isOpen_closed (w : WsTranscriber.World) (ws : WsTranscriber.WebSocket) :
  In ws (WsTranscriber.closedSockets w) -> WsTranscriber.isOpen w ws = false.
Proof.
  intros H. unfold WsTranscriber.isOpen.
  apply negb_false_iff, existsb_exists.
  exists ws. split; [exact H | apply Nat.eqb_refl].
Qed.

Lemma cleanupWebSocket_recording (w : WsTranscriber.World) :
  WsTranscriber.recording (WsTranscriber.cleanupWebSocket w)
  = WsTranscriber.recording w.
Proof.
  unfold WsTranscriber.cleanupWebSocket.
  destruct (WsTranscriber.websocketRef w); reflexivity.
Qed.

Lemma cleanupWebSocket_ref (w : WsTranscriber.World) :
  WsTranscriber.websocketRef (WsTranscriber.cleanupWebSocket w) = None.
Proof.
  unfold WsTranscriber.cleanupWebSocket.
  destruct (WsTranscriber.websocketRef w) eqn:E; [reflexivity | exact E].
Qed.

Lemma cleanupWebSocket_closes (w : WsTranscriber.World)
  (ws : WsTranscriber.WebSocket) :
  WsTranscriber.websocketRef w = Some ws ->
  In ws (WsTranscriber.closedSockets (WsTranscriber.cleanupWebSocket w))
  /\ WsTranscriber.isOpen (WsTranscriber.cleanupWebSocket w) ws = false.
Proof.
  intros H.
  assert (Hin : In ws (WsTranscriber.closedSockets
                         (WsTranscriber.cleanupWebSocket w))).
  { unfold WsTranscriber.cleanupWebSocket. rewrite H. left. reflexivity. }
  split; [exact Hin | apply isOpen_closed; exact Hin].
Qed.

Lemma cleanupStream_recording (w : WsTranscriber.World) :
  WsTranscriber.recording (WsTranscriber.cleanupStream w)
  = WsTranscriber.recording w.
Proof.
  unfold WsTranscriber.cleanupStream.
  destruct (WsTranscriber.streamRef w); reflexivity.
Qed.

Lemma cleanupStream_websocketRef (w : WsTranscriber.World) :
  WsTranscriber.websocketRef (WsTranscriber.cleanupStream w)
  = WsTranscriber.websocketRef w.
Proof.
  unfold WsTranscriber.cleanupStream.
  destruct (WsTranscriber.streamRef w); reflexivity.
Qed.

(** C10.  The two error paths reset the session in the same way: after a
    server message of type ["error"] and after a WebSocket [error] event,
    the error text is set (to the error of the message, respectively to
    ["Connection error"]), [isRecording], [isConnecting] and
    [isProcessing] are all false, the socket held in [websocketRef] has
    been closed and the reference is cleared. *)
Theorem error_paths_reset_session :
  (forall (e : string) (w : WsTranscriber.World),
      Spec.sessionReset e w
        (WsTranscriber.onmessage
           (WsTranscriber.Message (WsTranscriber.error_message e)) w))
  /\ (forall w : WsTranscriber.World,
      Spec.sessionReset "Connection error" w (WsTranscriber.onerror w)).
Proof.
  split.
  - intros e w. unfold Spec.sessionReset, WsTranscriber.onmessage.
    rewrite !cleanupWebSocket_recording.
    repeat (split; [reflexivity|]).
    split; [apply cleanupWebSocket_ref|].
    intros ws Hws. apply cleanupWebSocket_closes. exact Hws.
  - intros w. unfold Spec.sessionReset, WsTranscriber.onerror.
    rewrite !cleanupWebSocket_recording, !cleanupStream_recording.
    repeat (split; [reflexivity|]).
    split; [apply cleanupWebSocket_ref|].
    intros ws Hws. apply cleanupWebSocket_closes.
    rewrite cleanupStream_websocketRef. exact Hws.
Qed.

(* ================================================================== *)
(** ** Committed transcripts                                           *)
(* ================================================================== *)

Section OneSocket.

Variable ws : WsTranscriber.WebSocket.

Lemma dispatchMessage_closed (data : WsTranscriber.Parsed)
  (w : WsTranscriber.World) :
  WsTranscriber.isOpen w ws = false ->
  WsTranscriber.dispatchMessage ws data w = w.
Proof. intros H. unfold WsTranscriber.dispatchMessage. now rewrite H. Qed.

Lemma receive_closed (msgs : list WsTranscriber.Parsed)
  (w : WsTranscriber.World) :
  WsTranscriber.isOpen w ws = false ->
  WsTranscriber.receive ws msgs w = w.
Proof.
  intros H. induction msgs as [|m msgs IH]; [reflexivity|].
  unfold WsTranscriber.receive in *. simpl.
  rewrite dispatchMessage_closed by exact H. exact IH.
Qed.

Lemma receive_app (pre post : list WsTranscriber.Parsed)
  (w : WsTranscriber.World) :
  WsTranscriber.receive ws (pre ++ post) w
  = WsTranscriber.receive ws post (WsTranscriber.receive ws pre w).
Proof. unfold WsTranscriber.receive. apply fold_left_app. Qed.

Lemma onmessage_inSession (data : WsTranscriber.Parsed)
  (w : WsTranscriber.World) :
  WsTranscriber.websocketRef w = Some ws ->
  WsTranscriber.isOpen w ws = true ->
  Spec.inSession ws (WsTranscriber.onmessage data w).
Proof.
  intros Href Hopen.
  destruct data as [| [ | t | t | e] |]; unfold WsTranscriber.onmessage.
  - left. split; assumption.
  - left. split; assumption.
  - left. split; assumption.
  - right. apply cleanupWebSocket_closes. exact Href.
  - right. apply cleanupWebSocket_closes. exact Href.
  - left. split; assumption.
Qed.

Lemma dispatchMessage_inSession (data : WsTranscriber.Parsed)
  (w : WsTranscriber.World) :
  Spec.inSession ws w -> Spec.inSession ws (WsTranscriber.dispatchMessage ws data w).
Proof.
  intros [[Href Hopen] | Hclosed].
  - unfold WsTranscriber.dispatchMessage. rewrite Hopen.
    apply onmessage_inSession; assumption.
  - rewrite dispatchMessage_closed by exact Hclosed. right. exact Hclosed.
Qed.

Lemma receive_inSession (msgs : list WsTranscriber.Parsed) :
  forall w : WsTranscriber.World,
    Spec.inSession ws w -> Spec.inSession ws (WsTranscriber.receive ws msgs w).
Proof.
  induction msgs as [|m msgs IH]; intros w H; [exact H|].
  unfold WsTranscriber.receive in *. simpl.
  apply IH, dispatchMessage_inSession, H.
Qed.

End OneSocket.

Lemma onmessage_keeps_transcript (data : WsTranscriber.Parsed)
  (w : WsTranscriber.World) :
  (forall t : string,
      data <> WsTranscriber.Message (WsTranscriber.final_transcript t)) ->
  WsTranscriber.transcript (WsTranscriber.recording (WsTranscriber.onmessage data w))
  = WsTranscriber.transcript (WsTranscriber.recording w).
Proof.
  intros Hnf.
  destruct data as [| [ | t | t | e] |]; unfold WsTranscriber.onmessage;
    rewrite ?cleanupWebSocket_recording; try reflexivity.
  exfalso. apply (Hnf t). reflexivity.
Qed.

(** C1.  A final transcript is immutable once emitted.  In the WebSocket
    transcriber, on the socket the component holds in [websocketRef], for
    every sequence of incoming messages: once a [final_transcript] message
    has been handled, the committed transcript is its text whatever
    messages follow it, partial or final (the handler closes the socket,
    and no other kind of message writes [transcript]).  In [page.tsx] the
    final text is read from the list of final segments of [useScribe];
    it does not depend on the partial transcript, and the joined text of
    the segments committed so far remains a prefix of it when further
    segments are committed. *)
Theorem final_transcript_immutable :
  (forall (ws : WsTranscriber.WebSocket) (w : WsTranscriber.World)
          (pre post : list WsTranscriber.Parsed) (t : string),
      WsTranscriber.websocketRef w = Some ws ->
      WsTranscriber.isOpen (WsTranscriber.receive ws pre w) ws = true ->
      WsTranscriber.transcript
        (WsTranscriber.recording
           (WsTranscriber.receive ws
              (pre ++ WsTranscriber.Message (WsTranscriber.final_transcript t)
                   :: post) w))
      = t)
  /\ (forall (data : WsTranscriber.Parsed) (w : WsTranscriber.World),
      (forall t : string,
          data <> WsTranscriber.Message (WsTranscriber.final_transcript t)) ->
      WsTranscriber.transcript
        (WsTranscriber.recording (WsTranscriber.onmessage data w))
      = WsTranscriber.transcript (WsTranscriber.recording w))
  /\ (forall (p p' : string) (finals more : list ScribePage.Segment),
      exists rest : string,
        ScribePage.fullTranscript
          {| ScribePage.partialTranscript := p';
             ScribePage.finalTranscripts := finals ++ more |}
        = (ScribePage.fullTranscript
             {| ScribePage.partialTranscript := p;
                ScribePage.finalTranscripts := finals |} ++ rest)%string).
Proof.
  split; [|split].
  - intros ws w pre post t Href Hopen.
    rewrite receive_app.
    set (w1 := WsTranscriber.receive ws pre w) in *.
    assert (Hses : Spec.inSession ws w1).
    { apply receive_inSession. destruct (WsTranscriber.isOpen w ws) eqn:E.
      - left. split; [exact Href | exact E].
      - right. exact E. }
    destruct Hses as [[Href1 _] | Hclosed]; [|congruence].
    change (WsTranscriber.receive ws
              (WsTranscriber.Message (WsTranscriber.final_transcript t) :: post)
              w1)
      with (WsTranscriber.receive ws post
              (WsTranscriber.dispatchMessage ws
                 (WsTranscriber.Message (WsTranscriber.final_transcript t)) w1)).
    unfold WsTranscriber.dispatchMessage at 1. rewrite Hopen.
    rewrite receive_closed.
    + unfold WsTranscriber.onmessage. rewrite cleanupWebSocket_recording.
      reflexivity.
    + unfold WsTranscriber.onmessage.
      apply cleanupWebSocket_closes. exact Href1.
  - intros data w Hnf. apply onmessage_keeps_transcript. exact Hnf.
  - intros p p' finals more. unfold ScribePage.fullTranscript; simpl.
    rewrite map_app.
    generalize (map ScribePage.seg_text finals) as l.
    generalize (map ScribePage.seg_text more) as m.
    intros m. induction m as [|x m IH] using rev_ind; intros l.
    + exists ""%string. rewrite app_nil_r. symmetry. apply string_app_nil_r.
    + destruct (IH l) as [rest Hrest].
      rewrite app_assoc, join_snoc, Hrest.
      destruct (l ++ m)%list as [|y q] eqn:E.
      * apply app_eq_nil in E. destruct E as [-> ->]. simpl in *.
        exists x. reflexivity.
      * exists (rest ++ " " ++ x)%string. rewrite string_app_assoc. reflexivity.
Qed.

Lemma final_transcript_immutable_witness :
  WsTranscriber.transcript
    (WsTranscriber.recording
       (WsTranscriber.receive 1%nat
          ([WsTranscriber.Message (WsTranscriber.partial_transcript "hello world")]
           ++ WsTranscriber.Message (WsTranscriber.final_transcript "Hello, world.")
              :: [WsTranscriber.Message (WsTranscriber.partial_transcript "again");
                  WsTranscriber.Message (WsTranscriber.final_transcript "Again.")])
          Samples.processing))
  = "Hello, world."%string.
Proof.
  apply (proj1 final_transcript_immutable 1%nat Samples.processing);
    reflexivity.
Defined.

(* ================================================================== *)
(** ** The segment-start timer                                         *)
(* ================================================================== *)

Lemma history_snoc (evs : list ScribePage.Event) (ev : ScribePage.Event) :
  forall st : ScribePage.State,
    Spec.history st (evs ++ [ev])
    = Spec.history st evs ++ [(ev, ScribePage.run evs st)].
Proof.
  induction evs as [|e evs IH]; intros st; [reflexivity|].
  simpl. rewrite IH. reflexivity.
Qed.

Lemma after_last_snoc (A : Type) (p : A -> bool) (l : list A) (x : A) :
  Spec.after_last p (l ++ [x])
  = if p x then [] else Spec.after_last p l ++ [x].
Proof.
  induction l as [|a l IH]; simpl.
  - destruct (p x); reflexivity.
  - rewrite existsb_app; simpl. rewrite orb_false_r.
    destruct (p x) eqn:Hx.
    + rewrite orb_true_r. exact IH.
    + rewrite orb_false_r. destruct (existsb p l); [exact IH|].
      destruct (p a); reflexivity.
Qed.

Lemma first_tick_snoc (l : list (ScribePage.Event * ScribePage.State))
  (x : ScribePage.Event * ScribePage.State) :
  Spec.first_tick (l ++ [x])
  = match Spec.first_tick l with
    | Some t => Some t
    | None =>
        match fst x with
        | ScribePage.Tick now => Some now
        | _ => None
        end
    end.
Proof.
  induction l as [|[e s] l IH]; simpl.
  - destruct x as [[now | d now | d now] s]; reflexivity.
  - destruct e; [reflexivity | exact IH | exact IH].
Qed.

(** The segment start is the time of the first tick since it was last
    reset. *)
Lemma segmentStart_tracks_reset (evs : list ScribePage.Event) :
  forall st : ScribePage.State,
    ScribePage.segmentStartMsRef st = None ->
    ScribePage.segmentStartMsRef (ScribePage.run evs st)
    = Spec.tick_after_reset st evs.
Proof.
  unfold Spec.tick_after_reset.
  induction evs as [|ev evs IH] using rev_ind; intros st H0.
  - exact H0.
  - rewrite run_snoc, history_snoc, after_last_snoc.
    specialize (IH st H0).
    set (s := ScribePage.run evs st) in *.
    assert (Hreset :
      Spec.isReset (ev, s)
      = match ScribePage.measuresFrom ev s, ev with
        | Some _, _ => true
        | None, ScribePage.Final _ _ => true
        | None, _ => false
        end).
    { unfold Spec.isReset, Spec.isMeasurement; cbn [fst snd].
      destruct (ScribePage.measuresFrom ev s), ev; reflexivity. }
    rewrite Hreset; clear Hreset.
    destruct (ScribePage.measuresFrom ev s) as [start|] eqn:Hm.
    + apply measuresFrom_records in Hm. simpl. apply Hm.
    + destruct ev as [now | d now | d now].
      * rewrite first_tick_snoc, <- IH. simpl. unfold ScribePage.tick.
        destruct (ScribePage.segmentStartMsRef s) eqn:E; [exact E|reflexivity].
      * rewrite first_tick_snoc, <- IH. simpl in *.
        unfold ScribePage.onPartialTranscript.
        destruct (String.eqb _ _);
          [destruct (ScribePage.segmentStartMsRef s); reflexivity|].
        destruct (0 <? _)%nat.
        -- rewrite Hm. reflexivity.
        -- destruct (ScribePage.segmentStartMsRef s); reflexivity.
      * simpl. unfold ScribePage.onFinalTranscript.
        destruct (ScribePage.segmentStartMsRef s); [|reflexivity].
        destruct (ScribePage.hasText d); reflexivity.
Qed.

(** C6, as stated, fails: a final transcript without text resets the
    segment start without recording a latency.  In the sample run the
    partial transcript at 250 ms records 50 ms, measured from the tick at
    200 ms, while the first tick after the previous measurement (the one
    at 10 ms) is the tick at 100 ms. *)
Lemma segment_timer_counterexample :
  ScribePage.measuresFrom Samples.nextPartial
    (ScribePage.run Samples.emptyFinalRun ScribePage.initial)
  = Some (Samples.ms 200)
  /\ Spec.tick_after_measurement ScribePage.initial Samples.emptyFinalRun
     = Some (Samples.ms 100)
  /\ ScribePage.latenciesMs
       (ScribePage.recording
          (ScribePage.run (Samples.emptyFinalRun ++ [Samples.nextPartial])
             ScribePage.initial))
     = [Samples.ms 10; Samples.ms 50]
  /\ ~ (forall (evs : list ScribePage.Event) (ev : ScribePage.Event)
               (start : JS.number),
           ScribePage.measuresFrom ev (ScribePage.run evs ScribePage.initial)
           = Some start ->
           Spec.tick_after_measurement ScribePage.initial evs = Some start).
Proof.
  split; [vm_compute; reflexivity|].
  split; [vm_compute; reflexivity|].
  split; [vm_compute; reflexivity|].
  intros H.
  specialize (H Samples.emptyFinalRun Samples.nextPartial (Samples.ms 200)
                ltac:(vm_compute; reflexivity)).
  vm_compute in H. discriminate H.
Qed.

(** C6, amended.  The periodic tick sets [segmentStartMsRef] only when it
    is null and changes nothing else; after every call of
    [onFinalTranscript], and after every call of [onPartialTranscript]
    that records a latency, [segmentStartMsRef] is null; hence, in every
    run that starts with a null segment start, each recorded latency is
    the time elapsed from the first tick after the previous reset of the
    segment start (the previous latency recording or the previous final
    transcript, whichever came last) to the transcript event. *)
Theorem segment_timer_protocol :
  (forall (now : JS.number) (st : ScribePage.State),
      match ScribePage.segmentStartMsRef st with
      | Some _ => ScribePage.tick now st = st
      | None =>
          ScribePage.segmentStartMsRef (ScribePage.tick now st) = Some now
          /\ ScribePage.recording (ScribePage.tick now st)
             = ScribePage.recording st
          /\ ScribePage.lastTranscriptRef (ScribePage.tick now st)
             = ScribePage.lastTranscriptRef st
      end)
  /\ (forall (data : ScribePage.TranscriptData) (now : JS.number)
             (st : ScribePage.State),
      ScribePage.segmentStartMsRef (ScribePage.onFinalTranscript data now st)
      = None)
  /\ (forall (data : ScribePage.TranscriptData) (now start : JS.number)
             (st : ScribePage.State),
      ScribePage.measuresFrom (ScribePage.Partial data now) st = Some start ->
      ScribePage.segmentStartMsRef (ScribePage.onPartialTranscript data now st)
      = None)
  /\ (forall (st : ScribePage.State) (evs : list ScribePage.Event)
             (ev : ScribePage.Event) (start : JS.number),
      ScribePage.segmentStartMsRef st = None ->
      ScribePage.measuresFrom ev (ScribePage.run evs st) = Some start ->
      Spec.tick_after_reset st evs = Some start
      /\ ScribePage.latenciesMs
           (ScribePage.recording (ScribePage.run (evs ++ [ev]) st))
         = Spec.last_entries 29
             (ScribePage.latenciesMs (ScribePage.recording (ScribePage.run evs st)))
           ++ [JS.sub (ScribePage.timeOf ev) start]).
Proof.
  split; [|split; [|split]].
  - intros now st. unfold ScribePage.tick.
    destruct (ScribePage.segmentStartMsRef st); repeat split.
  - intros data now st. unfold ScribePage.onFinalTranscript.
    destruct (ScribePage.segmentStartMsRef st); [|reflexivity].
    destruct (ScribePage.hasText data); reflexivity.
  - intros data now start st Hm.
    apply (measuresFrom_records (ScribePage.Partial data now)) in Hm. apply Hm.
  - intros st evs ev start H0 Hm.
    destruct (measuresFrom_records _ _ Hm) as (Hs & Hr & _).
    split.
    + rewrite <- segmentStart_tracks_reset by exact H0. exact Hs.
    + rewrite run_snoc, Hr. apply pushLatency_window.
Qed.

Lemma segment_timer_protocol_witness :
  Spec.tick_after_reset ScribePage.initial Samples.emptyFinalRun
  = Some (Samples.ms 200)
  /\ ScribePage.segmentStartMsRef
       (ScribePage.onPartialTranscript (Samples.said "b") (Samples.ms 250)
          (ScribePage.run Samples.emptyFinalRun ScribePage.initial))
     = None.
Proof.
  destruct segment_timer_protocol as (_ & _ & HP & HR).
  split.
  - apply (HR ScribePage.initial Samples.emptyFinalRun Samples.nextPartial
               (Samples.ms 200)); vm_compute; reflexivity.
  - apply (HP (Samples.said "b") (Samples.ms 250) (Samples.ms 200)).
    vm_compute; reflexivity.
Defined.

(* ================================================================== *)
(** ** Float32 to PCM16                                                *)
(* ================================================================== *)

(** C9.  The conversion of a Float32 sample to PCM16 is a clamped
    monotone map.  For every element [x] of the input buffer the stored
    value is the truncation of [clamp (x, -1, 1) * 0x7fff] (computed
    without rounding error; a NaN is stored as 0), it lies in
    [-32767 .. 32767], and a sample that is less than or equal to another
    is never mapped to a larger value; the loop converts the buffer
    element by element. *)
Theorem pcm16_clamped_monotone :
  (forall f : spec_float,
      JS.isFloat32 f = true ->
      WsTranscriber.toPCM16 (JS.Float32Array_get f) = Spec.pcm16_exact f
      /\ -32767 <= WsTranscriber.toPCM16 (JS.Float32Array_get f) <= 32767)
  /\ (forall f g : spec_float,
      JS.isFloat32 f = true ->
      JS.isFloat32 g = true ->
      SFleb f g = true ->
      WsTranscriber.toPCM16 (JS.Float32Array_get f)
      <= WsTranscriber.toPCM16 (JS.Float32Array_get g))
  /\ (forall inputData : list spec_float,
      Forall (fun f => JS.isFloat32 f = true) inputData ->
      WsTranscriber.convertBuffer inputData = map Spec.pcm16_exact inputData).
Proof.
  split; [|split].
  - intros f Hf. rewrite (toPCM16_exact _ Hf).
    split; [reflexivity | apply pcm16_exact_range].
  - intros f g Hf Hg Hle.
    rewrite (toPCM16_exact _ Hf), (toPCM16_exact _ Hg).
    apply pcm16_exact_mono; assumption.
  - intros inputData Hall. unfold WsTranscriber.convertBuffer.
    induction Hall as [|f l Hf _ IH]; [reflexivity|].
    simpl. rewrite IH, (toPCM16_exact _ Hf). reflexivity.
Qed.

Lemma pcm16_clamped_monotone_witness :
  WsTranscriber.toPCM16 (JS.Float32Array_get Samples.half32) = 16383
  /\ WsTranscriber.toPCM16 (JS.Float32Array_get Samples.half32)
     <= WsTranscriber.toPCM16 (JS.Float32Array_get Samples.threeQuarters32)
  /\ WsTranscriber.convertBuffer [Samples.half32; Samples.threeQuarters32]
     = [16383; 24575].
Proof.
  destruct pcm16_clamped_monotone as (H1 & H2 & H3).
  split; [|split].
  - destruct (H1 Samples.half32 eq_refl) as [-> _]. reflexivity.
  - apply H2; reflexivity.
  - rewrite H3; [reflexivity|].
    repeat constructor.
Defined.

(* ================================================================== *)
(** ** The average latency                                             *)
(* ================================================================== *)

Lemma of_Z_positive (z : Z) :
  0 < z < 2 ^ 53 ->
  exists (m : positive) (e : Z), JS.of_Z z = S754_finite false m e.
Proof.
  intros [H0 H1]. destruct z as [|p|p]; try lia.
  pose proof (@digits2_lt_pow p 53 ltac:(lia) H1) as Hd.
  assert (0 < Zpos (digits2_pos p)) by lia.
  unfold JS.of_Z, JS.prec, JS.emax. simpl binary_normalize.
  rewrite binary_round_exact; unfold fexp, emin; try lia.
  eexists. eexists. reflexivity.
Qed.

(** C4, as stated, fails: the mean is computed in binary64, where the
    running sum is rounded after every addition.  For the samples
    [2^54, 1, 1, 1] every addition of 1 is absorbed, the computed mean is
    [2^52] and so is the displayed value, while the arithmetic mean is
    [2^52 + 3/4], whose nearest integer is [2^52 + 1]. *)
Lemma average_latency_counterexample :
  ScribePage.averageLatency Samples.absorbed = JS.of_Z 4503599627370496
  /\ (Spec.exact_mean (ScribePage.latenciesMs Samples.absorbed)
      == inject_Z 4503599627370496 + (3 # 4))%Q
  /\ ~ Spec.nearest_integer
         (Spec.exact_mean (ScribePage.latenciesMs Samples.absorbed))
         (Spec.valueOf (ScribePage.averageLatency Samples.absorbed)).
Proof.
  split; [vm_compute; reflexivity|].
  split; [vm_compute; reflexivity|].
  intros [_ H]. vm_compute in H. apply H. reflexivity.
Qed.

(** The same happens with samples of ordinary size: the sum of the numbers
    [0.1] and [2.9] is rounded to 3, so 2 is displayed, while the mean of
    the two values, which is below 3/2, rounds to 1. *)
Lemma average_latency_short_samples :
  ScribePage.averageLatency Samples.shortLatencies = JS.of_Z 2
  /\ (Spec.exact_mean (ScribePage.latenciesMs Samples.shortLatencies) < 3 # 2)%Q
  /\ Spec.round_half_up
       (Spec.exact_mean (ScribePage.latenciesMs Samples.shortLatencies)) = 1.
Proof. repeat split; vm_compute; reflexivity. Qed.

(** C4, amended.  The displayed average latency is 0 when [latenciesMs]
    is empty.  Otherwise it is [Math.round] of the mean as the code
    computes it in binary64 arithmetic: the running sum of the entries,
    rounded after each addition, divided by their number; the divisor is
    a positive number, so the division is never a division by zero, and
    whenever that mean is finite the displayed value is the integer
    nearest to it, the larger one when two are equally near. *)
Theorem average_latency_rounded :
  (forall r : ScribePage.RecordingState,
      ScribePage.latenciesMs r = [] ->
      ScribePage.averageLatency r = JS.zero)
  /\ (forall r : ScribePage.RecordingState,
      ScribePage.latenciesMs r <> [] ->
      Z.of_nat (List.length (ScribePage.latenciesMs r)) < 2 ^ 53 ->
      let count := JS.of_Z (Z.of_nat (List.length (ScribePage.latenciesMs r))) in
      let mean := JS.div (fold_left JS.add (ScribePage.latenciesMs r) JS.zero)
                         count in
      (exists (m : positive) (e : Z), count = S754_finite false m e)
      /\ ScribePage.averageLatency r = JS.Math_round mean
      /\ (Spec.isFinite mean ->
          (Spec.valueOf (ScribePage.averageLatency r)
           == inject_Z (Spec.round_half_up (Spec.valueOf mean)))%Q)).
Proof.
  split.
  - intros r Hr. unfold ScribePage.averageLatency. rewrite Hr. reflexivity.
  - intros r Hne Hlen count mean.
    assert (Havg : ScribePage.averageLatency r = JS.Math_round mean).
    { unfold ScribePage.averageLatency.
      destruct (ScribePage.latenciesMs r) as [|x l] eqn:El; [contradiction|].
      reflexivity. }
    split; [|split].
    + apply of_Z_positive. split; [|exact Hlen].
      destruct (ScribePage.latenciesMs r); [contradiction | simpl; lia].
    + exact Havg.
    + intros Hfin. rewrite Havg.
      apply Math_round_nearest; [apply div_valid | exact Hfin].
Qed.

Lemma average_latency_rounded_witness :
  ScribePage.averageLatency Samples.threeSamples = Samples.ms 115
  /\ (Spec.valueOf (ScribePage.averageLatency Samples.threeSamples)
      == inject_Z 115)%Q.
Proof.
  destruct average_latency_rounded as (_ & H2).
  destruct (H2 Samples.threeSamples) as (_ & Havg & Hnear).
  - discriminate.
  - vm_compute. reflexivity.
  - split.
    + rewrite Havg. vm_compute. reflexivity.
    + rewrite Hnear; [vm_compute; reflexivity | vm_compute; exact I].
Defined.

(* ================================================================== *)
(** ** More on the latency window                                      *)
(* ================================================================== *)

Lemma last_entries_short (A : Type) (n : nat) (l : list A) :
  (List.length l <= n)%nat -> Spec.last_entries n l = l.
Proof.
  intros H. unfold Spec.last_entries.
  replace (List.length l - n)%nat with 0%nat by lia. reflexivity.
Qed.

Lemma last_entries_app_skip (A : Type) (n k : nat) (l r : list A) :
  (n <= List.length l - k + List.length r)%nat ->
  Spec.last_entries n (skipn k l ++ r) = Spec.last_entries n (l ++ r).
Proof.
  intros H. unfold Spec.last_entries.
  destruct (Nat.le_gt_cases k (List.length l)) as [Hk|Hk].
  - rewrite !length_app, length_skipn.
    replace (skipn k l ++ r)%list with (skipn k (l ++ r)).
    + rewrite skipn_skipn. f_equal. lia.
    + rewrite skipn_app. replace (k - List.length l)%nat with 0%nat by lia.
      reflexivity.
  - assert (E : skipn k l = []) by (apply skipn_all2; lia).
    rewrite E. simpl.
    rewrite length_app.
    replace (List.length l + List.length r - n)%nat
      with (List.length l + (List.length r - n))%nat by lia.
    rewrite skipn_app.
    assert (E' : skipn (List.length l + (List.length r - n)) l = [])
      by (apply skipn_all2; lia).
    rewrite E'. simpl. f_equal. lia.
Qed.

Lemma last_entries_push (A : Type) (l r : list A) (x : A) :
  Spec.last_entries 30 ((Spec.last_entries 29 l ++ [x]) ++ r)
  = Spec.last_entries 30 (l ++ x :: r).
Proof.
  rewrite <- app_assoc. simpl. unfold Spec.last_entries at 2.
  destruct (Nat.le_gt_cases 29 (List.length l)) as [H|H].
  - apply last_entries_app_skip. simpl. lia.
  - replace (List.length l - 29)%nat with 0%nat by lia. reflexivity.
Qed.

Lemma run_cons (ev : ScribePage.Event) (evs : list ScribePage.Event)
  (st : ScribePage.State) :
  ScribePage.run (ev :: evs) st = ScribePage.run evs (ScribePage.handle ev st).
Proof. reflexivity. Qed.

Lemma window_is_recent (evs : list ScribePage.Event) :
  forall st : ScribePage.State,
    Spec.last_entries 30
      (ScribePage.latenciesMs (ScribePage.recording (ScribePage.run evs st)))
    = Spec.last_entries 30
        (ScribePage.latenciesMs (ScribePage.recording st)
         ++ Trace.recordedLatencies st evs).
Proof.
  induction evs as [|ev evs IH]; intros st.
  - simpl. rewrite app_nil_r. reflexivity.
  - rewrite run_cons, IH. simpl Trace.recordedLatencies.
    destruct (ScribePage.measuresFrom ev st) as [start|] eqn:Hm.
    + destruct (measuresFrom_records _ _ Hm) as (_ & -> & _).
      destruct (pushLatency_window (JS.sub (ScribePage.timeOf ev) start)
                  (ScribePage.recording st)) as [-> _].
      apply last_entries_push.
    + rewrite (measuresFrom_none _ _ Hm). reflexivity.
Qed.

Lemma latencies_of_run_from (evs : list ScribePage.Event)
  (st : ScribePage.State) :
  (List.length (ScribePage.latenciesMs (ScribePage.recording st)) <= 30)%nat ->
  ScribePage.latenciesMs (ScribePage.recording (ScribePage.run evs st))
  = Spec.last_entries 30
      (ScribePage.latenciesMs (ScribePage.recording st)
       ++ Trace.recordedLatencies st evs).
Proof.
  intros Hst.
  rewrite <- (last_entries_short (n := 30)
                (ScribePage.latenciesMs
                   (ScribePage.recording (ScribePage.run evs st)))).
  - apply window_is_recent.
  - apply run_window. exact Hst.
Qed.

(** X1.  The latency window holds exactly the most recent measurements:
    after any run of ticks and transcript events from the initial state,
    [latenciesMs] is the last 30 of all the latencies recorded during the
    run, in the order in which they were recorded. *)
Theorem window_holds_latest_measurements :
  forall evs : list ScribePage.Event,
    ScribePage.latenciesMs
      (ScribePage.recording (ScribePage.run evs ScribePage.initial))
    = Spec.last_entries 30 (Trace.recordedLatencies ScribePage.initial evs).
Proof.
  intros evs.
  rewrite <- (last_entries_short (n := 30)
                (ScribePage.latenciesMs
                   (ScribePage.recording (ScribePage.run evs ScribePage.initial)))).
  - apply (window_is_recent evs ScribePage.initial).
  - apply run_window. simpl. lia.
Qed.

Lemma ticks_bound_measurements (evs : list ScribePage.Event) :
  forall st : ScribePage.State,
    (List.length (Trace.recordedLatencies st evs)
     + Trace.waiting (ScribePage.run evs st)
     <= Trace.countTicks evs + Trace.waiting st)%nat.
Proof.
  induction evs as [|ev evs IH]; intros st; [simpl; lia|].
  rewrite run_cons. specialize (IH (ScribePage.handle ev st)).
  simpl Trace.recordedLatencies. rewrite length_app.
  unfold Trace.waiting in *.
  destruct (ScribePage.measuresFrom ev st) as [start|] eqn:Hm.
  - destruct (measuresFrom_records _ _ Hm) as (Hs & _ & Hn).
    rewrite Hn in IH. rewrite Hs.
    assert (Ht : Trace.countTicks (ev :: evs) = Trace.countTicks evs)
      by (destruct ev; [discriminate Hm | reflexivity | reflexivity]).
    rewrite Ht. simpl List.length. lia.
  - simpl List.length.
    destruct ev as [now | d now | d now];
      cbn [ScribePage.handle Trace.countTicks] in *.
    + assert (E : exists t, ScribePage.segmentStartMsRef (ScribePage.tick now st)
                            = Some t).
      { unfold ScribePage.tick.
        destruct (ScribePage.segmentStartMsRef st) eqn:Es; simpl; eauto. }
      destruct E as [t E]. rewrite E in IH.
      destruct (ScribePage.segmentStartMsRef st); lia.
    + assert (E : ScribePage.segmentStartMsRef
                    (ScribePage.onPartialTranscript d now st)
                  = ScribePage.segmentStartMsRef st).
      { revert Hm.
        unfold ScribePage.measuresFrom, ScribePage.onPartialTranscript.
        cbv zeta.
        destruct (String.eqb _ _); [reflexivity|].
        destruct (0 <? _)%nat.
        - intros ->. reflexivity.
        - intros _. destruct (ScribePage.segmentStartMsRef st); reflexivity. }
      rewrite E in IH. lia.
    + assert (E : ScribePage.segmentStartMsRef
                    (ScribePage.onFinalTranscript d now st) = None).
      { unfold ScribePage.onFinalTranscript.
        destruct (ScribePage.segmentStartMsRef st); [|reflexivity].
        destruct (ScribePage.hasText d); reflexivity. }
      rewrite E in IH. destruct (ScribePage.segmentStartMsRef st); lia.
Qed.

(** X2.  Each measurement uses up a tick: in any run that starts with a
    null segment start, the number of latencies recorded is at most the
    number of ticks of the audio-chunk interval, and strictly less while
    a segment start is waiting to be measured from. *)
Theorem measurements_bounded_by_ticks :
  forall (st : ScribePage.State) (evs : list ScribePage.Event),
    ScribePage.segmentStartMsRef st = None ->
    (List.length (Trace.recordedLatencies st evs) <= Trace.countTicks evs)%nat
    /\ (ScribePage.segmentStartMsRef (ScribePage.run evs st) <> None ->
        (List.length (Trace.recordedLatencies st evs) < Trace.countTicks evs)%nat).
Proof.
  intros st evs H0. pose proof (ticks_bound_measurements evs st) as H.
  unfold Trace.waiting in H. rewrite H0 in H. split.
  - destruct (ScribePage.segmentStartMsRef (ScribePage.run evs st)); lia.
  - intros Hs. destruct (ScribePage.segmentStartMsRef (ScribePage.run evs st));
      [lia | contradiction].
Qed.

Lemma measurements_bounded_by_ticks_witness :
  (List.length
     (Trace.recordedLatencies ScribePage.initial Scenarios.threeMeasurements)
   <= Trace.countTicks Scenarios.threeMeasurements)%nat
  /\ Trace.recordedLatencies ScribePage.initial Scenarios.threeMeasurements
     = [Samples.ms 10; Samples.ms 150; Samples.ms 120].
Proof.
  split.
  - apply (measurements_bounded_by_ticks ScribePage.initial
             Scenarios.threeMeasurements eq_refl).
  - vm_compute. reflexivity.
Defined.
(* ================================================================== *)
(** ** The WebSocket transcriber: stopping, starting, closing          *)
(* ================================================================== *)

Lemma truthy_nonempty (s : string) : JS.truthy s = true <-> s <> ""%string.
Proof.
  destruct s; simpl; split; intros H; try congruence; discriminate.
Qed.

Lemma truthy_empty (s : string) : JS.truthy s = false <-> s = ""%string.
Proof.
  destruct s; simpl; split; intros H; try congruence; discriminate.
Qed.

Lemma or_else_empty_l (s : string) : JS.or_else "" s = s.
Proof. reflexivity. Qed.

Lemma or_else_empty_r (s : string) : JS.or_else s "" = s.
Proof. destruct s; reflexivity. Qed.

Lemma readyStateOpen_release (b : WsControl.Browser)
  (ws : WsTranscriber.WebSocket) :
  WsControl.readyStateOpen
    (WsControl.releaseAudioContext (WsControl.releaseProcessor b)) ws
  = WsControl.readyStateOpen b ws.
Proof.
  unfold WsControl.releaseAudioContext, WsControl.releaseProcessor.
  destruct (WsTranscriber.processorRef (WsControl.world b)); simpl;
    destruct (WsTranscriber.audioContextRef (WsControl.world b)); reflexivity.
Qed.

Lemma websocketRef_release (b : WsControl.Browser) :
  WsTranscriber.websocketRef
    (WsControl.world
       (WsControl.releaseAudioContext (WsControl.releaseProcessor b)))
  = WsTranscriber.websocketRef (WsControl.world b).
Proof.
  unfold WsControl.releaseAudioContext, WsControl.releaseProcessor.
  destruct (WsTranscriber.processorRef (WsControl.world b)); simpl;
    destruct (WsTranscriber.audioContextRef (WsControl.world b)); reflexivity.
Qed.

Lemma sent_release (b : WsControl.Browser) :
  WsControl.sent
    (WsControl.releaseAudioContext (WsControl.releaseProcessor b))
  = WsControl.sent b.
Proof.
  unfold WsControl.releaseAudioContext, WsControl.releaseProcessor.
  destruct (WsTranscriber.processorRef (WsControl.world b)); simpl;
    destruct (WsTranscriber.audioContextRef (WsControl.world b)); reflexivity.
Qed.

(** The world [stopRecording] leaves, whatever it sends. *)
Lemma stopRecording_world (b : WsControl.Browser) :
  WsControl.world (WsControl.stopRecording b)
  = WsTranscriber.updateRecording
      {| WsTranscriber.u_isRecording := Some false;
         WsTranscriber.u_isProcessing := Some true;
         WsTranscriber.u_isConnecting := None;
         WsTranscriber.u_transcript := None;
         WsTranscriber.u_partialTranscript := None;
         WsTranscriber.u_error := None |}
      (WsTranscriber.cleanupStream
         (WsControl.world
            (WsControl.releaseAudioContext (WsControl.releaseProcessor b)))).
Proof.
  unfold WsControl.stopRecording, WsControl.sendCommit.
  cbv zeta.
  destruct (WsTranscriber.websocketRef _) as [ws|]; [|reflexivity].
  destruct (WsControl.readyStateOpen _ ws); reflexivity.
Qed.

Lemma stopRecording_sent (b : WsControl.Browser) :
  WsControl.sent (WsControl.stopRecording b)
  = match WsTranscriber.websocketRef (WsControl.world b) with
    | Some ws =>
        if WsControl.readyStateOpen b ws
        then (ws, WsControl.commitMessage) :: WsControl.sent b
        else WsControl.sent b
    | None => WsControl.sent b
    end.
Proof.
  unfold WsControl.stopRecording, WsControl.sendCommit.
  cbv zeta. rewrite websocketRef_release.
  destruct (WsTranscriber.websocketRef (WsControl.world b)) as [ws|].
  - rewrite readyStateOpen_release.
    destruct (WsControl.readyStateOpen b ws); simpl;
      rewrite ?sent_release; reflexivity.
  - simpl. apply sent_release.
Qed.

Lemma stopRecording_opened (b : WsControl.Browser) :
  WsControl.openedSockets (WsControl.stopRecording b)
  = WsControl.openedSockets b.
Proof.
  unfold WsControl.stopRecording, WsControl.sendCommit.
  cbv zeta.
  unfold WsControl.releaseAudioContext, WsControl.releaseProcessor.
  destruct (WsTranscriber.processorRef (WsControl.world b)); simpl;
    destruct (WsTranscriber.audioContextRef (WsControl.world b)); simpl;
    destruct (WsTranscriber.websocketRef (WsControl.world b)) as [ws|];
    simpl; try reflexivity;
    destruct (WsControl.readyStateOpen _ ws); reflexivity.
Qed.

Lemma stopRecording_ended (b : WsControl.Browser) :
  WsControl.endedSockets (WsControl.stopRecording b)
  = WsControl.endedSockets b.
Proof.
  unfold WsControl.stopRecording, WsControl.sendCommit.
  cbv zeta.
  unfold WsControl.releaseAudioContext, WsControl.releaseProcessor.
  destruct (WsTranscriber.processorRef (WsControl.world b)); simpl;
    destruct (WsTranscriber.audioContextRef (WsControl.world b)); simpl;
    destruct (WsTranscriber.websocketRef (WsControl.world b)) as [ws|];
    simpl; try reflexivity;
    destruct (WsControl.readyStateOpen _ ws); reflexivity.
Qed.

Lemma readyStateOpen_isOpen (b : WsControl.Browser)
  (ws : WsTranscriber.WebSocket) :
  WsControl.readyStateOpen b ws = true ->
  WsTranscriber.isOpen (WsControl.world b) ws = true.
Proof.
  unfold WsControl.readyStateOpen. intros H.
  apply andb_true_iff in H. destruct H as [H _].
  apply andb_true_iff in H. exact (proj2 H).
Qed.

Lemma readyStateOpen_closed (b : WsControl.Browser)
  (ws : WsTranscriber.WebSocket) :
  WsTranscriber.isOpen (WsControl.world b) ws = false ->
  WsControl.readyStateOpen b ws = false.
Proof.
  unfold WsControl.readyStateOpen. intros ->.
  rewrite andb_false_r. reflexivity.
Qed.

(** What [stopRecording] does to the refs and to the recording state. *)
Lemma stopRecording_state (b : WsControl.Browser) :
  let w := WsControl.world b in
  let w' := WsControl.world (WsControl.stopRecording b) in
  WsTranscriber.recording w'
  = {| WsTranscriber.isRecording := false;
       WsTranscriber.isProcessing := true;
       WsTranscriber.isConnecting :=
         WsTranscriber.isConnecting (WsTranscriber.recording w);
       WsTranscriber.transcript :=
         WsTranscriber.transcript (WsTranscriber.recording w);
       WsTranscriber.partialTranscript :=
         WsTranscriber.partialTranscript (WsTranscriber.recording w);
       WsTranscriber.error := WsTranscriber.error (WsTranscriber.recording w) |}
  /\ WsTranscriber.websocketRef w' = WsTranscriber.websocketRef w
  /\ WsTranscriber.closedSockets w' = WsTranscriber.closedSockets w
  /\ WsTranscriber.streamRef w' = None
  /\ WsTranscriber.processorRef w' = None
  /\ WsTranscriber.audioContextRef w' = None
  /\ WsTranscriber.stoppedStreams w'
     = match WsTranscriber.streamRef w with
       | Some s => s :: WsTranscriber.stoppedStreams w
       | None => WsTranscriber.stoppedStreams w
       end.
Proof.
  cbv zeta. rewrite stopRecording_world.
  unfold WsControl.releaseAudioContext, WsControl.releaseProcessor,
    WsTranscriber.cleanupStream, WsTranscriber.updateRecording.
  destruct b as [w os es se dn cc]. destruct w as [r wr sr ar pr cs ss nn].
  simpl. destruct pr, ar, sr; simpl; repeat split; reflexivity.
Qed.

(** X3.  [stopRecording] asks the server to finalize exactly when the
    socket of the session is open: then one commit message with empty
    audio is sent on it, and otherwise nothing is sent.  In both cases
    the microphone stream is stopped, the audio nodes are released, the
    socket is left as it is, and the state becomes "processing". *)
Theorem stopRecording_commits_on_open_socket :
  forall b : WsControl.Browser,
    let w := WsControl.world b in
    let stopped := WsControl.stopRecording b in
    (forall ws,
        WsTranscriber.websocketRef w = Some ws ->
        WsControl.readyStateOpen b ws = true ->
        WsControl.sent stopped
        = (ws, {| WsControl.audio_base_64 := ""; WsControl.commit := true |})
            :: WsControl.sent b)
    /\ ((forall ws,
            WsTranscriber.websocketRef w = Some ws ->
            WsControl.readyStateOpen b ws = false) ->
        WsControl.sent stopped = WsControl.sent b)
    /\ WsTranscriber.isRecording
         (WsTranscriber.recording (WsControl.world stopped)) = false
    /\ WsTranscriber.isProcessing
         (WsTranscriber.recording (WsControl.world stopped)) = true
    /\ WsTranscriber.streamRef (WsControl.world stopped) = None
    /\ (forall s,
           WsTranscriber.streamRef w = Some s ->
           In s (WsTranscriber.stoppedStreams (WsControl.world stopped)))
    /\ WsTranscriber.processorRef (WsControl.world stopped) = None
    /\ WsTranscriber.audioContextRef (WsControl.world stopped) = None
    /\ WsTranscriber.websocketRef (WsControl.world stopped)
       = WsTranscriber.websocketRef w
    /\ (forall ws,
           WsControl.readyStateOpen stopped ws = WsControl.readyStateOpen b ws).
Proof.
  intros b. cbv zeta.
  destruct (stopRecording_state b) as (Hr & Hw & Hc & Hs & Hp & Ha & Hst).
  split; [|split; [|split; [|split; [|split; [|split; [|split; [|split;
    [|split]]]]]]]].
  - intros ws Hws Hopen. rewrite stopRecording_sent, Hws, Hopen. reflexivity.
  - intros Hclosed. rewrite stopRecording_sent.
    destruct (WsTranscriber.websocketRef (WsControl.world b)) as [ws|];
      [|reflexivity].
    rewrite (Hclosed ws eq_refl). reflexivity.
  - rewrite Hr. reflexivity.
  - rewrite Hr. reflexivity.
  - exact Hs.
  - intros s Hsome. rewrite Hst, Hsome. left. reflexivity.
  - exact Hp.
  - exact Ha.
  - exact Hw.
  - intros ws. unfold WsControl.readyStateOpen, WsTranscriber.isOpen.
    rewrite stopRecording_opened, stopRecording_ended, Hc. reflexivity.
Qed.

Lemma stopRecording_commits_on_open_socket_witness :
  WsControl.sent
    (WsControl.stopRecording Scenarios.recordingBrowser)
  = [(7%nat, WsControl.commitMessage)]
  /\ WsTranscriber.stoppedStreams
       (WsControl.world (WsControl.stopRecording Scenarios.recordingBrowser))
     = [3%nat].
Proof.
  destruct (stopRecording_commits_on_open_socket Scenarios.recordingBrowser)
    as (Hopen & _).
  split.
  - apply (Hopen 7%nat); reflexivity.
  - reflexivity.
Defined.

Lemma handleKeyDown_starts (r : WsTranscriber.RecordingState)
  (e : DOM.KeyboardEvent) :
  WsTranscriber.isRecording r = false ->
  WsTranscriber.isConnecting r = false ->
  WsTranscriber.isProcessing r = false ->
  DOM.altKey e = true ->
  DOM.outsideTextField (DOM.target e) = true ->
  WsTranscriber.handleKeyDown r e
  = [WsTranscriber.preventDefault; WsTranscriber.startRecording].
Proof.
  intros H1 H2 H3 H4 H5. unfold WsTranscriber.handleKeyDown.
  rewrite H1, H2, H3, H4, H5. reflexivity.
Qed.

Lemma handleKeyDown_busy (r : WsTranscriber.RecordingState)
  (e : DOM.KeyboardEvent) :
  WsTranscriber.isRecording r || WsTranscriber.isConnecting r
  || WsTranscriber.isProcessing r = true ->
  WsTranscriber.handleKeyDown r e = [].
Proof.
  intros H. unfold WsTranscriber.handleKeyDown.
  destruct (WsTranscriber.isRecording r), (WsTranscriber.isConnecting r),
    (WsTranscriber.isProcessing r); try discriminate H;
    rewrite ?andb_false_r; reflexivity.
Qed.

(** X4.  A recording that is stopped while its socket is open ends with
    the final transcript: the commit is the last message sent, the final
    transcript the server answers with becomes the transcript, the socket
    is closed and forgotten, and the component is idle again, so that
    pressing Alt outside a text field starts the next recording. *)
Theorem stop_then_final_transcript_returns_to_idle :
  forall (b : WsControl.Browser) (ws : WsTranscriber.WebSocket) (t : string),
    WsTranscriber.websocketRef (WsControl.world b) = Some ws ->
    WsControl.readyStateOpen b ws = true ->
    WsTranscriber.isConnecting (WsTranscriber.recording (WsControl.world b))
    = false ->
    let finished :=
      WsControl.deliver ws
        (WsTranscriber.Message (WsTranscriber.final_transcript t))
        (WsControl.stopRecording b) in
    let r := WsTranscriber.recording (WsControl.world finished) in
    WsControl.sent finished = (ws, WsControl.commitMessage) :: WsControl.sent b
    /\ WsTranscriber.transcript r = t
    /\ WsTranscriber.partialTranscript r = ""%string
    /\ WsTranscriber.error r
       = WsTranscriber.error (WsTranscriber.recording (WsControl.world b))
    /\ WsTranscriber.isRecording r = false
    /\ WsTranscriber.isProcessing r = false
    /\ WsTranscriber.websocketRef (WsControl.world finished) = None
    /\ WsControl.readyStateOpen finished ws = false
    /\ (forall e : DOM.KeyboardEvent,
           DOM.altKey e = true ->
           DOM.outsideTextField (DOM.target e) = true ->
           WsTranscriber.handleKeyDown r e
           = [WsTranscriber.preventDefault; WsTranscriber.startRecording]).
Proof.
  intros b ws t Hws Hopen Hconn. cbv zeta.
  destruct (stopRecording_state b) as (Hr & Hw & Hc & _).
  assert (Hopen' : WsTranscriber.isOpen
                     (WsControl.world (WsControl.stopRecording b)) ws = true).
  { pose proof (readyStateOpen_isOpen _ _ Hopen) as Ho.
    unfold WsTranscriber.isOpen in *. rewrite Hc. exact Ho. }
  assert (Hfin : WsControl.world
                   (WsControl.deliver ws
                      (WsTranscriber.Message (WsTranscriber.final_transcript t))
                      (WsControl.stopRecording b))
                 = WsTranscriber.onmessage
                     (WsTranscriber.Message (WsTranscriber.final_transcript t))
                     (WsControl.world (WsControl.stopRecording b))).
  { unfold WsControl.deliver, WsTranscriber.dispatchMessage.
    rewrite Hopen'. reflexivity. }
  assert (Hrec : WsTranscriber.recording
                   (WsTranscriber.onmessage
                      (WsTranscriber.Message (WsTranscriber.final_transcript t))
                      (WsControl.world (WsControl.stopRecording b)))
                 = {| WsTranscriber.isRecording := false;
                      WsTranscriber.isProcessing := false;
                      WsTranscriber.isConnecting := false;
                      WsTranscriber.transcript := t;
                      WsTranscriber.partialTranscript := "";
                      WsTranscriber.error :=
                        WsTranscriber.error
                          (WsTranscriber.recording (WsControl.world b)) |}).
  { unfold WsTranscriber.onmessage. rewrite cleanupWebSocket_recording.
    unfold WsTranscriber.updateRecording, WsTranscriber.setRecording.
    cbn [WsTranscriber.recording].
    rewrite Hr. unfold WsTranscriber.merge. simpl. rewrite Hconn.
    reflexivity. }
  rewrite Hfin, Hrec.
  cbn [WsTranscriber.transcript WsTranscriber.partialTranscript
       WsTranscriber.error WsTranscriber.isRecording
       WsTranscriber.isProcessing].
  split.
  { unfold WsControl.deliver, WsControl.setWorld. cbn [WsControl.sent].
    rewrite stopRecording_sent, Hws, Hopen. reflexivity. }
  split; [reflexivity|]. split; [reflexivity|].
  split; [reflexivity|]. split; [reflexivity|]. split; [reflexivity|].
  split; [|split].
  - apply cleanupWebSocket_ref.
  - apply readyStateOpen_closed. rewrite Hfin.
    assert (Hcl : WsTranscriber.isOpen
                    (WsTranscriber.onmessage
                       (WsTranscriber.Message
                          (WsTranscriber.final_transcript t))
                       (WsControl.world (WsControl.stopRecording b))) ws
                  = false).
    { unfold WsTranscriber.onmessage. apply cleanupWebSocket_closes.
      unfold WsTranscriber.updateRecording, WsTranscriber.setRecording.
      cbn [WsTranscriber.websocketRef]. rewrite Hw. exact Hws. }
    exact Hcl.
  - intros e Ha Ho. apply handleKeyDown_starts; try assumption; reflexivity.
Qed.

Lemma stop_then_final_transcript_returns_to_idle_witness :
  let finished :=
    WsControl.deliver 7%nat
      (WsTranscriber.Message (WsTranscriber.final_transcript "hello world"))
      (WsControl.stopRecording Scenarios.recordingBrowser) in
  WsControl.sent finished = [(7%nat, WsControl.commitMessage)]
  /\ WsTranscriber.displayText
       (WsTranscriber.recording (WsControl.world finished))
     = "hello world"%string
  /\ WsTranscriber.handleKeyDown
       (WsTranscriber.recording (WsControl.world finished)) Scenarios.altDown
     = [WsTranscriber.preventDefault; WsTranscriber.startRecording].
Proof.
  cbv zeta.
  destruct (@stop_then_final_transcript_returns_to_idle
              Scenarios.recordingBrowser 7%nat "hello world"
              eq_refl eq_refl eq_refl)
    as (Hsent & _ & _ & _ & _ & _ & _ & _ & Hkey).
  split; [exact Hsent|]. split; [reflexivity|].
  apply Hkey; reflexivity.
Defined.

(** X5.  The key handlers act once.  A state in which a key press starts
    a recording is one in which a key release does nothing; once
    [startRecording] has begun, further key presses (key repeat while Alt
    is held) are ignored; and once [stopRecording] has run, neither a
    press nor a release does anything until the state changes again. *)
Theorem key_handlers_act_once :
  (forall (r : WsTranscriber.RecordingState) (e e' : DOM.KeyboardEvent),
      WsTranscriber.handleKeyDown r e <> [] ->
      WsTranscriber.handleKeyUp r e' = [])
  /\ (forall (b : WsControl.Browser) (e : DOM.KeyboardEvent),
         WsTranscriber.handleKeyDown
           (WsTranscriber.recording
              (WsControl.world (WsControl.startRecording_begin b))) e = [])
  /\ (forall (w : WsTranscriber.World) (e : DOM.KeyboardEvent),
         WsTranscriber.handleKeyDown
           (WsTranscriber.recording
              (WsTranscriber.onmessage
                 (WsTranscriber.Message WsTranscriber.session_started) w)) e
         = [])
  /\ (forall (b : WsControl.Browser) (e : DOM.KeyboardEvent),
         WsTranscriber.handleKeyDown
           (WsTranscriber.recording
              (WsControl.world (WsControl.stopRecording b))) e = []
         /\ WsTranscriber.handleKeyUp
              (WsTranscriber.recording
                 (WsControl.world (WsControl.stopRecording b))) e = []).
Proof.
  split; [|split; [|split]].
  - intros r e e' H. unfold WsTranscriber.handleKeyUp.
    destruct (WsTranscriber.isRecording r) eqn:Hr;
      [|rewrite andb_false_r; reflexivity].
    exfalso. apply H. apply handleKeyDown_busy. rewrite Hr. reflexivity.
  - intros b e. apply handleKeyDown_busy. simpl.
    rewrite orb_true_r. reflexivity.
  - intros w e. apply handleKeyDown_busy. reflexivity.
  - intros b e. destruct (stopRecording_state b) as (Hr & _).
    rewrite Hr. split.
    + apply handleKeyDown_busy. simpl. apply orb_true_r.
    + unfold WsTranscriber.handleKeyUp. simpl.
      rewrite andb_false_r. reflexivity.
Qed.

Lemma key_handlers_act_once_witness :
  WsTranscriber.handleKeyDown
    (WsTranscriber.recording Scenarios.idleWorld) Scenarios.altDown
  = [WsTranscriber.preventDefault; WsTranscriber.startRecording]
  /\ WsTranscriber.handleKeyUp
       (WsTranscriber.recording Scenarios.idleWorld) Scenarios.altUp = [].
Proof.
  split; [reflexivity|].
  destruct key_handlers_act_once as (H & _).
  apply (H _ Scenarios.altDown). discriminate.
Defined.

Lemma startRecording_catch_state (message : option string)
  (w : WsTranscriber.World) :
  let w' := WsControl.startRecording_catch message w in
  WsTranscriber.recording w'
  = {| WsTranscriber.isRecording := false;
       WsTranscriber.isProcessing :=
         WsTranscriber.isProcessing (WsTranscriber.recording w);
       WsTranscriber.isConnecting := false;
       WsTranscriber.transcript :=
         WsTranscriber.transcript (WsTranscriber.recording w);
       WsTranscriber.partialTranscript :=
         WsTranscriber.partialTranscript (WsTranscriber.recording w);
       WsTranscriber.error := WsControl.failureText message |}
  /\ WsTranscriber.streamRef w' = None
  /\ WsTranscriber.websocketRef w' = None
  /\ (forall s, WsTranscriber.streamRef w = Some s ->
                In s (WsTranscriber.stoppedStreams w'))
  /\ (forall ws, WsTranscriber.websocketRef w = Some ws ->
                 In ws (WsTranscriber.closedSockets w')).
Proof.
  destruct w as [r wr sr ar pr cs ss nn].
  unfold WsControl.startRecording_catch, WsTranscriber.cleanupWebSocket,
    WsTranscriber.cleanupStream, WsTranscriber.updateRecording.
  destruct message, sr, wr; simpl; repeat split; intros x Hx;
    inversion Hx; left; reflexivity.
Qed.

(** X6.  A start that fails ends idle with the failure shown.  When
    [startRecording] runs in a state that is not processing (as
    [handleKeyDown] requires) and [getUserMedia] rejects, or the socket
    cannot be created, what is displayed is the message of the error (or
    "Failed to start recording" when the value thrown is not an
    [Error]), the stream that had been obtained is stopped, no stream
    and no socket are kept, and pressing Alt outside a text field starts
    again. *)
Theorem failed_start_returns_to_idle :
  forall (b : WsControl.Browser) (o : WsControl.Outcome)
         (message : option string),
    WsControl.thrown o = Some message ->
    WsTranscriber.isProcessing (WsTranscriber.recording (WsControl.world b))
    = false ->
    let failed := WsControl.world (WsControl.startRecording o b) in
    let r := WsTranscriber.recording failed in
    WsTranscriber.error r = WsControl.failureText message
    /\ WsTranscriber.displayText r = WsControl.failureText message
    /\ WsTranscriber.isRecording r = false
    /\ WsTranscriber.isConnecting r = false
    /\ WsTranscriber.streamRef failed = None
    /\ WsTranscriber.websocketRef failed = None
    /\ (forall stream m,
           o = WsControl.SocketThrows stream m ->
           In stream (WsTranscriber.stoppedStreams failed))
    /\ (forall e : DOM.KeyboardEvent,
           DOM.altKey e = true ->
           DOM.outsideTextField (DOM.target e) = true ->
           WsTranscriber.handleKeyDown r e
           = [WsTranscriber.preventDefault; WsTranscriber.startRecording]).
Proof.
  intros b o message Ho Hproc. cbv zeta.
  assert (Hw : exists w0,
             WsControl.world (WsControl.startRecording o b)
             = WsControl.startRecording_catch message w0
             /\ WsTranscriber.recording w0
                = WsTranscriber.recording
                    (WsControl.world (WsControl.startRecording_begin b))
             /\ (forall stream m, o = WsControl.SocketThrows stream m ->
                                  WsTranscriber.streamRef w0 = Some stream)).
  { destruct o as [m | stream m | stream ws]; simpl in Ho;
      inversion Ho; subst.
    - eexists. split; [reflexivity|]. split; [reflexivity|].
      intros ? ? H; discriminate H.
    - eexists. split; [reflexivity|]. split; [reflexivity|].
      intros ? ? H; inversion H; reflexivity. }
  destruct Hw as (w0 & -> & Hrec & Hstream).
  destruct (startRecording_catch_state message w0)
    as (Hr & Hs & Hws & Hstopped & _).
  rewrite Hr, Hrec. simpl. rewrite Hproc.
  split; [reflexivity|]. split.
  { unfold WsTranscriber.displayText. simpl. apply or_else_empty_r. }
  split; [reflexivity|]. split; [reflexivity|].
  split; [exact Hs|]. split; [exact Hws|]. split.
  - intros stream m Hom. apply Hstopped. exact (Hstream _ _ Hom).
  - intros e Ha Ht. apply handleKeyDown_starts; try assumption; reflexivity.
Qed.

Lemma failed_start_returns_to_idle_witness :
  WsTranscriber.displayText
    (WsTranscriber.recording
       (WsControl.world
          (WsControl.startRecording
             (WsControl.SocketThrows 3%nat None) Scenarios.idleBrowser)))
  = "Failed to start recording"%string
  /\ In 3%nat
       (WsTranscriber.stoppedStreams
          (WsControl.world
             (WsControl.startRecording
                (WsControl.SocketThrows 3%nat None) Scenarios.idleBrowser))).
Proof.
  destruct (@failed_start_returns_to_idle Scenarios.idleBrowser
              (WsControl.SocketThrows 3%nat None) None eq_refl eq_refl)
    as (_ & Hd & _ & _ & _ & _ & Hs & _).
  split; [exact Hd|]. apply (Hs 3%nat None). reflexivity.
Defined.

Lemma onaudioprocess_closed (ws : WsTranscriber.WebSocket) (base64 : string)
  (b : WsControl.Browser) :
  WsTranscriber.isOpen (WsControl.world b) ws = false ->
  WsControl.onaudioprocess ws base64 b = b.
Proof.
  intros H. unfold WsControl.onaudioprocess.
  rewrite (readyStateOpen_closed _ _ H). reflexivity.
Qed.

(** X7.  No audio goes out on a socket the component has closed.  While
    the socket of the session is open each audio callback sends one
    chunk, with [commit] false.  Once a final transcript or an error
    message has been handled on it, or [onerror] has run, the callback
    sends nothing; a server error leaves the processor, the audio context
    and the stream in place, so the callbacks go on and are dropped. *)
Theorem no_audio_after_socket_closed :
  forall (b : WsControl.Browser) (ws : WsTranscriber.WebSocket)
         (base64 : string),
    WsTranscriber.websocketRef (WsControl.world b) = Some ws ->
    (WsControl.readyStateOpen b ws = true ->
     WsControl.sent (WsControl.onaudioprocess ws base64 b)
     = (ws, {| WsControl.audio_base_64 := base64; WsControl.commit := false |})
         :: WsControl.sent b)
    /\ (forall t : string,
           let b' := WsControl.deliver ws
                       (WsTranscriber.Message
                          (WsTranscriber.final_transcript t)) b in
           WsControl.onaudioprocess ws base64 b' = b')
    /\ (forall e : string,
           let b' := WsControl.deliver ws
                       (WsTranscriber.Message (WsTranscriber.error_message e))
                       b in
           WsControl.onaudioprocess ws base64 b' = b'
           /\ WsTranscriber.processorRef (WsControl.world b')
              = WsTranscriber.processorRef (WsControl.world b)
           /\ WsTranscriber.audioContextRef (WsControl.world b')
              = WsTranscriber.audioContextRef (WsControl.world b)
           /\ WsTranscriber.streamRef (WsControl.world b')
              = WsTranscriber.streamRef (WsControl.world b))
    /\ (let b' := WsControl.setWorld
                    (WsTranscriber.onerror (WsControl.world b)) b in
        WsControl.onaudioprocess ws base64 b' = b').
Proof.
  intros b ws base64 Hws.
  assert (Hdeliver : forall m,
             (forall w, WsTranscriber.websocketRef w = Some ws ->
                        WsTranscriber.isOpen
                          (WsTranscriber.onmessage (WsTranscriber.Message m) w)
                          ws = false) ->
             WsTranscriber.isOpen
               (WsControl.world
                  (WsControl.deliver ws (WsTranscriber.Message m) b)) ws
             = false).
  { intros m Hm. unfold WsControl.deliver, WsTranscriber.dispatchMessage.
    simpl WsControl.world.
    destruct (WsTranscriber.isOpen (WsControl.world b) ws) eqn:Ho;
      [apply Hm; exact Hws | exact Ho]. }
  split; [|split; [|split]].
  - intros Hopen. unfold WsControl.onaudioprocess. rewrite Hopen. reflexivity.
  - intros t. cbv zeta. apply onaudioprocess_closed. apply Hdeliver.
    intros w Hw. unfold WsTranscriber.onmessage.
    apply cleanupWebSocket_closes. exact Hw.
  - intros e. cbv zeta. split.
    + apply onaudioprocess_closed. apply Hdeliver.
      intros w Hw. unfold WsTranscriber.onmessage.
      apply cleanupWebSocket_closes. exact Hw.
    + unfold WsControl.deliver, WsTranscriber.dispatchMessage.
      simpl WsControl.world.
      destruct (WsTranscriber.isOpen (WsControl.world b) ws);
        [|repeat split].
      unfold WsTranscriber.onmessage, WsTranscriber.cleanupWebSocket.
      simpl. rewrite Hws. simpl. repeat split.
  - cbv zeta. apply onaudioprocess_closed. simpl WsControl.world.
    unfold WsTranscriber.onerror. apply cleanupWebSocket_closes.
    rewrite cleanupStream_websocketRef. exact Hws.
Qed.

Lemma no_audio_after_socket_closed_witness :
  WsControl.sent
    (WsControl.onaudioprocess 7%nat "AAAA" Scenarios.recordingBrowser)
  = [(7%nat,
      {| WsControl.audio_base_64 := "AAAA"; WsControl.commit := false |})]
  /\ WsControl.sent
       (WsControl.onaudioprocess 7%nat "AAAA"
          (WsControl.deliver 7%nat
             (WsTranscriber.Message (WsTranscriber.error_message "busy"))
             Scenarios.recordingBrowser))
     = [].
Proof.
  destruct (@no_audio_after_socket_closed Scenarios.recordingBrowser 7%nat
              "AAAA" eq_refl) as (Hopen & _ & Herr & _).
  split.
  - apply Hopen. reflexivity.
  - destruct (Herr "busy"%string) as (-> & _). reflexivity.
Defined.

Lemma recordingSounds_alternate (renders : list bool) :
  forall prev : bool,
    exists n : nat,
      fst (WsControl.recordingSounds renders prev)
      = (if prev then Trace.endStart n else Trace.startEnd n)
      /\ snd (WsControl.recordingSounds renders prev) = xorb prev (Nat.odd n)
      /\ (n <= List.length renders)%nat.
Proof.
  induction renders as [|isRecording rest IH]; intros prev.
  - exists 0%nat. destruct prev; repeat split; simpl; lia.
  - simpl WsControl.recordingSounds.
    unfold WsControl.recordingEffect.
    destruct (IH isRecording) as (n & Hs & Hp & Hn).
    destruct (WsControl.recordingSounds rest isRecording) as [s' prev'].
    simpl in Hs, Hp. subst s' prev'.
    destruct isRecording, prev; simpl.
    + exists n. repeat split; [lia].
    + exists (S n). rewrite Nat.odd_succ, <- Nat.negb_odd.
      destruct (Nat.odd n); repeat split; simpl; lia.
    + exists (S n). rewrite Nat.odd_succ, <- Nat.negb_odd.
      destruct (Nat.odd n); repeat split; simpl; lia.
    + exists n. repeat split; [lia].
Qed.

(** X8.  The start and end sounds alternate.  Whatever the successive
    values of [recording.isRecording] are, the sounds played from the
    first render on are a start sound, an end sound, a start sound and so
    on: never two start sounds or two end sounds in a row, and never an
    end sound first.  Their number is odd exactly when the component is
    left recording. *)
Theorem recording_sounds_alternate :
  forall renders : list bool,
    exists n : nat,
      fst (WsControl.recordingSounds renders false) = Trace.startEnd n
      /\ snd (WsControl.recordingSounds renders false) = Nat.odd n
      /\ (n <= List.length renders)%nat.
Proof.
  intros renders.
  destruct (recordingSounds_alternate renders false) as (n & H1 & H2 & H3).
  exists n. split; [exact H1|]. split; [|exact H3].
  rewrite H2. reflexivity.
Qed.

(** X9.  The copy button copies the final transcript and nothing else.
    The transcript area shows a copy button exactly when there is no
    error, no partial transcript and a non-empty transcript, and a click
    then writes that transcript to the clipboard: an error message or a
    partial transcript is never copied. *)
Theorem copy_button_copies_final_transcript :
  forall (r : WsTranscriber.RecordingState) (s : string),
    (exists p : WsControl.TranscriptProps,
        WsControl.transcriptArea r = Some p
        /\ WsControl.copyButton p = Some s)
    <-> (WsTranscriber.error r = ""%string
         /\ WsTranscriber.partialTranscript r = ""%string
         /\ WsTranscriber.transcript r = s
         /\ s <> ""%string).
Proof.
  intros r s. unfold WsControl.transcriptArea, WsControl.copyButton,
    WsControl.hasContent, WsTranscriber.displayText, JS.or_else.
  destruct r as [ir ip ic t p e]. simpl. split.
  - intros (props & Harea & Hcopy).
    destruct e; simpl in *.
    + destruct p; simpl in *.
      * destruct t; simpl in *; [discriminate Harea|].
        inversion Harea; subst props; simpl in Hcopy.
        inversion Hcopy; subst s.
        repeat split; discriminate.
      * inversion Harea; subst props; simpl in Hcopy. discriminate Hcopy.
    + inversion Harea; subst props; simpl in Hcopy. discriminate Hcopy.
  - intros (He & Hp & Ht & Hs). subst e p t.
    destruct s as [|c s]; [contradiction Hs; reflexivity|].
    simpl. eexists. split; reflexivity.
Qed.

Lemma copy_button_copies_final_transcript_witness :
  exists p : WsControl.TranscriptProps,
    WsControl.transcriptArea
      {| WsTranscriber.isRecording := false;
         WsTranscriber.isProcessing := false;
         WsTranscriber.isConnecting := false;
         WsTranscriber.transcript := "hello world";
         WsTranscriber.partialTranscript := "";
         WsTranscriber.error := "" |} = Some p
    /\ WsControl.copyButton p = Some "hello world"%string.
Proof.
  apply copy_button_copies_final_transcript.
  repeat split. discriminate.
Defined.

(** X10.  The end of the connection is reported only when its code is
    1008, and it releases nothing.  When the connection of the session's
    socket ends, audio callbacks send nothing any more, and the handler
    of the close event leaves the transcript, the stream, the audio
    nodes and the socket ref as they are.  With code 1008 the quota
    message is what is displayed and the state is idle.  With any other
    code the recording state is left as it was, so a recording in
    progress still looks in progress; [stopRecording] then sends no
    commit, stops the stream, and leaves the component "processing", a
    state in which key presses and key releases do nothing. *)
Theorem connection_end_reported_only_for_quota :
  forall (b : WsControl.Browser) (ws : WsTranscriber.WebSocket)
         (code : nat) (base64 : string),
    WsTranscriber.websocketRef (WsControl.world b) = Some ws ->
    let w := WsControl.world b in
    let ended := WsControl.connectionEnds ws code b in
    let w' := WsControl.world ended in
    let stopped := WsControl.stopRecording ended in
    WsControl.onaudioprocess ws base64 ended = ended
    /\ (WsTranscriber.transcript (WsTranscriber.recording w')
        = WsTranscriber.transcript (WsTranscriber.recording w)
        /\ WsTranscriber.partialTranscript (WsTranscriber.recording w')
           = WsTranscriber.partialTranscript (WsTranscriber.recording w)
        /\ WsTranscriber.streamRef w' = WsTranscriber.streamRef w
        /\ WsTranscriber.stoppedStreams w' = WsTranscriber.stoppedStreams w
        /\ WsTranscriber.processorRef w' = WsTranscriber.processorRef w
        /\ WsTranscriber.audioContextRef w' = WsTranscriber.audioContextRef w
        /\ WsTranscriber.websocketRef w' = WsTranscriber.websocketRef w
        /\ WsTranscriber.closedSockets w' = WsTranscriber.closedSockets w)
    /\ (code = 1008%nat ->
        WsTranscriber.displayText (WsTranscriber.recording w')
        = "Quota exceeded. Please try again later."%string
        /\ WsTranscriber.isRecording (WsTranscriber.recording w') = false
        /\ WsTranscriber.isConnecting (WsTranscriber.recording w') = false
        /\ WsTranscriber.isProcessing (WsTranscriber.recording w') = false)
    /\ (code <> 1008%nat ->
        WsTranscriber.recording w' = WsTranscriber.recording w)
    /\ WsControl.sent stopped = WsControl.sent b
    /\ WsTranscriber.streamRef (WsControl.world stopped) = None
    /\ WsTranscriber.isProcessing
         (WsTranscriber.recording (WsControl.world stopped)) = true
    /\ (forall e : DOM.KeyboardEvent,
           WsTranscriber.handleKeyDown
             (WsTranscriber.recording (WsControl.world stopped)) e = []
           /\ WsTranscriber.handleKeyUp
                (WsTranscriber.recording (WsControl.world stopped)) e = []).
Proof.
  intros b ws code base64 Hws. cbv zeta.
  assert (Hclosed : WsControl.readyStateOpen
                      (WsControl.connectionEnds ws code b) ws = false).
  { unfold WsControl.readyStateOpen. simpl WsControl.endedSockets.
    simpl existsb. rewrite Nat.eqb_refl. simpl. apply andb_false_r. }
  assert (Hkeep :
    WsTranscriber.transcript
      (WsTranscriber.recording (WsControl.onclose code (WsControl.world b)))
    = WsTranscriber.transcript (WsTranscriber.recording (WsControl.world b))
    /\ WsTranscriber.partialTranscript
         (WsTranscriber.recording (WsControl.onclose code (WsControl.world b)))
       = WsTranscriber.partialTranscript
           (WsTranscriber.recording (WsControl.world b))
    /\ WsTranscriber.streamRef (WsControl.onclose code (WsControl.world b))
       = WsTranscriber.streamRef (WsControl.world b)
    /\ WsTranscriber.stoppedStreams (WsControl.onclose code (WsControl.world b))
       = WsTranscriber.stoppedStreams (WsControl.world b)
    /\ WsTranscriber.processorRef (WsControl.onclose code (WsControl.world b))
       = WsTranscriber.processorRef (WsControl.world b)
    /\ WsTranscriber.audioContextRef (WsControl.onclose code (WsControl.world b))
       = WsTranscriber.audioContextRef (WsControl.world b)
    /\ WsTranscriber.websocketRef (WsControl.onclose code (WsControl.world b))
       = WsTranscriber.websocketRef (WsControl.world b)
    /\ WsTranscriber.closedSockets (WsControl.onclose code (WsControl.world b))
       = WsTranscriber.closedSockets (WsControl.world b)).
  { unfold WsControl.onclose. destruct (Nat.eqb code 1008); repeat split. }
  assert (Hws' : WsTranscriber.websocketRef
                   (WsControl.world (WsControl.connectionEnds ws code b))
                 = Some ws).
  { destruct Hkeep as (_ & _ & _ & _ & _ & _ & Hk & _).
    simpl WsControl.world. rewrite Hk. exact Hws. }
  destruct (stopRecording_state (WsControl.connectionEnds ws code b))
    as (Hr & _ & _ & Hs & _).
  split; [|split; [|split; [|split; [|split; [|split; [|split]]]]]].
  - unfold WsControl.onaudioprocess. rewrite Hclosed. reflexivity.
  - exact Hkeep.
  - intros ->. simpl. repeat split.
  - intros Hcode. simpl. unfold WsControl.onclose.
    apply Nat.eqb_neq in Hcode. rewrite Hcode. reflexivity.
  - rewrite stopRecording_sent, Hws', Hclosed. reflexivity.
  - exact Hs.
  - rewrite Hr. reflexivity.
  - intros e. rewrite Hr. split.
    + apply handleKeyDown_busy. simpl. apply orb_true_r.
    + unfold WsTranscriber.handleKeyUp. simpl.
      rewrite andb_false_r. reflexivity.
Qed.

Lemma connection_end_reported_only_for_quota_witness :
  let ended := WsControl.connectionEnds 7%nat 1006 Scenarios.recordingBrowser in
  WsTranscriber.handleKeyUp
    (WsTranscriber.recording (WsControl.world ended)) Scenarios.altUp
  = [WsTranscriber.stopRecording]
  /\ WsControl.sent (WsControl.stopRecording ended) = []
  /\ WsTranscriber.displayText
       (WsTranscriber.recording
          (WsControl.world
             (WsControl.connectionEnds 7%nat 1008 Scenarios.recordingBrowser)))
     = "Quota exceeded. Please try again later."%string.
Proof.
  cbv zeta. split; [reflexivity|].
  destruct (@connection_end_reported_only_for_quota
              Scenarios.recordingBrowser 7%nat 1006%nat "AAAA" eq_refl)
    as (_ & _ & _ & _ & Hsent & _).
  destruct (@connection_end_reported_only_for_quota
              Scenarios.recordingBrowser 7%nat 1008%nat "AAAA" eq_refl)
    as (_ & _ & Hquota & _).
  split; [exact Hsent|]. apply Hquota. reflexivity.
Defined.

(* ================================================================== *)
(** ** [page.tsx]: timers, errors and the connection guard             *)
(* ================================================================== *)

Lemma timersOk_same (p p' : ScribeControl.Page) :
  ScribeControl.timers p' = ScribeControl.timers p ->
  ScribeControl.nextTimer p' = ScribeControl.nextTimer p ->
  ScribeControl.errorTimeoutRef p' = ScribeControl.errorTimeoutRef p ->
  Trace.timersOk p -> Trace.timersOk p'.
Proof.
  unfold Trace.timersOk. intros -> -> ->. tauto.
Qed.

Lemma NoDup_map_filter (A B : Type) (f : A -> B) (g : A -> bool) (l : list A) :
  NoDup (map f l) -> NoDup (map f (filter g l)).
Proof.
  induction l as [|x l IH]; simpl; intros H; [constructor|].
  inversion H as [|? ? Hx Hl]; subst.
  destruct (g x); simpl; [|apply IH; exact Hl].
  constructor; [|apply IH; exact Hl].
  intros Hin. apply Hx. apply in_map_iff in Hin.
  destruct Hin as (y & Hy & Hin). apply filter_In in Hin.
  apply in_map_iff. exists y. tauto.
Qed.

Lemma timersOk_clearTimeout (id : ScribeControl.TimerId)
  (p : ScribeControl.Page) :
  Trace.timersOk p -> Trace.timersOk (ScribeControl.clearTimeout id p).
Proof.
  intros (Hnd & Hlt & Herr). unfold Trace.timersOk. simpl.
  split; [apply NoDup_map_filter; exact Hnd|]. split.
  - intros t Ht. apply filter_In in Ht. apply Hlt. tauto.
  - intros id' msg Ht. apply filter_In in Ht. apply (Herr id' msg). tauto.
Qed.

(** Once the timer [errorTimeoutRef] holds has been cleared, no error
    message is pending. *)
Lemma no_pending_error_after_clear (p : ScribeControl.Page)
  (id : ScribeControl.TimerId) (msg : string) :
  Trace.timersOk p ->
  In (id, ScribeControl.ShowError msg)
     (ScribeControl.timers
        (match ScribeControl.errorTimeoutRef p with
         | Some old => ScribeControl.clearTimeout old p
         | None => p
         end)) ->
  False.
Proof.
  intros (_ & _ & Herr) Hin.
  destruct (ScribeControl.errorTimeoutRef p) as [old|] eqn:Hold.
  - simpl in Hin. apply filter_In in Hin. destruct Hin as [Hin Hne].
    pose proof (Herr id msg Hin) as Hid. inversion Hid; subst old.
    simpl in Hne. rewrite Pos.eqb_refl in Hne. discriminate Hne.
  - pose proof (Herr id msg Hin) as Hid. discriminate Hid.
Qed.

Lemma timersOk_setTimeout (a : ScribeControl.TimerAction)
  (p : ScribeControl.Page) :
  (forall msg, a <> ScribeControl.ShowError msg) ->
  Trace.timersOk p -> Trace.timersOk (ScribeControl.setTimeout a p).
Proof.
  intros Ha (Hnd & Hlt & Herr). unfold Trace.timersOk. simpl.
  split; [|split].
  - constructor; [|exact Hnd]. intros Hin. apply in_map_iff in Hin.
    destruct Hin as (t & Ht & Hin). specialize (Hlt t Hin). lia.
  - intros t [<- | Ht]; simpl; [lia|]. specialize (Hlt t Ht). lia.
  - intros id msg [Heq | Ht]; [|apply (Herr id msg Ht)].
    inversion Heq; subst a. exfalso. apply (Ha msg). reflexivity.
Qed.

Lemma timersOk_onError (error : option string) (p : ScribeControl.Page) :
  Trace.timersOk p -> Trace.timersOk (ScribeControl.onError error p).
Proof.
  intros Hok. unfold ScribeControl.onError. cbv zeta.
  pose proof (fun id msg => @no_pending_error_after_clear p id msg Hok)
    as Hnone.
  assert (Hok1 : Trace.timersOk
                   (match ScribeControl.errorTimeoutRef p with
                    | Some old => ScribeControl.clearTimeout old p
                    | None => p
                    end)).
  { destruct (ScribeControl.errorTimeoutRef p);
      [apply timersOk_clearTimeout|]; exact Hok. }
  set (p1 := match ScribeControl.errorTimeoutRef p with
             | Some old => ScribeControl.clearTimeout old p
             | None => p
             end) in *.
  destruct Hok1 as (Hnd & Hlt & _). unfold Trace.timersOk. simpl.
  split; [|split].
  - constructor; [|exact Hnd]. intros Hin. apply in_map_iff in Hin.
    destruct Hin as (t & Ht & Hin). specialize (Hlt t Hin). lia.
  - intros t [<- | Ht]; simpl; [lia|]. specialize (Hlt t Ht). lia.
  - intros id msg [Heq | Ht].
    + inversion Heq. reflexivity.
    + exfalso. exact (Hnone id msg Ht).
Qed.

Lemma timersOk_clearErrorTimeout (p : ScribeControl.Page) :
  Trace.timersOk p ->
  Trace.timersOk (ScribeControl.clearErrorTimeout p)
  /\ Trace.pendingErrors (ScribeControl.clearErrorTimeout p) = [].
Proof.
  intros Hok.
  pose proof (fun id msg => @no_pending_error_after_clear p id msg Hok)
    as Hnone.
  unfold ScribeControl.clearErrorTimeout.
  assert (Hempty : forall q : ScribeControl.Page,
             (forall id msg,
                 In (id, ScribeControl.ShowError msg) (ScribeControl.timers q)
                 -> False) ->
             Trace.pendingErrors q = []).
  { intros q Hq. unfold Trace.pendingErrors.
    destruct (filter _ (ScribeControl.timers q)) as [|[id a] l] eqn:Hf;
      [reflexivity|].
    assert (Hin : In (id, a) (filter
                   (fun t => match snd t with
                             | ScribeControl.ShowError _ => true
                             | _ => false
                             end) (ScribeControl.timers q)))
      by (rewrite Hf; left; reflexivity).
    apply filter_In in Hin. destruct Hin as [Hin Ha]. simpl in Ha.
    destruct a; try discriminate Ha. exfalso. exact (Hq _ _ Hin). }
  destruct (ScribeControl.errorTimeoutRef p) as [old|] eqn:Hold.
  - split.
    + pose proof (timersOk_clearTimeout old Hok) as (Hnd & Hlt & _).
      unfold Trace.timersOk. split; [exact Hnd|]. split; [exact Hlt|].
      intros id msg Hin. exfalso. exact (Hnone id msg Hin).
    + apply Hempty. intros id msg Hin. exact (Hnone id msg Hin).
  - split; [exact Hok|]. apply Hempty. exact Hnone.
Qed.

Lemma timersOk_fire (id : ScribeControl.TimerId) (isConnected : bool)
  (p : ScribeControl.Page) :
  Trace.timersOk p -> Trace.timersOk (ScribeControl.fire id isConnected p).
Proof.
  intros Hok. unfold ScribeControl.fire.
  destruct (find _ _) as [[id' a]|]; [|exact Hok].
  cbv zeta. pose proof (timersOk_clearTimeout id Hok) as Hc.
  destruct a.
  - apply (timersOk_same (p := ScribeControl.clearTimeout id p));
      try reflexivity; exact Hc.
  - apply (timersOk_same (p := ScribeControl.clearTimeout id p));
      try reflexivity; exact Hc.
  - destruct (_ && _); [|exact Hc].
    apply (timersOk_same (p := ScribeControl.clearTimeout id p));
      try reflexivity; exact Hc.
Qed.

Lemma timersOk_toggle (view : ScribeControl.ScribeView)
  (p : ScribeControl.Page) :
  Trace.timersOk p ->
  Trace.timersOk (ScribeControl.pageOf (ScribeControl.toggle view p)).
Proof.
  intros Hok. unfold ScribeControl.toggle.
  destruct (_ || _).
  - simpl ScribeControl.pageOf.
    apply timersOk_setTimeout; [intros msg; discriminate|].
    unfold ScribeControl.disconnectNow.
    eapply timersOk_same;
      [| | | apply (timersOk_clearErrorTimeout
                      (p := ScribeControl.setIsOperating true
                              (ScribeControl.setShouldBeConnected false p)))];
      try reflexivity.
    apply (timersOk_same (p := p)); try reflexivity; exact Hok.
  - destruct (ScribeControl.isOperatingRef p); [exact Hok|].
    simpl ScribeControl.pageOf.
    eapply timersOk_same;
      [| | | apply (timersOk_clearErrorTimeout
                      (p := ScribeControl.setIsOperating true
                              (ScribeControl.setShouldBeConnected true p)))];
      try reflexivity.
    apply (timersOk_same (p := p)); try reflexivity; exact Hok.
Qed.

Lemma timersOk_step (ev : ScribeControl.Event) (p : ScribeControl.Page) :
  Trace.timersOk p -> Trace.timersOk (ScribeControl.step ev p).
Proof.
  intros Hok. destruct ev as [e | error | id c | view | outcome | rejected];
    simpl ScribeControl.step.
  - apply (timersOk_same (p := p)); try reflexivity; exact Hok.
  - apply timersOk_onError; exact Hok.
  - apply timersOk_fire; exact Hok.
  - apply timersOk_toggle; exact Hok.
  - unfold ScribeControl.toggle_afterToken.
    destruct outcome as [message | result].
    + apply (timersOk_same (p := p)); try reflexivity; exact Hok.
    + destruct (negb (ScribeControl.shouldBeConnectedRef p));
        [apply (timersOk_same (p := p)); try reflexivity; exact Hok|].
      destruct (_ || _);
        apply (timersOk_same (p := p)); try reflexivity; exact Hok.
  - unfold ScribeControl.toggle_afterConnect.
    destruct rejected as [message|].
    + apply (timersOk_same (p := p)); try reflexivity; exact Hok.
    + destruct (negb (ScribeControl.shouldBeConnectedRef p)).
      * apply (timersOk_same (p := p)); try reflexivity; exact Hok.
      * apply (timersOk_same
                 (p := ScribeControl.setTimeout ScribeControl.PlayStartSound p));
          try reflexivity.
        apply timersOk_setTimeout; [intros msg; discriminate | exact Hok].
Qed.

Lemma steps_snoc (evs : list ScribeControl.Event) (ev : ScribeControl.Event)
  (p : ScribeControl.Page) :
  ScribeControl.steps (evs ++ [ev]) p
  = ScribeControl.step ev (ScribeControl.steps evs p).
Proof. unfold ScribeControl.steps. rewrite fold_left_app. reflexivity. Qed.

Lemma timersOk_initial : Trace.timersOk ScribeControl.initialPage.
Proof.
  unfold Trace.timersOk. simpl. split; [constructor|].
  split; [intros t []|intros id msg []].
Qed.

Lemma timersOk_steps (evs : list ScribeControl.Event) :
  forall p, Trace.timersOk p -> Trace.timersOk (ScribeControl.steps evs p).
Proof.
  induction evs as [|ev evs IH]; intros p Hok; [exact Hok|].
  simpl. apply IH. apply timersOk_step. exact Hok.
Qed.

Lemma pendingErrors_at_most_one (p : ScribeControl.Page) :
  Trace.timersOk p -> (List.length (Trace.pendingErrors p) <= 1)%nat.
Proof.
  intros (Hnd & _ & Herr).
  assert (Hids : forall t, In t (Trace.pendingErrors p) ->
                           ScribeControl.errorTimeoutRef p = Some (fst t)).
  { intros [id a] Hin. unfold Trace.pendingErrors in Hin.
    apply filter_In in Hin. destruct Hin as [Hin Ha]. simpl in Ha.
    destruct a; try discriminate Ha. exact (Herr _ _ Hin). }
  assert (Hnd' : NoDup (map fst (Trace.pendingErrors p)))
    by (apply NoDup_map_filter; exact Hnd).
  destruct (Trace.pendingErrors p) as [|t1 [|t2 l]]; simpl; try lia.
  exfalso. inversion Hnd' as [|? ? Hn _]; subst. apply Hn. left.
  pose proof (Hids t1 (or_introl eq_refl)) as H1.
  pose proof (Hids t2 (or_intror (or_introl eq_refl))) as H2.
  congruence.
Qed.

(** X11.  At most one error message is waiting to be shown.  Whatever
    happens to the component from its initial state (transcript events,
    errors, timers firing, toggles, the token arriving, the connection
    settling), its pending timers have distinct handles, a pending error
    message belongs to the timer [errorTimeoutRef] holds, and so no two
    error messages are pending at once. *)
Theorem at_most_one_pending_error :
  forall evs : list ScribeControl.Event,
    let p := ScribeControl.steps evs ScribeControl.initialPage in
    Trace.timersOk p /\ (List.length (Trace.pendingErrors p) <= 1)%nat.
Proof.
  intros evs. cbv zeta.
  pose proof (timersOk_steps evs timersOk_initial) as Hok.
  split; [exact Hok | apply pendingErrors_at_most_one; exact Hok].
Qed.

Lemma pendingErrors_onError (error : option string) (p : ScribeControl.Page) :
  Trace.timersOk p ->
  Trace.pendingErrors (ScribeControl.onError error p)
  = [(ScribeControl.nextTimer p, ScribeControl.ShowError (Trace.shownFor error))].
Proof.
  intros Hok.
  pose proof (fun id msg => @no_pending_error_after_clear p id msg Hok)
    as Hnone.
  unfold ScribeControl.onError, Trace.pendingErrors. cbv zeta.
  set (p1 := match ScribeControl.errorTimeoutRef p with
             | Some old => ScribeControl.clearTimeout old p
             | None => p
             end) in *.
  assert (Hn : ScribeControl.nextTimer p1 = ScribeControl.nextTimer p)
    by (unfold p1; destruct (ScribeControl.errorTimeoutRef p); reflexivity).
  simpl. rewrite Hn. unfold Trace.shownFor. f_equal.
  destruct (filter _ (ScribeControl.timers p1)) as [|[id a] l] eqn:Hf;
    [reflexivity|].
  assert (Hin : In (id, a) (filter
                 (fun t => match snd t with
                           | ScribeControl.ShowError _ => true
                           | _ => false
                           end) (ScribeControl.timers p1)))
    by (rewrite Hf; left; reflexivity).
  apply filter_In in Hin. destruct Hin as [Hin Ha]. simpl in Ha.
  destruct a; try discriminate Ha. exfalso. exact (Hnone _ _ Hin).
Qed.

Lemma pendingErrors_nil (q : ScribeControl.Page) :
  (forall id msg,
      In (id, ScribeControl.ShowError msg) (ScribeControl.timers q) -> False) ->
  Trace.pendingErrors q = [].
Proof.
  intros Hq. unfold Trace.pendingErrors.
  destruct (filter _ (ScribeControl.timers q)) as [|[id a] l] eqn:Hf;
    [reflexivity|].
  assert (Hin : In (id, a) (filter
                 (fun t => match snd t with
                           | ScribeControl.ShowError _ => true
                           | _ => false
                           end) (ScribeControl.timers q)))
    by (rewrite Hf; left; reflexivity).
  apply filter_In in Hin. destruct Hin as [Hin Ha]. simpl in Ha.
  destruct a; try discriminate Ha. exfalso. exact (Hq _ _ Hin).
Qed.

Lemma pendingErrors_In (q : ScribeControl.Page) (id : ScribeControl.TimerId)
  (msg : string) :
  In (id, ScribeControl.ShowError msg) (ScribeControl.timers q) ->
  In (id, ScribeControl.ShowError msg) (Trace.pendingErrors q).
Proof.
  intros H. unfold Trace.pendingErrors. apply filter_In. split; [exact H|].
  reflexivity.
Qed.

(** X12.  Errors are debounced, and only the last one of a burst is
    shown.  In any state the component can reach, an error reported to
    [onError] shows nothing and plays nothing by itself: it replaces
    whatever error message was pending by a timer of its own.  When that
    timer fires, the message of this error is what [recording.error]
    becomes, the error sound is played once, and no error message is
    left pending. *)
Theorem error_burst_shows_last :
  forall (evs : list ScribeControl.Event) (error : option string)
         (isConnected : bool),
    let p := ScribeControl.steps evs ScribeControl.initialPage in
    let reported := ScribeControl.onError error p in
    let shown :=
      ScribeControl.fire (ScribeControl.nextTimer p) isConnected reported in
    Trace.pendingErrors reported
    = [(ScribeControl.nextTimer p,
        ScribeControl.ShowError (Trace.shownFor error))]
    /\ ScribeControl.state reported = ScribeControl.state p
    /\ ScribeControl.effects reported = ScribeControl.effects p
    /\ ScribePage.error
         (ScribePage.recording (ScribeControl.state shown))
       = Trace.shownFor error
    /\ ScribePage.latenciesMs
         (ScribePage.recording (ScribeControl.state shown))
       = ScribePage.latenciesMs
           (ScribePage.recording (ScribeControl.state p))
    /\ ScribeControl.effects shown
       = ScribeControl.playError :: ScribeControl.effects p
    /\ Trace.pendingErrors shown = [].
Proof.
  intros evs error isConnected. cbv zeta.
  set (p := ScribeControl.steps evs ScribeControl.initialPage).
  assert (Hok : Trace.timersOk p)
    by (apply timersOk_steps; exact timersOk_initial).
  pose proof (fun id msg => @no_pending_error_after_clear p id msg Hok)
    as Hnone.
  split; [apply pendingErrors_onError; exact Hok|].
  unfold ScribeControl.onError. cbv zeta.
  set (p1 := match ScribeControl.errorTimeoutRef p with
             | Some old => ScribeControl.clearTimeout old p
             | None => p
             end) in *.
  assert (Hn : ScribeControl.nextTimer p1 = ScribeControl.nextTimer p)
    by (unfold p1; destruct (ScribeControl.errorTimeoutRef p); reflexivity).
  assert (Hs : ScribeControl.state p1 = ScribeControl.state p)
    by (unfold p1; destruct (ScribeControl.errorTimeoutRef p); reflexivity).
  assert (He : ScribeControl.effects p1 = ScribeControl.effects p)
    by (unfold p1; destruct (ScribeControl.errorTimeoutRef p); reflexivity).
  split; [exact Hs|]. split; [exact He|].
  unfold ScribeControl.fire. simpl find. rewrite Hn, Pos.eqb_refl.
  cbv zeta. simpl. rewrite Hs, He.
  split; [reflexivity|]. split; [reflexivity|]. split; [reflexivity|].
  apply pendingErrors_nil. simpl. intros id msg Hin.
  rewrite Hn, Pos.eqb_refl in Hin. simpl in Hin.
  apply filter_In in Hin. exact (Hnone id msg (proj1 Hin)).
Qed.

(** X13.  A toggle cancels the pending error.  In any state the
    component can reach, a toggle that is not ignored (the hook reports a
    connection or a connection attempt, or no operation is in progress)
    leaves no error message pending and clears [errorTimeoutRef], the
    error shown and the latencies; whichever timer fires next, no error
    appears. *)
Theorem toggle_cancels_pending_error :
  forall (evs : list ScribeControl.Event) (view : ScribeControl.ScribeView),
    let p := ScribeControl.steps evs ScribeControl.initialPage in
    ScribeControl.isConnected view
    || String.eqb (ScribeControl.status view) "connecting"
    || negb (ScribeControl.isOperatingRef p) = true ->
    let p' := ScribeControl.step (ScribeControl.Toggle view) p in
    Trace.pendingErrors p' = []
    /\ ScribeControl.errorTimeoutRef p' = None
    /\ ScribePage.recording (ScribeControl.state p')
       = {| ScribePage.error := ""; ScribePage.latenciesMs := [] |}
    /\ ScribePage.segmentStartMsRef (ScribeControl.state p') = None
    /\ (forall (id : ScribeControl.TimerId) (isConnected : bool),
           ScribePage.error
             (ScribePage.recording
                (ScribeControl.state (ScribeControl.fire id isConnected p')))
           = ""%string).
Proof.
  intros evs view. cbv zeta.
  set (p := ScribeControl.steps evs ScribeControl.initialPage).
  intros Hview.
  assert (Hok : Trace.timersOk p)
    by (apply timersOk_steps; exact timersOk_initial).
  assert (Hclear : forall q,
             ScribeControl.timers q = ScribeControl.timers p ->
             ScribeControl.errorTimeoutRef q = ScribeControl.errorTimeoutRef p ->
             (forall id msg,
                 In (id, ScribeControl.ShowError msg)
                    (ScribeControl.timers (ScribeControl.clearErrorTimeout q))
                 -> False)
             /\ ScribeControl.errorTimeoutRef (ScribeControl.clearErrorTimeout q)
                = None).
  { intros q Ht Hr.
    pose proof (fun id msg => @no_pending_error_after_clear p id msg Hok)
      as Hnone.
    unfold ScribeControl.clearErrorTimeout. rewrite Hr.
    destruct (ScribeControl.errorTimeoutRef p) as [old|] eqn:Hold.
    - split; [|reflexivity]. intros id msg Hin. simpl in Hin.
      rewrite Ht in Hin. exact (Hnone id msg Hin).
    - split; [|exact Hr]. intros id msg Hin. rewrite Ht in Hin.
      exact (Hnone id msg Hin). }
  assert (Hmain :
    (forall id msg,
        In (id, ScribeControl.ShowError msg)
           (ScribeControl.timers (ScribeControl.step (ScribeControl.Toggle view) p))
        -> False)
    /\ ScribeControl.errorTimeoutRef
         (ScribeControl.step (ScribeControl.Toggle view) p) = None
    /\ ScribePage.recording
         (ScribeControl.state (ScribeControl.step (ScribeControl.Toggle view) p))
       = {| ScribePage.error := ""; ScribePage.latenciesMs := [] |}
    /\ ScribePage.segmentStartMsRef
         (ScribeControl.state (ScribeControl.step (ScribeControl.Toggle view) p))
       = None).
  { simpl ScribeControl.step. unfold ScribeControl.toggle.
    destruct (ScribeControl.isConnected view
              || String.eqb (ScribeControl.status view) "connecting").
    - destruct (Hclear (ScribeControl.setIsOperating true
                          (ScribeControl.setShouldBeConnected false p))
                  eq_refl eq_refl) as [Hn Hr].
      simpl ScribeControl.pageOf. split; [|split; [exact Hr|split; reflexivity]].
      intros id msg [Heq | Hin]; [discriminate Heq|].
      exact (Hn id msg Hin).
    - simpl in Hview. apply negb_true_iff in Hview. rewrite Hview.
      destruct (Hclear (ScribeControl.setIsOperating true
                          (ScribeControl.setShouldBeConnected true p))
                  eq_refl eq_refl) as [Hn Hr].
      simpl ScribeControl.pageOf. split; [|split; [exact Hr|split; reflexivity]].
      intros id msg Hin. exact (Hn id msg Hin). }
  destruct Hmain as (Hn & Hr & Hrec & Hseg).
  split; [apply pendingErrors_nil; exact Hn|].
  split; [exact Hr|]. split; [exact Hrec|]. split; [exact Hseg|].
  intros id isConnected. unfold ScribeControl.fire.
  destruct (find _ _) as [[id' a]|] eqn:Hf; [|rewrite Hrec; reflexivity].
  apply find_some in Hf. destruct Hf as [Hin _].
  cbv zeta. destruct a.
  - exfalso. exact (Hn _ _ Hin).
  - unfold ScribeControl.setIsOperating, ScribeControl.clearTimeout.
    cbn [ScribeControl.state]. rewrite Hrec. reflexivity.
  - destruct (_ && _);
      unfold ScribeControl.perform, ScribeControl.clearTimeout;
      cbn [ScribeControl.state]; rewrite Hrec; reflexivity.
Qed.

Lemma toggle_cancels_pending_error_witness :
  Trace.pendingErrors
    (ScribeControl.steps Scenarios.errorReported ScribeControl.initialPage)
  = [(1%positive, ScribeControl.ShowError "Connection lost")]
  /\ Trace.pendingErrors
       (ScribeControl.step (ScribeControl.Toggle Scenarios.connectedView)
          (ScribeControl.steps Scenarios.errorReported
             ScribeControl.initialPage))
     = [].
Proof.
  split; [reflexivity|].
  apply (toggle_cancels_pending_error Scenarios.errorReported
           Scenarios.connectedView eq_refl).
Defined.

Lemma clearErrorTimeout_keeps (p : ScribeControl.Page) :
  let p' := ScribeControl.clearErrorTimeout p in
  ScribeControl.state p' = ScribeControl.state p
  /\ ScribeControl.effects p' = ScribeControl.effects p
  /\ ScribeControl.isOperatingRef p' = ScribeControl.isOperatingRef p
  /\ ScribeControl.shouldBeConnectedRef p'
     = ScribeControl.shouldBeConnectedRef p
  /\ ScribeControl.nextTimer p' = ScribeControl.nextTimer p
  /\ ScribeControl.selectedLanguage p' = ScribeControl.selectedLanguage p.
Proof.
  unfold ScribeControl.clearErrorTimeout.
  destruct (ScribeControl.errorTimeoutRef p); repeat split.
Qed.

(** X14.  The guard against simultaneous connection attempts is set by
    each attempt and always released.  A request to connect made while
    no operation is in progress asks for one token and sets the guard; a
    further request to connect made in the state this leaves is ignored:
    it changes nothing and asks for no second token.  The guard stays as
    it is when the token arrives and the connection is started, and
    however the attempt ends (the token request rejects, the token is
    missing, the user has cancelled, the connection fails or succeeds)
    the guard is released.  A request to disconnect sets the guard too,
    and the timer it starts releases it. *)
Theorem connect_guard_released :
  (forall (p : ScribeControl.Page) (view : ScribeControl.ScribeView),
      Trace.asksToConnect (ScribeControl.Toggle view) = true ->
      ScribeControl.isOperatingRef p = false ->
      exists p' : ScribeControl.Page,
        ScribeControl.toggle view p = ScribeControl.AwaitToken p'
        /\ ScribeControl.effects p'
           = ScribeControl.getScribeToken :: ScribeControl.effects p
        /\ ScribeControl.isOperatingRef p' = true
        /\ (forall view' : ScribeControl.ScribeView,
               Trace.asksToConnect (ScribeControl.Toggle view') = true ->
               ScribeControl.toggle view' p' = ScribeControl.Returned p'))
  /\ (forall (p : ScribeControl.Page) (outcome : ScribeControl.TokenOutcome),
         match ScribeControl.toggle_afterToken outcome p with
         | ScribeControl.Returned p' =>
             ScribeControl.isOperatingRef p' = false
         | ScribeControl.AwaitConnect p' =>
             ScribeControl.isOperatingRef p' = ScribeControl.isOperatingRef p
         | ScribeControl.AwaitToken _ => False
         end)
  /\ (forall (p : ScribeControl.Page) (rejected : option (option string)),
         ScribeControl.isOperatingRef
           (ScribeControl.toggle_afterConnect rejected p) = false)
  /\ (forall (p : ScribeControl.Page) (view : ScribeControl.ScribeView)
             (isConnected : bool),
         Trace.asksToConnect (ScribeControl.Toggle view) = false ->
         let p' := ScribeControl.pageOf (ScribeControl.toggle view p) in
         ScribeControl.isOperatingRef p' = true
         /\ ScribeControl.isOperatingRef
              (ScribeControl.fire (ScribeControl.nextTimer p) isConnected p')
            = false).
Proof.
  split; [|split; [|split]].
  - intros p view Hask Hop. simpl in Hask. apply negb_true_iff in Hask.
    unfold ScribeControl.toggle. rewrite Hask, Hop.
    destruct (clearErrorTimeout_keeps
                (ScribeControl.setIsOperating true
                   (ScribeControl.setShouldBeConnected true p)))
      as (_ & He & Ho & _).
    eexists. split; [reflexivity|].
    unfold ScribeControl.perform, ScribeControl.setState.
    cbn [ScribeControl.effects ScribeControl.isOperatingRef].
    rewrite He, Ho.
    split; [reflexivity|]. split; [reflexivity|].
    intros view' Hask'. simpl in Hask'. apply negb_true_iff in Hask'.
    rewrite Hask'. reflexivity.
  - intros p outcome. unfold ScribeControl.toggle_afterToken.
    destruct outcome as [message | result]; [reflexivity|].
    destruct (negb (ScribeControl.shouldBeConnectedRef p)); [reflexivity|].
    destruct (_ || _); reflexivity.
  - intros p rejected. unfold ScribeControl.toggle_afterConnect.
    destruct rejected as [message|]; [reflexivity|].
    destruct (negb (ScribeControl.shouldBeConnectedRef p)); reflexivity.
  - intros p view isConnected Hask. simpl in Hask.
    apply negb_false_iff in Hask. cbv zeta.
    unfold ScribeControl.toggle. rewrite Hask.
    destruct (clearErrorTimeout_keeps
                (ScribeControl.setIsOperating true
                   (ScribeControl.setShouldBeConnected false p)))
      as (_ & _ & Ho & _ & Hn & _).
    unfold ScribeControl.pageOf, ScribeControl.setTimeout,
      ScribeControl.disconnectNow, ScribeControl.perform,
      ScribeControl.setState.
    cbn [ScribeControl.isOperatingRef ScribeControl.nextTimer
         ScribeControl.timers].
    split; [exact Ho|].
    unfold ScribeControl.fire.
    cbn [find fst ScribeControl.timers].
    rewrite Hn. cbn [ScribeControl.nextTimer ScribeControl.setIsOperating
                     ScribeControl.setShouldBeConnected].
    rewrite Pos.eqb_refl. reflexivity.
Qed.

Lemma connect_guard_released_witness :
  exists p' : ScribeControl.Page,
    ScribeControl.toggle Scenarios.disconnectedView ScribeControl.initialPage
    = ScribeControl.AwaitToken p'
    /\ ScribeControl.effects p' = [ScribeControl.getScribeToken]
    /\ ScribeControl.toggle Scenarios.disconnectedView p'
       = ScribeControl.Returned p'.
Proof.
  destruct connect_guard_released as (H & _).
  destruct (H ScribeControl.initialPage Scenarios.disconnectedView
              eq_refl eq_refl) as (p' & Ht & He & _ & Hagain).
  exists p'. split; [exact Ht|]. split; [exact He|].
  apply Hagain. reflexivity.
Defined.

Lemma onError_keeps (error : option string) (p : ScribeControl.Page) :
  let p' := ScribeControl.onError error p in
  ScribeControl.state p' = ScribeControl.state p
  /\ ScribeControl.effects p' = ScribeControl.effects p
  /\ ScribeControl.isOperatingRef p' = ScribeControl.isOperatingRef p
  /\ ScribeControl.shouldBeConnectedRef p'
     = ScribeControl.shouldBeConnectedRef p
  /\ ScribeControl.selectedLanguage p' = ScribeControl.selectedLanguage p.
Proof.
  unfold ScribeControl.onError.
  destruct (ScribeControl.errorTimeoutRef p); repeat split.
Qed.

(** What a timer that fires can change besides the timers. *)
Lemma fire_cases (id : ScribeControl.TimerId) (isConnected : bool)
  (p : ScribeControl.Page) :
  let p' := ScribeControl.fire id isConnected p in
  ScribeControl.shouldBeConnectedRef p' = ScribeControl.shouldBeConnectedRef p
  /\ ScribeControl.selectedLanguage p' = ScribeControl.selectedLanguage p
  /\ (ScribeControl.effects p' = ScribeControl.effects p
      \/ ScribeControl.effects p'
         = ScribeControl.playError :: ScribeControl.effects p
      \/ (ScribeControl.effects p'
          = ScribeControl.playStart :: ScribeControl.effects p
          /\ ScribeControl.shouldBeConnectedRef p = true
          /\ isConnected = true)).
Proof.
  unfold ScribeControl.fire.
  destruct (find _ _) as [[id' a]|]; [|repeat split; left; reflexivity].
  cbv zeta. destruct a.
  - repeat split. right. left. reflexivity.
  - repeat split. left. reflexivity.
  - simpl ScribeControl.shouldBeConnectedRef.
    destruct (ScribeControl.shouldBeConnectedRef p) eqn:Hs;
      destruct isConnected; simpl; repeat split;
      solve [ assumption | left; reflexivity
            | right; right; repeat split; assumption ].
Qed.

Lemma step_keeps_disconnected (ev : ScribeControl.Event)
  (p : ScribeControl.Page) :
  ScribeControl.shouldBeConnectedRef p = false ->
  Trace.asksToConnect ev = false ->
  ScribeControl.shouldBeConnectedRef (ScribeControl.step ev p) = false
  /\ filter Trace.connectsOrStarts (ScribeControl.effects (ScribeControl.step ev p))
     = filter Trace.connectsOrStarts (ScribeControl.effects p).
Proof.
  intros Hs Hask.
  destruct ev as [e | error | id c | view | outcome | rejected];
    simpl ScribeControl.step.
  - split; [exact Hs | reflexivity].
  - destruct (onError_keeps error p) as (_ & He & _ & Hc & _).
    rewrite He, Hc. split; [exact Hs | reflexivity].
  - destruct (fire_cases id c p) as (Hc & _ & He).
    rewrite Hc. split; [exact Hs|].
    destruct He as [-> | [-> | (_ & Habs & _)]]; try reflexivity.
    rewrite Hs in Habs. discriminate Habs.
  - simpl in Hask. apply negb_false_iff in Hask.
    unfold ScribeControl.toggle. rewrite Hask.
    destruct (clearErrorTimeout_keeps
                (ScribeControl.setIsOperating true
                   (ScribeControl.setShouldBeConnected false p)))
      as (_ & He & _ & Hc & _).
    unfold ScribeControl.pageOf, ScribeControl.setTimeout,
      ScribeControl.disconnectNow, ScribeControl.perform,
      ScribeControl.setState.
    cbn [ScribeControl.shouldBeConnectedRef ScribeControl.effects].
    rewrite He, Hc. split; reflexivity.
  - unfold ScribeControl.toggle_afterToken.
    destruct outcome as [message | result]; [split; reflexivity|].
    rewrite Hs. simpl. split; [exact Hs | reflexivity].
  - unfold ScribeControl.toggle_afterConnect.
    destruct rejected as [message|]; [split; reflexivity|].
    rewrite Hs. simpl. split; [exact Hs | reflexivity].
Qed.

(** X15.  Once disconnected, nothing connects behind the user's back.
    From a state in which the user's wish is "disconnected", and as long
    as the user does not ask to connect again, nothing that arrives (a
    late token, a connection that resolves or fails, timers that fire,
    errors, transcripts, further requests to disconnect) makes the
    component call [scribe.connect] or play the start sound, and the
    wish stays "disconnected". *)
Theorem no_connection_after_disconnect :
  forall (evs : list ScribeControl.Event) (p : ScribeControl.Page),
    ScribeControl.shouldBeConnectedRef p = false ->
    forallb (fun ev => negb (Trace.asksToConnect ev)) evs = true ->
    filter Trace.connectsOrStarts
      (ScribeControl.effects (ScribeControl.steps evs p))
    = filter Trace.connectsOrStarts (ScribeControl.effects p)
    /\ ScribeControl.shouldBeConnectedRef (ScribeControl.steps evs p) = false.
Proof.
  induction evs as [|ev evs IH]; intros p Hs Hevs; [split; [reflexivity|exact Hs]|].
  simpl in Hevs. apply andb_true_iff in Hevs. destruct Hevs as [Hev Hevs].
  apply negb_true_iff in Hev.
  destruct (step_keeps_disconnected ev p Hs Hev) as [Hs' He'].
  simpl ScribeControl.steps.
  destruct (IH (ScribeControl.step ev p) Hs' Hevs) as [He Hc].
  split; [rewrite <- He'; exact He | exact Hc].
Qed.

Lemma no_connection_after_disconnect_witness :
  let cancelled :=
    ScribeControl.steps Scenarios.cancelledWhileConnecting
      ScribeControl.initialPage in
  filter Trace.connectsOrStarts (ScribeControl.effects cancelled)
  = [ScribeControl.scribe_connect "tok_123" None]
  /\ filter Trace.connectsOrStarts
       (ScribeControl.effects
          (ScribeControl.steps Scenarios.lateArrivals cancelled))
     = [ScribeControl.scribe_connect "tok_123" None].
Proof.
  cbv zeta. split; [reflexivity|].
  destruct (@no_connection_after_disconnect Scenarios.lateArrivals
              (ScribeControl.steps Scenarios.cancelledWhileConnecting
                 ScribeControl.initialPage) eq_refl eq_refl) as [-> _].
  reflexivity.
Defined.

Lemma step_wellFormed (ev : ScribeControl.Event) (p : ScribeControl.Page) :
  forallb Trace.wellFormedCall (ScribeControl.effects p) = true ->
  forallb Trace.wellFormedCall (ScribeControl.effects (ScribeControl.step ev p))
  = true.
Proof.
  intros Hp.
  destruct ev as [e | error | id c | view | outcome | rejected];
    simpl ScribeControl.step.
  - exact Hp.
  - destruct (onError_keeps error p) as (_ & -> & _). exact Hp.
  - destruct (fire_cases id c p) as (_ & _ & [-> | [-> | (-> & _)]]);
      simpl; exact Hp.
  - unfold ScribeControl.toggle.
    destruct (_ || _).
    + destruct (clearErrorTimeout_keeps
                  (ScribeControl.setIsOperating true
                     (ScribeControl.setShouldBeConnected false p)))
        as (_ & He & _).
      unfold ScribeControl.pageOf, ScribeControl.setTimeout,
        ScribeControl.disconnectNow, ScribeControl.perform,
        ScribeControl.setState.
      cbn [ScribeControl.effects]. rewrite He. simpl. exact Hp.
    + destruct (ScribeControl.isOperatingRef p); [exact Hp|].
      destruct (clearErrorTimeout_keeps
                  (ScribeControl.setIsOperating true
                     (ScribeControl.setShouldBeConnected true p)))
        as (_ & He & _).
      unfold ScribeControl.pageOf, ScribeControl.perform,
        ScribeControl.setState.
      cbn [ScribeControl.effects]. rewrite He. simpl. exact Hp.
  - unfold ScribeControl.toggle_afterToken.
    destruct outcome as [message | result]; [exact Hp|].
    destruct (negb (ScribeControl.shouldBeConnectedRef p)); [exact Hp|].
    destruct (ScribeControl.truthyOpt (ScribeControl.tokenError result)
              || negb (ScribeControl.truthyOpt (ScribeControl.token result)))
      eqn:Hguard; [exact Hp|].
    apply orb_false_iff in Hguard. destruct Hguard as [_ Htok].
    apply negb_false_iff in Htok.
    simpl. rewrite Hp, andb_true_r.
    apply andb_true_iff. split.
    + destruct (ScribeControl.token result) as [tok|]; [|discriminate Htok].
      simpl in Htok. simpl. unfold JS.or_else. rewrite Htok. exact Htok.
    + unfold ScribeControl.languageCode.
      destruct (ScribeControl.selectedLanguage p) as [l|]; [|reflexivity].
      destruct (JS.truthy l) eqn:Hl; [exact Hl | reflexivity].
  - unfold ScribeControl.toggle_afterConnect.
    destruct rejected as [message|]; [exact Hp|].
    destruct (negb (ScribeControl.shouldBeConnectedRef p)); simpl; exact Hp.
Qed.

(** X16.  [scribe.connect] is only called with a token.  In every run of
    the component from its initial state, whatever language is selected,
    each call of [scribe.connect] carries a non-empty token, and its
    language code is either absent or non-empty: a missing or empty
    token, or an error in the token response, never reaches the hook. *)
Theorem connect_only_with_token :
  forall (evs : list ScribeControl.Event) (language : option string)
         (token : string) (languageCode : option string),
    In (ScribeControl.scribe_connect token languageCode)
       (ScribeControl.effects
          (ScribeControl.steps evs
             {| ScribeControl.state := ScribePage.initial;
                ScribeControl.selectedLanguage := language;
                ScribeControl.isOperatingRef := false;
                ScribeControl.shouldBeConnectedRef := false;
                ScribeControl.errorTimeoutRef := None;
                ScribeControl.timers := [];
                ScribeControl.nextTimer := 1%positive;
                ScribeControl.effects := [] |})) ->
    token <> ""%string /\ languageCode <> Some ""%string.
Proof.
  intros evs language token languageCode Hin.
  assert (Hall : forall evs p,
             forallb Trace.wellFormedCall (ScribeControl.effects p) = true ->
             forallb Trace.wellFormedCall
               (ScribeControl.effects (ScribeControl.steps evs p)) = true).
  { clear. induction evs as [|ev evs IH]; intros p Hp; [exact Hp|].
    simpl. apply IH. apply step_wellFormed. exact Hp. }
  pose proof (Hall evs _ (eq_refl : forallb Trace.wellFormedCall
                                      (ScribeControl.effects
                                         {| ScribeControl.state := ScribePage.initial;
                                            ScribeControl.selectedLanguage := language;
                                            ScribeControl.isOperatingRef := false;
                                            ScribeControl.shouldBeConnectedRef := false;
                                            ScribeControl.errorTimeoutRef := None;
                                            ScribeControl.timers := [];
                                            ScribeControl.nextTimer := 1%positive;
                                            ScribeControl.effects := [] |})
                                    = true)) as H.
  rewrite forallb_forall in H. specialize (H _ Hin). simpl in H.
  apply andb_true_iff in H. destruct H as [Ht Hl]. split.
  - apply truthy_nonempty. exact Ht.
  - destruct languageCode as [l|]; [|discriminate].
    intros Heq. inversion Heq; subst l. discriminate Hl.
Qed.

Lemma connect_only_with_token_witness :
  In (ScribeControl.scribe_connect "tok_123" None)
     (ScribeControl.effects
        (ScribeControl.steps Scenarios.cancelledWhileConnecting
           ScribeControl.initialPage))
  /\ "tok_123"%string <> ""%string.
Proof.
  assert (Hin : In (ScribeControl.scribe_connect "tok_123" None)
                   (ScribeControl.effects
                      (ScribeControl.steps Scenarios.cancelledWhileConnecting
                         ScribeControl.initialPage))).
  { vm_compute. do 3 right. left. reflexivity. }
  split; [exact Hin|].
  exact (proj1 (@connect_only_with_token Scenarios.cancelledWhileConnecting
                  None "tok_123" None Hin)).
Defined.

(** X17.  In [page.tsx] too the copy button copies the committed
    transcript and nothing else.  Whatever the previous display text
    was, the transcript area shows a copy button exactly when there is
    no error, no partial transcript and a non-empty full transcript, and
    a click then writes the full transcript (the committed segments
    joined by spaces) to the clipboard. *)
Theorem page_copy_button_copies_full_transcript :
  forall (r : ScribePage.RecordingState) (scribe : ScribePage.Scribe)
         (view : ScribeControl.ScribeView) (prevDisplayTextRef s : string),
    (exists p : ScribeControl.TranscriptProps,
        ScribeControl.transcriptArea r scribe view prevDisplayTextRef = Some p
        /\ ScribeControl.copyButton p = Some s)
    <-> (ScribePage.error r = ""%string
         /\ ScribePage.partialTranscript scribe = ""%string
         /\ ScribePage.fullTranscript scribe = s
         /\ s <> ""%string).
Proof.
  intros r scribe view prev s.
  assert (Hstable : forall d,
             fst (ScribeControl.stableDisplayText d prev) = d).
  { intros d. unfold ScribeControl.stableDisplayText.
    destruct (String.eqb d prev) eqn:Hd; simpl; [|reflexivity].
    apply String.eqb_eq in Hd. symmetry. exact Hd. }
  unfold ScribeControl.transcriptArea, ScribeControl.copyButton.
  cbv zeta. rewrite Hstable.
  unfold ScribePage.displayText, JS.or_else.
  destruct r as [e lat]. simpl.
  generalize (ScribePage.fullTranscript scribe) as full.
  generalize (ScribePage.partialTranscript scribe) as partial.
  intros p t. split.
  - intros (props & Harea & Hcopy).
    destruct e; simpl in *.
    + destruct p; simpl in *.
      * destruct t; simpl in *; [discriminate Harea|].
        inversion Harea; subst props; simpl in Hcopy.
        inversion Hcopy; subst s.
        repeat split; discriminate.
      * inversion Harea; subst props; simpl in Hcopy. discriminate Hcopy.
    + inversion Harea; subst props; simpl in Hcopy. discriminate Hcopy.
  - intros (He & Hp & Ht & Hs). subst e p t.
    destruct s as [|c s]; [contradiction Hs; reflexivity|].
    simpl. eexists. split; reflexivity.
Qed.

Lemma page_copy_button_copies_full_transcript_witness :
  exists p : ScribeControl.TranscriptProps,
    ScribeControl.transcriptArea
      {| ScribePage.error := ""; ScribePage.latenciesMs := [] |}
      {| ScribePage.partialTranscript := "";
         ScribePage.finalTranscripts :=
           [ {| ScribePage.seg_text := "hello" |};
             {| ScribePage.seg_text := "world" |} ] |}
      Scenarios.disconnectedView "hello" = Some p
    /\ ScribeControl.copyButton p = Some "hello world"%string.
Proof.
  apply page_copy_button_copies_full_transcript.
  repeat split. discriminate.
Defined.

(* ================================================================== *)
(** ** A whole session of the WebSocket transcriber                    *)
(* ================================================================== *)

Lemma audio_cons (ws : WsTranscriber.WebSocket) (c : string)
  (chunks : list string) (b : WsControl.Browser) :
  Trace.audio ws (c :: chunks) b
  = Trace.audio ws chunks (WsControl.onaudioprocess ws c b).
Proof. reflexivity. Qed.

Lemma audio_open (ws : WsTranscriber.WebSocket) (chunks : list string) :
  forall b : WsControl.Browser,
    WsControl.readyStateOpen b ws = true ->
    WsControl.world (Trace.audio ws chunks b) = WsControl.world b
    /\ WsControl.openedSockets (Trace.audio ws chunks b)
       = WsControl.openedSockets b
    /\ WsControl.endedSockets (Trace.audio ws chunks b)
       = WsControl.endedSockets b
    /\ WsControl.disconnectedNodes (Trace.audio ws chunks b)
       = WsControl.disconnectedNodes b
    /\ WsControl.closedContexts (Trace.audio ws chunks b)
       = WsControl.closedContexts b
    /\ WsControl.sent (Trace.audio ws chunks b)
       = (rev (map (fun base64 =>
                      (ws, {| WsControl.audio_base_64 := base64;
                              WsControl.commit := false |})) chunks)
          ++ WsControl.sent b)%list.
Proof.
  induction chunks as [|c chunks IH]; intros b Hopen.
  - repeat split.
  - rewrite audio_cons.
    assert (Hstep : WsControl.onaudioprocess ws c b
                    = WsControl.send ws
                        {| WsControl.audio_base_64 := c;
                           WsControl.commit := false |} b)
      by (unfold WsControl.onaudioprocess; rewrite Hopen; reflexivity).
    rewrite Hstep.
    destruct (IH (WsControl.send ws
                    {| WsControl.audio_base_64 := c;
                       WsControl.commit := false |} b) Hopen)
      as (Hw & Ho & He & Hd & Hc & Hs).
    rewrite Hw, Ho, He, Hd, Hc, Hs. simpl.
    rewrite <- app_assoc. repeat split.
Qed.

(** X18.  A whole push-to-talk session releases everything it took.
    Started on a new socket, whatever the state before, a session that
    runs to its final transcript sends the audio chunks in order
    followed by one commit message, ends with the final transcript
    displayed and nothing else, idle, and holds no resource any more:
    the socket is closed, the tracks of the stream are stopped, the
    processor is disconnected, the audio context is closed, and the four
    refs are null. *)
Theorem session_releases_resources :
  forall (b : WsControl.Browser) (stream : WsTranscriber.MediaStream)
         (ws : WsTranscriber.WebSocket) (chunks : list string)
         (final : string),
    Trace.newSocket b ws = true ->
    let b' := Trace.session stream ws chunks final b in
    let w' := WsControl.world b' in
    WsTranscriber.recording w'
    = {| WsTranscriber.isRecording := false;
         WsTranscriber.isProcessing := false;
         WsTranscriber.isConnecting := false;
         WsTranscriber.transcript := final;
         WsTranscriber.partialTranscript := "";
         WsTranscriber.error := "" |}
    /\ WsTranscriber.displayText (WsTranscriber.recording w') = final
    /\ WsControl.sent b'
       = ((ws, WsControl.commitMessage)
          :: rev (map (fun base64 =>
                         (ws, {| WsControl.audio_base_64 := base64;
                                 WsControl.commit := false |})) chunks)
          ++ WsControl.sent b)%list
    /\ WsTranscriber.websocketRef w' = None
    /\ WsTranscriber.streamRef w' = None
    /\ WsTranscriber.audioContextRef w' = None
    /\ WsTranscriber.processorRef w' = None
    /\ In ws (WsTranscriber.closedSockets w')
    /\ In stream (WsTranscriber.stoppedStreams w')
    /\ In (S (WsTranscriber.nextNode (WsControl.world b)))
          (WsControl.disconnectedNodes b')
    /\ In (WsTranscriber.nextNode (WsControl.world b))
          (WsControl.closedContexts b').
Proof.
  intros b stream ws chunks final Hnew. cbv zeta. unfold Trace.session.
  apply andb_true_iff in Hnew. destruct Hnew as [Hfresh Hlive].
  set (b1 := WsControl.onopen ws
               (WsControl.startRecording (WsControl.Connecting stream ws) b)).
  assert (Hopen1 : WsTranscriber.isOpen (WsControl.world b1) ws = true)
    by exact Hfresh.
  set (b2 := WsControl.deliver ws
               (WsTranscriber.Message WsTranscriber.session_started) b1).
  assert (Hb2 : b2 = WsControl.setWorld
                       (WsTranscriber.onmessage
                          (WsTranscriber.Message WsTranscriber.session_started)
                          (WsControl.world b1)) b1).
  { unfold b2, WsControl.deliver, WsTranscriber.dispatchMessage.
    rewrite Hopen1. reflexivity. }
  assert (Hopen2 : WsControl.readyStateOpen b2 ws = true).
  { rewrite Hb2. unfold WsControl.readyStateOpen.
    apply andb_true_iff. split; [apply andb_true_iff; split|].
    - simpl. rewrite Nat.eqb_refl. reflexivity.
    - exact Hfresh.
    - exact Hlive. }
  destruct (audio_open ws chunks b2 Hopen2)
    as (Hw3 & Ho3 & He3 & Hd3 & Hc3 & Hs3).
  set (b3 := Trace.audio ws chunks b2) in *.
  assert (Hopen3 : WsControl.readyStateOpen b3 ws = true).
  { unfold WsControl.readyStateOpen. rewrite Hw3, Ho3, He3. exact Hopen2. }
  assert (Hws3 : WsTranscriber.websocketRef (WsControl.world b3) = Some ws)
    by (rewrite Hw3, Hb2; reflexivity).
  destruct (stopRecording_state b3) as (Hr4 & Hw4 & Hc4 & Hs4 & Hp4 & Ha4 & Hst4).
  pose proof (stopRecording_sent b3) as Hsent4.
  rewrite Hws3, Hopen3 in Hsent4.
  set (b4 := WsControl.stopRecording b3) in *.
  assert (Hopen4 : WsTranscriber.isOpen (WsControl.world b4) ws = true).
  { unfold WsTranscriber.isOpen. rewrite Hc4, Hw3, Hb2. exact Hfresh. }
  assert (Hb5 : WsControl.deliver ws
                  (WsTranscriber.Message (WsTranscriber.final_transcript final))
                  b4
                = WsControl.setWorld
                    (WsTranscriber.onmessage
                       (WsTranscriber.Message
                          (WsTranscriber.final_transcript final))
                       (WsControl.world b4)) b4).
  { unfold WsControl.deliver, WsTranscriber.dispatchMessage.
    rewrite Hopen4. reflexivity. }
  rewrite Hb5. clear Hb5.
  unfold WsControl.setWorld at 1 2 3 4 5 6 7 8 9 10 11.
  cbn [WsControl.world WsControl.sent WsControl.disconnectedNodes
       WsControl.closedContexts].
  unfold WsTranscriber.onmessage.
  assert (Hrec : WsTranscriber.recording
                   (WsTranscriber.cleanupWebSocket
                      (WsTranscriber.updateRecording
                         {| WsTranscriber.u_isRecording := None;
                            WsTranscriber.u_isProcessing := Some false;
                            WsTranscriber.u_isConnecting := None;
                            WsTranscriber.u_transcript := Some final;
                            WsTranscriber.u_partialTranscript := Some ""%string;
                            WsTranscriber.u_error := None |}
                         (WsControl.world b4)))
                 = {| WsTranscriber.isRecording := false;
                      WsTranscriber.isProcessing := false;
                      WsTranscriber.isConnecting := false;
                      WsTranscriber.transcript := final;
                      WsTranscriber.partialTranscript := "";
                      WsTranscriber.error := "" |}).
  { rewrite cleanupWebSocket_recording.
    unfold WsTranscriber.updateRecording, WsTranscriber.setRecording.
    cbn [WsTranscriber.recording]. rewrite Hr4, Hw3, Hb2. reflexivity. }
  rewrite Hrec.
  split; [reflexivity|]. split; [apply or_else_empty_l|].
  split; [rewrite Hsent4, Hs3, Hb2; reflexivity|].
  split; [apply cleanupWebSocket_ref|].
  assert (Hupd : forall u,
             WsTranscriber.websocketRef
               (WsTranscriber.updateRecording u (WsControl.world b4)) = Some ws)
    by (intros u; unfold WsTranscriber.updateRecording,
          WsTranscriber.setRecording; cbn [WsTranscriber.websocketRef];
        rewrite Hw4; exact Hws3).
  unfold WsTranscriber.cleanupWebSocket. rewrite Hupd.
  unfold WsTranscriber.updateRecording, WsTranscriber.setRecording.
  cbn [WsTranscriber.streamRef WsTranscriber.audioContextRef
       WsTranscriber.processorRef WsTranscriber.closedSockets
       WsTranscriber.stoppedStreams].
  split; [exact Hs4|]. split; [exact Ha4|]. split; [exact Hp4|].
  split; [left; reflexivity|].
  split.
  { rewrite Hst4, Hw3, Hb2. left. reflexivity. }
  unfold b4, WsControl.stopRecording, WsControl.sendCommit. cbv zeta.
  rewrite websocketRef_release, Hws3, readyStateOpen_release, Hopen3.
  unfold WsControl.setWorld, WsControl.send.
  cbn [WsControl.disconnectedNodes WsControl.closedContexts].
  unfold WsControl.releaseAudioContext, WsControl.releaseProcessor.
  rewrite Hw3, Hb2. simpl. split; left; reflexivity.
Qed.

Lemma session_releases_resources_witness :
  let b' := Trace.session 3%nat 7%nat ["AAAA"; "BBBB"]%string "hello world"
              Scenarios.idleBrowser in
  WsControl.sent b'
  = [ (7%nat, WsControl.commitMessage);
      (7%nat, {| WsControl.audio_base_64 := "BBBB";
                 WsControl.commit := false |});
      (7%nat, {| WsControl.audio_base_64 := "AAAA";
                 WsControl.commit := false |}) ]
  /\ WsTranscriber.displayText (WsTranscriber.recording (WsControl.world b'))
     = "hello world"%string
  /\ WsTranscriber.closedSockets (WsControl.world b') = [7%nat].
Proof.
  cbv zeta.
  destruct (@session_releases_resources Scenarios.idleBrowser 3%nat 7%nat
              ["AAAA"; "BBBB"]%string "hello world"%string eq_refl)
    as (_ & Hd & Hs & _).
  split; [exact Hs|]. split; [exact Hd|]. reflexivity.
Defined.

(* ================================================================== *)
(** ** More on the conversion to PCM16                                 *)
(* ================================================================== *)

Lemma float32_digits (m : positive) (e : Z) :
  bounded 24 128 m e = true ->
  (e = -149 \/ Zpos (digits2_pos m) = 24) /\ Zpos (digits2_pos m) <= 24.
Proof.
  unfold bounded, canonical_mantissa, fexp, emin. intros H.
  apply andb_prop in H. destruct H as [Hc _].
  apply Z.eqb_eq in Hc. lia.
Qed.

(** A positive binary32 value is at least 1 exactly when its binary
    exponent is positive. *)
Lemma fullScale_le (m : positive) (e : Z) :
  bounded 24 128 m e = true ->
  SFleb Trace.fullScale (S754_finite false m e) = true
  <-> 1 <= e + Zpos (digits2_pos m).
Proof.
  intros Hb. destruct (float32_digits _ _ Hb) as [Hd Hd'].
  unfold SFleb, SFcompare, Trace.fullScale.
  destruct (Z.compare_spec (-23) e) as [He|He|He].
  - subst e. destruct Hd as [Hd|Hd]; [lia|].
    pose proof (digits2_bounds m) as [Hm _]. rewrite Hd in Hm.
    change (2 ^ (24 - 1)) with 8388608 in Hm.
    change (Pos.compare_cont Eq 8388608 m)
      with (Z.compare 8388608 (Zpos m)).
    destruct (Z.compare_spec 8388608 (Zpos m)); split; intros; try lia;
      reflexivity.
  - split; [intros _ | reflexivity]. destruct Hd as [Hd|Hd]; lia.
  - split; [discriminate | intros H; lia].
Qed.

Lemma fullScale_ge (m : positive) (e : Z) :
  bounded 24 128 m e = true ->
  SFleb (S754_finite true m e) (SFopp Trace.fullScale) = true
  <-> 1 <= e + Zpos (digits2_pos m).
Proof.
  intros Hb. destruct (float32_digits _ _ Hb) as [Hd Hd'].
  unfold SFleb, SFcompare, Trace.fullScale, SFopp. cbn [negb].
  destruct (Z.compare_spec e (-23)) as [He|He|He].
  - subst e. destruct Hd as [Hd|Hd]; [lia|].
    pose proof (digits2_bounds m) as [Hm _]. rewrite Hd in Hm.
    change (2 ^ (24 - 1)) with 8388608 in Hm.
    change (Pos.compare_cont Eq m 8388608)
      with (Z.compare (Zpos m) 8388608).
    destruct (Z.compare_spec (Zpos m) 8388608); cbn [CompOpp]; split;
      intros; try lia; reflexivity.
  - split; [discriminate | intros H; lia].
  - split; [intros _ | reflexivity]. destruct Hd as [Hd|Hd]; lia.
Qed.

Lemma toPCM16_positive_full (m : positive) (e : Z) :
  bounded 24 128 m e = true ->
  WsTranscriber.toPCM16 (JS.Float32Array_get (S754_finite false m e)) = 32767
  <-> 1 <= e + Zpos (digits2_pos m).
Proof.
  intros Hb. rewrite (toPCM16_finite false _ _ Hb). cbn [cond_Zopp].
  destruct (Z_le_gt_dec 1 (e + Zpos (digits2_pos m))) as [H|H].
  - pose proof (scaled_large m e H). split; [intros _; exact H | lia].
  - pose proof (@scaled_small m e ltac:(lia)). split; lia.
Qed.

(** X19.  The conversion to PCM16 is symmetric and reaches full scale
    only by clipping.  For every element of the input buffer, the value
    stored for the negated sample is the negation of the value stored
    for the sample; the value stored is 32767 exactly when the sample is
    at least 1, and -32767 exactly when it is at most -1. *)
Theorem pcm16_symmetric_full_scale :
  forall f : spec_float,
    JS.isFloat32 f = true ->
    WsTranscriber.toPCM16 (JS.Float32Array_get (SFopp f))
    = - WsTranscriber.toPCM16 (JS.Float32Array_get f)
    /\ (WsTranscriber.toPCM16 (JS.Float32Array_get f) = 32767
        <-> SFleb Trace.fullScale f = true)
    /\ (WsTranscriber.toPCM16 (JS.Float32Array_get f) = -32767
        <-> SFleb f (SFopp Trace.fullScale) = true).
Proof.
  intros f Hf. destruct f as [s | s | | s m e].
  - destruct s; vm_compute; repeat split; intros; discriminate.
  - destruct s; vm_compute; repeat split; intros; try discriminate;
      reflexivity.
  - vm_compute; repeat split; intros; discriminate.
  - change (JS.isFloat32 (S754_finite s m e)) with (bounded 24 128 m e) in Hf.
    split; [|split].
    + simpl SFopp. rewrite !toPCM16_finite by exact Hf.
      destruct s; cbn [negb cond_Zopp]; lia.
    + destruct s.
      * rewrite (toPCM16_finite true _ _ Hf). cbn [cond_Zopp].
        pose proof (scaled_nonneg m e).
        split; [lia | intros H0; discriminate H0].
      * rewrite (toPCM16_positive_full _ _ Hf). symmetry.
        apply fullScale_le. exact Hf.
    + destruct s.
      * transitivity (WsTranscriber.toPCM16
                        (JS.Float32Array_get (S754_finite false m e)) = 32767).
        { rewrite !toPCM16_finite by exact Hf. cbn [cond_Zopp]. lia. }
        rewrite (toPCM16_positive_full _ _ Hf). symmetry.
        apply fullScale_ge. exact Hf.
      * rewrite (toPCM16_finite false _ _ Hf). cbn [cond_Zopp].
        pose proof (scaled_nonneg m e).
        split; [lia | intros H0; discriminate H0].
Qed.

Lemma pcm16_symmetric_full_scale_witness :
  WsTranscriber.toPCM16 (JS.Float32Array_get (SFopp Samples.half32)) = -16383
  /\ WsTranscriber.toPCM16 (JS.Float32Array_get Trace.fullScale) = 32767.
Proof.
  split.
  - destruct (pcm16_symmetric_full_scale Samples.half32 eq_refl) as (-> & _).
    reflexivity.
  - apply (pcm16_symmetric_full_scale Trace.fullScale eq_refl). reflexivity.
Defined.

(* ================================================================== *)
(** ** A whole connection of [page.tsx]                                *)
(* ================================================================== *)



(* ================================================================== *)
(** ** The sign of the average latency                                 *)
(* ================================================================== *)

(** Rounding a non-negative mantissa never yields NaN or a negative
    number. *)
Lemma binary_round_aux_nonNegative (mx ex : Z) (lx : location) :
  0 <= mx -> Trace.nonNegative (binary_round_aux 53 1024 false mx ex lx).
Proof.
  intros Hmx. unfold binary_round_aux.
  destruct (shr_fexp 53 1024 mx ex lx) as [r1 e1] eqn:E1.
  assert (H1 : 0 <= shr_m r1).
  { unfold shr_fexp in E1.
    pose proof (@shr_spec (shr_record_of_loc mx lx) ex
                  (fexp 53 1024 (Zdigits2 mx + ex) - ex)) as Hs.
    rewrite shr_m_of_loc in Hs. specialize (Hs Hmx).
    rewrite E1 in Hs. cbn [fst snd] in Hs. destruct Hs as [-> _].
    apply Z.div_pos; [exact Hmx | apply pow2_pos; lia]. }
  set (m1 := round_nearest_even (shr_m r1) (loc_of_shr_record r1)).
  assert (Hm1 : 0 <= m1)
    by (pose proof (round_nearest_even_bounds (shr_m r1)
                      (loc_of_shr_record r1)); unfold m1; lia).
  destruct (shr_fexp 53 1024 m1 e1 loc_Exact) as [r2 e2] eqn:E2.
  assert (H2 : 0 <= shr_m r2).
  { unfold shr_fexp in E2.
    pose proof (@shr_spec (shr_record_of_loc m1 loc_Exact) e1
                  (fexp 53 1024 (Zdigits2 m1 + e1) - e1)) as Hs.
    rewrite shr_m_of_loc in Hs. specialize (Hs Hm1).
    rewrite E2 in Hs. cbn [fst snd] in Hs. destruct Hs as [-> _].
    apply Z.div_pos; [exact Hm1 | apply pow2_pos; lia]. }
  destruct (shr_m r2) as [|p|p]; [exact I | | lia].
  destruct (e2 <=? 1024 - 53); reflexivity.
Qed.

Lemma binary_normalize_nonNegative (z e : Z) :
  0 <= z -> Trace.nonNegative (binary_normalize 53 1024 z e false).
Proof.
  intros Hz. destruct z as [|p|p]; [exact I | | lia].
  unfold binary_normalize, binary_round.
  destruct (shl_align p e _) as [mz ez].
  apply binary_round_aux_nonNegative. lia.
Qed.

Lemma add_nonNegative (x y : JS.number) :
  Trace.nonNegative x -> Trace.nonNegative y -> Trace.nonNegative (JS.add x y).
Proof.
  intros Hx Hy. unfold JS.add, JS.prec, JS.emax.
  destruct x as [sx | sx | | sx mx ex]; destruct y as [sy | sy | | sy my ey];
    simpl in Hx, Hy; try contradiction; subst;
    try (simpl; (exact I || reflexivity)).
  - destruct sx, sy; exact I.
  - unfold SFadd. cbn [cond_Zopp].
    apply binary_normalize_nonNegative. lia.
Qed.

Lemma div_nonNegative (x : JS.number) (m : positive) (e : Z) :
  Trace.nonNegative x ->
  Trace.nonNegative (JS.div x (S754_finite false m e)).
Proof.
  intros Hx. unfold JS.div, JS.prec, JS.emax.
  destruct x as [sx | sx | | sx mx ex]; simpl in Hx; try contradiction.
  - exact I.
  - subst sx. reflexivity.
  - subst sx. unfold SFdiv. cbn [xorb].
    destruct (SFdiv_core_binary 53 1024 (Zpos mx) ex (Zpos m) e)
      as [[mz ez] lz] eqn:E.
    apply binary_round_aux_nonNegative.
    unfold SFdiv_core_binary in E. cbv zeta in E.
    match type of E with
    | context [Z.div_eucl ?a ?b] =>
        assert (Ha : 0 <= a);
        [| pose proof (Z_div_mod a b ltac:(lia)) as Hdm;
           destruct (Z.div_eucl a b) as [q r] ]
    end.
    + match goal with
      | |- 0 <= match ?s with _ => _ end => destruct s
      end; try lia. apply Z.shiftl_nonneg. lia.
    + inversion E; subst mz. nia.
Qed.

Lemma Math_round_nonNegative (x : JS.number) :
  Trace.nonNegative x -> Trace.nonNegative (JS.Math_round x).
Proof.
  intros Hx. destruct x as [sx | sx | | sx mx ex]; try exact Hx.
  simpl in Hx. subst sx. unfold JS.Math_round.
  destruct (Z.leb_spec 0 ex) as [He|He]; [reflexivity|].
  apply binary_normalize_nonNegative.
  apply Z.div_pos; [|apply pow2_pos; lia].
  cbn [cond_Zopp]. pose proof (Z.pow_nonneg 2 (- ex)). lia.
Qed.

Lemma sum_nonNegative (l : list JS.number) :
  forall acc : JS.number,
    Trace.nonNegative acc ->
    Forall Trace.nonNegative l ->
    Trace.nonNegative (fold_left (fun sum v => JS.add sum v) l acc).
Proof.
  induction l as [|x l IH]; intros acc Hacc Hl; [exact Hacc|].
  inversion Hl; subst. simpl. apply IH; [|assumption].
  apply add_nonNegative; assumption.
Qed.

(** The rounded mean of non-negative numbers is not negative. *)
Lemma mean_nonNegative (l : list JS.number) (n : Z) :
  0 < n < 2 ^ 53 ->
  Forall Trace.nonNegative l ->
  Trace.nonNegative
    (JS.Math_round
       (JS.div (fold_left (fun sum v => JS.add sum v) l (JS.of_Z 0))
               (JS.of_Z n))).
Proof.
  intros Hn Hall.
  destruct (of_Z_positive Hn) as (m & e & ->).
  apply Math_round_nonNegative, div_nonNegative.
  apply sum_nonNegative; [exact I | exact Hall].
Qed.

(** X21.  The average latency shown is never negative and never NaN.
    When the recorded latencies, fewer than 2^53 of them, are
    non-negative numbers (zeros, positive numbers or [+Infinity]), the
    value [averageLatency] yields is again a non-negative number,
    whatever rounding and overflow occur in the sum and in the
    division. *)
Theorem average_latency_non_negative :
  forall r : ScribePage.RecordingState,
    Forall Trace.nonNegative (ScribePage.latenciesMs r) ->
    Z.of_nat (List.length (ScribePage.latenciesMs r)) < 2 ^ 53 ->
    Trace.nonNegative (ScribePage.averageLatency r).
Proof.
  intros r Hall Hlen. unfold ScribePage.averageLatency.
  destruct (ScribePage.latenciesMs r) as [|x l] eqn:El; [exact I|].
  set (n := List.length (x :: l)) in *.
  assert (Hn0 : (n =? 0)%nat = false) by reflexivity.
  rewrite Hn0. apply mean_nonNegative; [|exact Hall].
  split; [unfold n; simpl List.length; lia | exact Hlen].
Qed.

Lemma average_latency_non_negative_witness :
  Trace.nonNegative (ScribePage.averageLatency Samples.threeSamples).
Proof.
  apply average_latency_non_negative.
  - repeat constructor.
  - vm_compute. reflexivity.
Defined.

(* ================================================================== *)
(** ** Latencies under a monotone clock                                *)
(* ================================================================== *)

Lemma shl_align_value (m : positive) (e ez : Z) :
  ez <= e -> Zpos (fst (shl_align m e ez)) = Zpos m * 2 ^ (e - ez).
Proof.
  intros H. unfold shl_align.
  destruct (ez - e) as [|d|d] eqn:Hd; try lia.
  - replace (e - ez) with 0 by lia. simpl fst. lia.
  - cbn [fst].
    change (Pos.iter xO m d) with (Pos.shiftl m (Npos d)).
    rewrite Zpos_shiftl. f_equal. f_equal. simpl Z.of_N. lia.
Qed.

Lemma binary64_canonical (m : positive) (e : Z) :
  bounded 53 1024 m e = true ->
  Zpos (digits2_pos m) <= 53
  /\ (e = -1074 \/ Zpos (digits2_pos m) = 53)
  /\ -1074 <= e.
Proof.
  unfold bounded, canonical_mantissa, fexp, emin. intros H.
  apply andb_prop in H. destruct H as [Hc _].
  apply Z.eqb_eq in Hc. lia.
Qed.

(** On canonical mantissas the comparison by exponent, then by mantissa,
    is the comparison of the aligned mantissas. *)
Lemma aligned_le (m1 m2 : positive) (e1 e2 : Z) :
  bounded 53 1024 m1 e1 = true ->
  bounded 53 1024 m2 e2 = true ->
  e1 < e2 \/ (e1 = e2 /\ Zpos m1 <= Zpos m2) ->
  Zpos (fst (shl_align m1 e1 (Z.min e1 e2)))
  <= Zpos (fst (shl_align m2 e2 (Z.min e1 e2))).
Proof.
  intros H1 H2 Hcmp.
  destruct (binary64_canonical _ _ H1) as (Hd1 & _ & Hmin1).
  destruct (binary64_canonical _ _ H2) as (_ & Hd2 & _).
  rewrite !shl_align_value by lia.
  destruct Hcmp as [He | [He Hm]].
  - rewrite Z.min_l by lia. rewrite Z.sub_diag. simpl (2 ^ 0).
    destruct Hd2 as [Hd2|Hd2]; [lia|].
    pose proof (digits2_bounds m1) as [_ Hm1].
    pose proof (digits2_bounds m2) as [Hm2 _]. rewrite Hd2 in Hm2.
    assert (Hp1 : 2 ^ Zpos (digits2_pos m1) <= 2 ^ 53)
      by (apply Z.pow_le_mono_r; lia).
    assert (Hp2 : 2 ^ 1 <= 2 ^ (e2 - e1)) by (apply Z.pow_le_mono_r; lia).
    change (2 ^ 1) with 2 in Hp2.
    replace (2 ^ 53) with (2 * 2 ^ (53 - 1)) in Hp1 by reflexivity.
    nia.
  - subst e2. rewrite Z.min_id, Z.sub_diag. simpl (2 ^ 0). lia.
Qed.

(** The difference of two clock values taken in order is not negative. *)
Lemma sub_nonNegative (a b : JS.number) :
  Trace.clockValue a -> Trace.clockValue b ->
  SFleb a b = true ->
  Trace.nonNegative (JS.sub b a).
Proof.
  intros [Hva Hfa] [Hvb Hfb] Hle.
  unfold JS.sub, JS.prec, JS.emax.
  destruct a as [sa | sa | | sa ma ea]; try contradiction;
    destruct b as [sb | sb | | sb mb eb]; try contradiction.
  - destruct sa, sb; exact I.
  - destruct sb; [discriminate Hle | reflexivity].
  - destruct sa; [reflexivity | discriminate Hle].
  - simpl in Hva, Hvb. unfold SFsub. cbv zeta.
    apply binary_normalize_nonNegative.
    unfold SFleb, SFcompare in Hle.
    change (Pos.compare_cont Eq ma mb) with (Z.compare (Zpos ma) (Zpos mb))
      in Hle.
    destruct sa, sb; cbn [cond_Zopp]; try discriminate Hle; try lia.
    + (* both negative: the magnitude of [a] is the larger one *)
      assert (Hc : eb < ea \/ (eb = ea /\ Zpos mb <= Zpos ma)).
      { destruct (Z.compare_spec ea eb);
          [ destruct (Z.compare_spec (Zpos ma) (Zpos mb));
              cbn [CompOpp] in Hle; try discriminate Hle; lia
          | discriminate Hle | lia ]. }
      pose proof (@aligned_le mb ma eb ea Hvb Hva Hc) as H. lia.
    + (* both positive *)
      assert (Hc : ea < eb \/ (ea = eb /\ Zpos ma <= Zpos mb)).
      { destruct (Z.compare_spec ea eb);
          [ destruct (Z.compare_spec (Zpos ma) (Zpos mb));
              try discriminate Hle; lia
          | lia | discriminate Hle ]. }
      pose proof (@aligned_le ma mb ea eb Hva Hvb Hc) as H.
      rewrite (Z.min_comm eb ea). lia.
Qed.

(** A segment start is an old one or the time of the event handled. *)
Lemma segmentStart_origin (ev : ScribePage.Event) (st : ScribePage.State)
  (s : JS.number) :
  ScribePage.segmentStartMsRef (ScribePage.handle ev st) = Some s ->
  ScribePage.segmentStartMsRef st = Some s \/ s = ScribePage.timeOf ev.
Proof.
  destruct ev as [now | d now | d now]; simpl.
  - unfold ScribePage.tick.
    destruct (ScribePage.segmentStartMsRef st) as [t|] eqn:E; simpl.
    + rewrite E. intros H. left. exact H.
    + intros H. right. inversion H. reflexivity.
  - unfold ScribePage.onPartialTranscript.
    destruct (String.eqb _ _); [intros H; left; exact H|].
    destruct (ScribePage.segmentStartMsRef st) as [t|] eqn:E;
      [destruct (0 <? _)%nat|]; simpl; intros H;
      try discriminate H; left; exact H.
  - unfold ScribePage.onFinalTranscript.
    destruct (ScribePage.segmentStartMsRef st);
      [destruct (ScribePage.hasText d)|]; simpl; intros H; discriminate H.
Qed.

Lemma recorded_nonNegative (evs : list ScribePage.Event) :
  forall st : ScribePage.State,
    (forall s, ScribePage.segmentStartMsRef st = Some s ->
               Trace.clockValue s
               /\ Forall (fun t => SFleb s t = true)
                    (map ScribePage.timeOf evs)) ->
    Trace.monotoneClock evs ->
    Forall Trace.nonNegative (Trace.recordedLatencies st evs).
Proof.
  induction evs as [|ev evs IH]; intros st Hst [Hclock Hsorted];
    [constructor|].
  simpl in Hclock, Hsorted.
  inversion Hclock as [|? ? Hev Hrest]; subst.
  inversion Hsorted as [|? ? Hsorted' Hafter]; subst.
  simpl Trace.recordedLatencies. apply Forall_app. split.
  - destruct (ScribePage.measuresFrom ev st) as [start|] eqn:Hm;
      [|constructor].
    destruct (measuresFrom_records _ _ Hm) as (Hs & _).
    destruct (Hst start Hs) as [Hcv Hle].
    constructor; [|constructor].
    apply sub_nonNegative; [exact Hcv | exact Hev|].
    simpl in Hle. inversion Hle; assumption.
  - apply IH; [|split; assumption].
    intros s Hs. destruct (segmentStart_origin _ _ Hs) as [Hold | ->].
    + destruct (Hst s Hold) as [Hcv Hle]. split; [exact Hcv|].
      simpl in Hle. inversion Hle; assumption.
    + split; assumption.
Qed.

Lemma Forall_last_entries (A : Type) (P : A -> Prop) (n : nat) (l : list A) :
  Forall P l -> Forall P (Spec.last_entries n l).
Proof.
  intros H. unfold Spec.last_entries.
  rewrite <- (firstn_skipn (List.length l - n) l) in H.
  apply Forall_app in H. exact (proj2 H).
Qed.

(** X22.  With a clock that never goes back, no latency is negative.  In
    every run from the initial state whose events carry finite clock
    values in non-decreasing order, each latency recorded is a
    non-negative number, so are the samples kept in [latenciesMs], and
    the average latency shown is a non-negative number too. *)
Theorem monotone_clock_latencies_non_negative :
  forall evs : list ScribePage.Event,
    Trace.monotoneClock evs ->
    let r := ScribePage.recording (ScribePage.run evs ScribePage.initial) in
    Forall Trace.nonNegative (Trace.recordedLatencies ScribePage.initial evs)
    /\ Forall Trace.nonNegative (ScribePage.latenciesMs r)
    /\ Trace.nonNegative (ScribePage.averageLatency r).
Proof.
  intros evs Hclock. cbv zeta.
  assert (Hrec : Forall Trace.nonNegative
                   (Trace.recordedLatencies ScribePage.initial evs)).
  { apply recorded_nonNegative; [|exact Hclock].
    intros s Hs. discriminate Hs. }
  assert (Hwin : Forall Trace.nonNegative
                   (ScribePage.latenciesMs
                      (ScribePage.recording
                         (ScribePage.run evs ScribePage.initial)))).
  { rewrite latencies_of_run_from by (simpl; lia).
    apply Forall_last_entries. exact Hrec. }
  split; [exact Hrec|]. split; [exact Hwin|].
  pose proof (@run_window evs ScribePage.initial) as Hlen.
  simpl in Hlen. specialize (Hlen ltac:(lia)).
  unfold ScribePage.averageLatency.
  destruct (ScribePage.latenciesMs
              (ScribePage.recording (ScribePage.run evs ScribePage.initial)))
    as [|x l] eqn:El; [exact I|].
  set (n := List.length (x :: l)) in *.
  assert (Hn0 : (n =? 0)%nat = false) by reflexivity.
  rewrite Hn0. apply mean_nonNegative; [|exact Hwin].
  split; [unfold n; simpl List.length; lia|].
  apply Z.le_lt_trans with 30; [lia | reflexivity].
Qed.

Lemma monotone_clock_latencies_non_negative_witness :
  Trace.monotoneClock Scenarios.threeMeasurements
  /\ Trace.nonNegative
       (ScribePage.averageLatency
          (ScribePage.recording
             (ScribePage.run Scenarios.threeMeasurements ScribePage.initial)))
  /\ ScribePage.averageLatency
       (ScribePage.recording
          (ScribePage.run Scenarios.threeMeasurements ScribePage.initial))
     = Samples.ms 93.
Proof.
  assert (Hclock : Trace.monotoneClock Scenarios.threeMeasurements).
  { split.
    - repeat constructor.
    - repeat constructor. }
  split; [exact Hclock|]. split.
  - apply (monotone_clock_latencies_non_negative Hclock).
  - vm_compute. reflexivity.
Defined.
